(** * Bulk marking: name reconciliation and the batch event stream

  A shallow embedding of [app.py]: the identity normaliser
  ([normalize_name], [clean_corrupted_name]), the fuzzy matcher
  ([calculate_match_percentage]), the score splitter
  ([split_feedback_and_score]) and the batch generator
  ([process_bulk_marking]), followed by the properties proved of them.

  Python [str] values are lists of Unicode code points.  What Python takes
  from the Unicode character database (normalisation forms, general
  categories, case mappings) is an interface, [Unicode]; the ASCII part of
  every predicate is written out, so the interface is consulted for
  code points from U+0080 on only. *)

From Stdlib Require Import String Ascii.
From Stdlib Require Import NArith ZArith Bool Lia List.
From Stdlib Require Import Floats.SpecFloat.
Import ListNotations.

Set Implicit Arguments.

(** ** Python strings *)

Definition char := N.
Definition str := list char.

(** An ASCII literal as a Python string. *)
Definition lit (s : string) : str := map N_of_ascii (list_ascii_of_string s).
Arguments lit s%_string.

Definition str_eqb (a b : str) : bool :=
  if list_eq_dec N.eq_dec a b then true else false.

Definition is_empty {A} (l : list A) : bool :=
  match l with [] => true | _ => false end.

Module Py.

Open Scope N_scope.

Definition between (lo hi c : N) : bool := (lo <=? c) && (c <=? hi).

(** [c.isascii()] *)
Definition isascii (c : char) : bool := c <? 128.

Definition ascii_upper (c : char) : bool := between 65 90 c.
Definition ascii_lower (c : char) : bool := between 97 122 c.
Definition ascii_letter (c : char) : bool := ascii_upper c || ascii_lower c.
Definition ascii_digit (c : char) : bool := between 48 57 c.

(** [c.isspace()], which is also the white space of [str.split()],
    [str.strip()] and of [\s] in a [str] pattern: TAB..CR, FS..US, SPACE,
    NEL, NBSP, OGHAM SPACE MARK, EN QUAD..HAIR SPACE, LINE and PARAGRAPH
    SEPARATOR, NARROW NBSP, MEDIUM MATHEMATICAL SPACE, IDEOGRAPHIC SPACE. *)
Definition isspace (c : char) : bool :=
  between 9 13 c || between 28 32 c || (c =? 133) || (c =? 160)
  || (c =? 5760) || between 8192 8202 c || (c =? 8232) || (c =? 8233)
  || (c =? 8239) || (c =? 8287) || (c =? 12288).

(** The lower-case mapping of one ASCII character. *)
Definition to_lower_ascii (c : char) : char :=
  if ascii_upper c then c + 32 else c.

(** [s.lstrip()], [s.rstrip()], [s.strip()] *)
Fixpoint lstrip (s : str) : str :=
  match s with
  | c :: s' => if isspace c then lstrip s' else s
  | [] => []
  end.

Definition rstrip (s : str) : str := rev (lstrip (rev s)).

Definition strip (s : str) : str := rstrip (lstrip s).

(** [s.split()]: the maximal runs of characters that are not white space.
    [cur] is the run being read. *)
Fixpoint split_from (cur s : str) : list str :=
  match s with
  | [] => if is_empty cur then [] else [cur]
  | c :: s' =>
      if isspace c
      then if is_empty cur then split_from [] s' else cur :: split_from [] s'
      else split_from (cur ++ [c]) s'
  end.

Definition split (s : str) : list str := split_from [] s.

(** [sep.join(parts)] *)
Fixpoint join (sep : str) (parts : list str) : str :=
  match parts with
  | [] => []
  | [w] => w
  | w :: rest => w ++ sep ++ join sep rest
  end.

(** [s.startswith(p)] *)
Fixpoint startswith (s p : str) : bool :=
  match p, s with
  | [], _ => true
  | a :: p', b :: s' => (a =? b) && startswith s' p'
  | _ :: _, [] => false
  end.

End Py.

(** ** The Unicode character database

  [normalize_NFD] and [normalize_NFC] are [unicodedata.normalize]; the
  character predicates and [category_L] (the general category starts with
  [L]) are asked about code points from U+0080 on; [str_lower] and
  [str_capitalize] are [str.lower] and [str.capitalize].  The four laws
  are facts of the Unicode standard: ASCII text is its own canonical
  decomposition, composing first does not change the decomposition,
  lowering ASCII text changes [A]..[Z] only, and no decimal digit is
  white space. *)
Class Unicode := {
  normalize_NFD : str -> str;
  normalize_NFC : str -> str;
  category_L : char -> bool;
  wide_isalpha : char -> bool;
  wide_isalnum : char -> bool;
  wide_decimal : char -> option N;
  str_lower : str -> str;
  str_capitalize : str -> str;
  NFD_ascii : forall s, forallb Py.isascii s = true -> normalize_NFD s = s;
  NFD_NFC : forall s, normalize_NFD (normalize_NFC s) = normalize_NFD s;
  lower_ascii : forall s, forallb Py.isascii s = true ->
                          str_lower s = map Py.to_lower_ascii s;
  decimal_not_space : forall c, wide_decimal c <> None -> Py.isspace c = false
}.

Section Characters.

Context {U : Unicode}.

(** [c.isalpha()] *)
Definition isalpha (c : char) : bool :=
  if Py.isascii c then Py.ascii_letter c else wide_isalpha c.

(** [c.isalnum()] *)
Definition isalnum (c : char) : bool :=
  if Py.isascii c then Py.ascii_letter c || Py.ascii_digit c
  else wide_isalnum c.

(** The value of a decimal digit (general category [Nd]), which is what
    [\d] matches in a [str] pattern. *)
Definition decimal (c : char) : option N :=
  if Py.isascii c
  then if Py.ascii_digit c then Some (c - 48)%N else None
  else wide_decimal c.

Definition isdecimal (c : char) : bool :=
  match decimal c with Some _ => true | None => false end.

(** [\w] in a [str] pattern *)
Definition isword (c : char) : bool := isalnum c || (c =? 95)%N.

(** [unicodedata.category(c).startswith('L')] *)
Definition is_letter (c : char) : bool :=
  if Py.isascii c then Py.ascii_letter c else category_L c.

End Characters.

(** ** Identity normaliser *)

Section Normaliser.

Context {U : Unicode}.

(** [clean_corrupted_name]: keep letters, spaces, hyphens, apostrophes. *)
Definition clean_corrupted_name (name : str) : str :=
  filter (fun c => is_letter c || existsb (N.eqb c) (lit " -'")) name.

(** The inner function of [normalize_name]. *)
Definition remove_accents_and_corruption (text : str) : str :=
  let nfd := normalize_NFD text in
  filter (fun c => if Py.isascii c then isalpha c || Py.isspace c else false)
         nfd.

(** [normalize_name] *)
Definition normalize_name (name : str) : str :=
  let name := remove_accents_and_corruption name in
  let name := filter (fun c => isalnum c || Py.isspace c) name in
  Py.join (lit " ") (firstn 2 (Py.split (str_lower (Py.strip name)))).

End Normaliser.

(** ** Python floats

  IEEE 754 binary64 with round to nearest even, through the Standard
  Library's executable specification.  An [int] operand is converted
  first, as Python does. *)
Module Float.

Definition prec : Z := 53.
Definition emax : Z := 1024.

Definition float := spec_float.

Definition of_int (z : Z) : float := binary_normalize prec emax z 0 false.
Definition add : float -> float -> float := SFadd prec emax.
Definition mul : float -> float -> float := SFmul prec emax.
Definition div : float -> float -> float := SFdiv prec emax.
Definition leb : float -> float -> bool := SFleb.

(** [int(x)]: truncation toward zero.  (On an infinity or a NaN [int]
    raises; every division below has a positive integer divisor, so
    neither arises.) *)
Definition to_int (x : float) : Z :=
  match x with
  | S754_finite s m e =>
      let a := match e with
               | Z0 => Zpos m
               | Zpos _ => (Zpos m * 2 ^ e)%Z
               | Zneg p => (Zpos m / 2 ^ Zpos p)%Z
               end in
      if s then (- a)%Z else a
  | _ => 0%Z
  end.

(** The literals [0.9] and [0.8]: the doubles nearest to them. *)
Definition lit_0_9 : float := S754_finite false 8106479329266893 (-53).
Definition lit_0_8 : float := S754_finite false 7205759403792794 (-53).

End Float.

(** ** Name matcher *)

Section Matcher.

Context {U : Unicode}.

(** [sum(1 for c in w1 if c in w2)] *)
Definition common_chars (w1 w2 : str) : nat :=
  length (filter (fun c => existsb (N.eqb c) w2) w1).

(** [common_chars / max(len(w1), len(w2))] *)
Definition similarity (w1 w2 : str) : Float.float :=
  Float.div (Float.of_int (Z.of_nat (common_chars w1 w2)))
            (Float.of_int (Z.of_nat (Nat.max (length w1) (length w2)))).

(** [similarity >= 0.8] *)
Definition similar (w1 w2 : str) : bool :=
  Float.leb Float.lit_0_8 (similarity w1 w2).

(** The body of the loop over the compared positions: [matches] after
    the pair [(w1, w2)]. *)
Definition compare_words (matches : Float.float) (w1 w2 : str)
  : Float.float :=
  if str_eqb w1 w2 then Float.add matches (Float.of_int 1)
  else if (3 <=? length w1)%nat && (3 <=? length w2)%nat
       then if similar w1 w2 then Float.add matches Float.lit_0_9
            else matches
       else matches.

(** [calculate_match_percentage].  [matches] starts as the integer 0 and
    becomes a float at the first [+= 0.9]; the integers 0, 1 and 2 are
    floats exactly, so it is a float from the start here.  The positions
    [range(min(2, min(len(words1), len(words2))))] are the first two
    pairs of [zip(words1, words2)]. *)
Definition calculate_match_percentage (name1 name2 : str) : Z :=
  let name1_normalized := normalize_name name1 in
  let name2_normalized := normalize_name name2 in
  if str_eqb name1_normalized name2_normalized then 100%Z
  else
    let words1 := Py.split name1_normalized in
    let words2 := Py.split name2_normalized in
    if is_empty words1 || is_empty words2 then 0%Z
    else
      let matches :=
        fold_left (fun m p => compare_words m (fst p) (snd p))
                  (firstn 2 (combine words1 words2)) (Float.of_int 0) in
      Float.to_int
        (Float.mul (Float.div matches (Float.of_int 2)) (Float.of_int 100)).

(** *** The matcher in exact arithmetic

    The weight of one compared pair in tenths: 10 on equality, 9 for a
    partial match, 0 otherwise.  The confidence for a given weight: the sum
    of the weights of the first two pairs over the divisor 2, as a
    percentage, truncated. *)
Definition confidence_with (weight : str -> str -> Z) (name1 name2 : str)
  : Z :=
  let c1 := normalize_name name1 in
  let c2 := normalize_name name2 in
  if str_eqb c1 c2 then 100%Z
  else if is_empty (Py.split c1) || is_empty (Py.split c2) then 0%Z
  else
    let pairs := firstn 2 (combine (Py.split c1) (Py.split c2)) in
    let weight_sum :=
      fold_right Z.add 0%Z (map (fun p => weight (fst p) (snd p)) pairs) in
    (weight_sum * 100 / (2 * 10))%Z.

(** The weight the code gives: the common characters are counted against
    the longer of the two tokens. *)
Definition pair_weight_tenths (w1 w2 : str) : Z :=
  if str_eqb w1 w2 then 10%Z
  else if (3 <=? length w1)%nat && (3 <=? length w2)%nat && similar w1 w2
       then 9%Z else 0%Z.

(** The same test on integers: 5 * common >= 4 * max(len(w1), len(w2)). *)
Definition four_fifths_of_longer (w1 w2 : str) : bool :=
  (4 * Nat.max (length w1) (length w2) <=? 5 * common_chars w1 w2)%nat.

(** The weight as the specification words it: the fraction of the
    CANDIDATE token's characters found in the roster token is at least
    0.8, that is 5 * common >= 4 * len(w1). *)
Definition claimed_pair_weight_tenths (w1 w2 : str) : Z :=
  if str_eqb w1 w2 then 10%Z
  else if (3 <=? length w1)%nat && (3 <=? length w2)%nat
          && (4 * length w1 <=? 5 * common_chars w1 w2)%nat
       then 9%Z else 0%Z.

End Matcher.

(** ** A finite part of the character database: Latin-1

    The properties of U+0080..U+00FF as the Unicode character database
    gives them, for running the definitions on concrete names: canonical
    decompositions of the accented letters (a base letter and one of the
    marks U+0300 grave, U+0301 acute, U+0302 circumflex, U+0303 tilde,
    U+0308 diaeresis, U+030A ring, U+0327 cedilla), the letters, the
    alphanumerics, the case mappings.  Code points from U+0100 on are given
    no properties; of them only the combining marks, which have none of the
    properties asked about, occur below.  Text in U+0000..U+00FF is in
    composed form already, so [normalize_NFC] leaves it as it is. *)
Module Latin1.

Open Scope N_scope.

(** (composed capital, base letter, mark); the small letters are 32 above. *)
Definition capitals : list (N * (N * N)) :=
  [ (192, (65, 768)); (193, (65, 769)); (194, (65, 770)); (195, (65, 771));
    (196, (65, 776)); (197, (65, 778)); (199, (67, 807)); (200, (69, 768));
    (201, (69, 769)); (202, (69, 770)); (203, (69, 776)); (204, (73, 768));
    (205, (73, 769)); (206, (73, 770)); (207, (73, 776)); (209, (78, 771));
    (210, (79, 768)); (211, (79, 769)); (212, (79, 770)); (213, (79, 771));
    (214, (79, 776)); (217, (85, 768)); (218, (85, 769)); (219, (85, 770));
    (220, (85, 776)); (221, (89, 769)) ].

Definition lookup (c : N) : option (N * N) :=
  match find (fun e => fst e =? c) capitals with
  | Some e => Some (snd e)
  | None => None
  end.

Definition decompose (c : char) : str :=
  if c <? 192 then [c]
  else if c =? 255 then [121; 776]
  else match lookup c with
       | Some (b, m) => [b; m]
       | None =>
           match lookup (c - 32) with
           | Some (b, m) => if 224 <=? c then [b + 32; m] else [c]
           | None => [c]
           end
       end.

Definition nfd (s : str) : str := flat_map decompose s.

Definition letter (c : char) : bool :=
  (c =? 170) || (c =? 181) || (c =? 186)
  || Py.between 192 214 c || Py.between 216 246 c || Py.between 248 255 c.

Definition alnum (c : char) : bool :=
  letter c || (c =? 178) || (c =? 179) || (c =? 185) || Py.between 188 190 c.

Definition lower_char (c : char) : char :=
  if Py.ascii_upper c then c + 32
  else if Py.between 192 222 c && negb (c =? 215) then c + 32
  else c.

Definition lower (s : str) : str := map lower_char s.

(** Title case of the first character: U+00DF gives [Ss], U+00FF gives
    U+0178, U+00B5 gives U+039C. *)
Definition title_char (c : char) : str :=
  if Py.ascii_lower c then [c - 32]
  else if c =? 223 then [83; 115]
  else if c =? 255 then [376]
  else if c =? 181 then [924]
  else if Py.between 224 254 c && negb (c =? 247) then [c - 32]
  else [c].

Definition capitalize (s : str) : str :=
  match s with
  | [] => []
  | c :: rest => title_char c ++ lower rest
  end.

Definition db : Unicode.
Proof.
  refine {| normalize_NFD := nfd;
            normalize_NFC := fun s => s;
            category_L := letter;
            wide_isalpha := letter;
            wide_isalnum := alnum;
            wide_decimal := fun _ => None;
            str_lower := lower;
            str_capitalize := capitalize |}.
  - induction s as [|c s IH]; intros H; [reflexivity|].
    simpl in H. apply andb_true_iff in H. destruct H as [Hc Hs].
    unfold nfd in *. simpl. rewrite (IH Hs).
    unfold decompose. unfold Py.isascii in Hc. apply N.ltb_lt in Hc.
    assert (E : (c <? 192) = true) by (apply N.ltb_lt; lia).
    rewrite E. reflexivity.
  - reflexivity.
  - induction s as [|c s IH]; intros H; [reflexivity|].
    simpl in H. apply andb_true_iff in H. destruct H as [Hc Hs].
    unfold lower in *. simpl. rewrite (IH Hs). f_equal.
    unfold lower_char, Py.to_lower_ascii.
    destruct (Py.ascii_upper c); [reflexivity|].
    unfold Py.isascii in Hc. apply N.ltb_lt in Hc.
    assert (E : Py.between 192 222 c = false).
    { unfold Py.between. apply andb_false_iff. left. apply N.leb_gt. lia. }
    rewrite E. reflexivity.
  - intros c H. now elim H.
Defined.

End Latin1.

(** ** Score splitter

    [re.search(r"\bscore\s*:\s*(\d(?:\.\d)?)", comment, re.IGNORECASE)],
    written out.  Nothing in the pattern can match in two ways from one
    starting point (white space, the colon and the digits are disjoint, and
    the optional fraction is taken when it is there), so the search is the
    leftmost starting point at which the pattern is read off greedily. *)

Section ScoreSplitter.

Context {U : Unicode}.

(** One lower-case ASCII pattern letter against a character of the text
    under [re.IGNORECASE]: the character is lowered first, and the pattern
    letter [s] also stands for U+017F (long s).  No character outside ASCII
    lowers to one of [s], [c], [o], [r], [e]. *)
Definition ci_letter (p c : char) : bool :=
  (Py.to_lower_ascii c =? p)%N || ((p =? 115)%N && (c =? 383)%N).

(** The literal [p], letter by letter; what follows it in [s]. *)
Fixpoint match_literal (p s : str) : option str :=
  match p, s with
  | [], _ => Some s
  | a :: p', c :: s' => if ci_letter a c then match_literal p' s' else None
  | _ :: _, [] => None
  end.

(** [\b] between the characters [prev] and [next], either of which may be
    missing at an end of the text. *)
Definition word_boundary (prev next : option char) : bool :=
  xorb (match prev with Some c => isword c | None => false end)
       (match next with Some c => isword c | None => false end).

(** [(\d(?:\.\d)?)]: group 1. *)
Definition match_number (s : str) : option str :=
  match s with
  | d :: rest =>
      if isdecimal d
      then match rest with
           | dot :: d2 :: _ =>
               if (dot =? 46)%N && isdecimal d2 then Some [d; dot; d2]
               else Some [d]
           | _ => Some [d]
           end
      else None
  | [] => None
  end.

(** The whole pattern at one starting point: group 1 if it matches. *)
Definition match_at (prev : option char) (s : str) : option str :=
  if word_boundary prev (hd_error s)
  then match match_literal (lit "score") s with
       | Some r =>
           match Py.lstrip r with
           | c :: r' => if (c =? 58)%N then match_number (Py.lstrip r')
                        else None
           | [] => None
           end
       | None => None
       end
  else None.

(** [re.search]: the text before the leftmost match, and group 1. *)
Fixpoint search (prev : option char) (before s : str) : option (str * str) :=
  match match_at prev s with
  | Some g => Some (before, g)
  | None =>
      match s with
      | [] => None
      | c :: s' => search (Some c) (before ++ [c]) s'
      end
  end.

(** [split_feedback_and_score] *)
Definition split_feedback_and_score (comment : str) : str * str :=
  match search None [] comment with
  | Some (before, score) => (Py.strip before, score)
  | None => (comment, [])
  end.

(** *** The pattern as the specification words it

    The word [score], optional white space, a colon, and a number with an
    optional one decimal digit, anywhere in the text. *)
Definition spec_match_at (s : str) : option str :=
  match match_literal (lit "score") s with
  | Some r =>
      match Py.lstrip r with
      | c :: r' => if (c =? 58)%N then match_number r' else None
      | [] => None
      end
  | None => None
  end.

Fixpoint spec_search (before s : str) : option (str * str) :=
  match spec_match_at s with
  | Some g => Some (before, g)
  | None =>
      match s with
      | [] => None
      | c :: s' => spec_search (before ++ [c]) s'
      end
  end.

Definition spec_split_feedback_and_score (comment : str) : str * str :=
  match spec_search [] comment with
  | Some (before, score) => (Py.strip before, score)
  | None => (comment, [])
  end.

End ScoreSplitter.

(** ** File names *)

Module Path.

(** [s.rfind(c)] *)
Fixpoint rfind_from (c : char) (s : str) (i : nat) (found : option nat)
  : option nat :=
  match s with
  | [] => found
  | x :: s' => rfind_from c s' (S i) (if (x =? c)%N then Some i else found)
  end.

Definition rfind (c : char) (s : str) : option nat := rfind_from c s 0 None.

(** [os.path.splitext(p)[0]] (POSIX): cut at the last dot of the last path
    component, unless only dots stand before it there. *)
Definition splitext_root (p : str) : str :=
  match rfind 46%N p with
  | None => p
  | Some dot =>
      let start := match rfind 47%N p with Some sep => S sep | None => 0 end in
      if (dot <? start)%nat then p
      else if forallb (fun c => (c =? 46)%N) (firstn (dot - start) (skipn start p))
           then p
           else firstn dot p
  end.

(** [filename.rsplit('.', 1)[1]] when there is a dot in [filename]. *)
Definition extension (filename : str) : option str :=
  match rfind 46%N filename with
  | Some dot => Some (skipn (S dot) filename)
  | None => None
  end.

(** [os.path.join(a, b)] (POSIX) *)
Definition join (a b : str) : str :=
  match b with
  | 47%N :: _ => b
  | _ => match rev a with
         | [] => b
         | 47%N :: _ => a ++ b
         | _ => a ++ lit "/" ++ b
         end
  end.

(** [os.path.basename(p)] (POSIX) *)
Definition basename (p : str) : str :=
  match rfind 47%N p with
  | Some sep => skipn (S sep) p
  | None => p
  end.

End Path.

Section Files.

Context {U : Unicode}.

(** [allowed_file(filename, file_types)] *)
Definition allowed_file (filename : str) (file_types : list str) : bool :=
  match Path.extension filename with
  | Some ext => existsb (str_eqb (str_lower ext)) file_types
  | None => false
  end.

(** [extract_first_name_from_filename] *)
Definition extract_first_name_from_filename (filename : str) : str :=
  let name_part := Path.splitext_root filename in
  let name_part := normalize_NFC name_part in
  let name_part := clean_corrupted_name name_part in
  match Py.split (Py.strip name_part) with
  | w :: _ => str_capitalize w
  | [] => lit "Student"
  end.

End Files.

(** ** The roster table

    A [pandas.DataFrame] as the code uses it: the column labels in order
    and the rows in order, a row giving a cell for a label.  A cell holds
    text, a number (named by what [str()] prints for it), NaN or [None]. *)

Inductive cell :=
| CStr (s : str)
| CNum (repr : str)
| CNaN
| CNone.

Definition row := list (str * cell).

Record DataFrame := {
  columns : list str;
  rows : list row
}.

(** The cell of a row under a label; NaN where the row has none. *)
Fixpoint get (r : row) (label : str) : cell :=
  match r with
  | [] => CNaN
  | (l, v) :: r' => if str_eqb l label then v else get r' label
  end.

(** The row with the cell under [label] replaced (or added). *)
Fixpoint set (r : row) (label : str) (v : cell) : row :=
  match r with
  | [] => [(label, v)]
  | (l, x) :: r' =>
      if str_eqb l label then (l, v) :: r' else (l, x) :: set r' label v
  end.

Definition has_column (df : DataFrame) (label : str) : bool :=
  existsb (str_eqb label) (columns df).

(** [df[label]] for a label of the table: the cells of the column. *)
Definition column (df : DataFrame) (label : str) : list cell :=
  map (fun r => get r label) (rows df).

(** [df[label] = v] for a label that is not one yet. *)
Definition add_column (df : DataFrame) (label : str) (v : cell) : DataFrame :=
  {| columns := columns df ++ [label];
     rows := map (fun r => set r label v) (rows df) |}.

(** [cell == name] for a text [name] *)
Definition cell_is (name : str) (c : cell) : bool :=
  match c with
  | CStr s => str_eqb s name
  | _ => false
  end.

(** [df.loc[df["Full name"] == name, label] = v] *)
Definition assign_where_name (df : DataFrame) (name label : str) (v : cell)
  : DataFrame :=
  {| columns := columns df;
     rows := map (fun r => if cell_is name (get r (lit "Full name"))
                           then set r label v else r)
                 (rows df) |}.

(** The cell [float(score) if score else None] for a score the splitter
    returned: one digit, or digit, point, digit. *)
Section Grade.

Context {U : Unicode}.

Definition digit_char (c : char) : char :=
  match decimal c with Some v => (48 + v)%N | None => c end.

Definition grade_of_score (score : str) : cell :=
  match score with
  | [] => CNone
  | [d] => CNum [digit_char d; 46%N; 48%N]
  | d :: rest => CNum (digit_char d :: 46%N :: map digit_char (skipn 1 rest))
  end.

End Grade.

(** ** Exceptions, results and events *)

(** What can be raised inside the batch; an event's message is [str(e)]. *)
Inductive exn :=
| TypeError_normalize     (* unicodedata.normalize on a cell that is no text *)
| AttributeError_split    (* .split() on a cell that is no text *)
| IndexError_first_word   (* [0] of an empty list of words *)
| KeyError_full_name      (* a roster without the name column *)
| KeyError_result_columns (* the report's columns, asked of no results *)
| KeyError_session        (* the session is not in the registry *)
| Raised (message : str). (* raised by a collaborator *)

Inductive status := success | no_match.

Record MatchResult := {
  file_name : str;
  student_name : str;
  matched_name : option str;
  match_percentage : Z;
  match_status : status;
  score : str;
  comment : str;
  comment_preview : str
}.

Inductive event :=
| Progress (current total : nat) (percentage : Z) (result : MatchResult)
| Error (file : str) (message : exn)
| Complete (total : nat) (csv_filename excel_filename : str)
| FatalError (message : exn)
| Untyped (error : str).
(* [Untyped]: a JSON object with the one key [error] and no [type]. *)

(** The [type] field of an event, where it has one. *)
Definition event_type (e : event) : option str :=
  match e with
  | Progress _ _ _ _ => Some (lit "progress")
  | Error _ _ => Some (lit "error")
  | Complete _ _ _ => Some (lit "complete")
  | FatalError _ => Some (lit "fatal_error")
  | Untyped _ => None
  end.

Inductive artifact :=
| CsvFile (path : str) (table : DataFrame)
| ExcelFile (path : str) (results : list MatchResult).

(** ** The collaborators

    What the generator calls and does not define: each either returns or
    raises.  [chat] is the [try] block of [generate_feedback] (building the
    prompt, the completion call, [enforce_instructions] on its answer): the
    feedback it returns, or the message of what it raised.
    [sub_with_escapes repl s] is [re.sub(r'^[^,]+,', repl, s)] for a
    replacement [repl] with a backslash in it, which [re] reads as a
    template and may refuse. *)
Record World := {
  open_json : str -> exn + str;
  read_csv : str -> exn + DataFrame;
  unpack : str -> exn + (str * list str);
  extract_text : str -> exn + str;
  chat : str -> str -> str + str;
  sub_with_escapes : str -> str -> exn + str;
  to_csv : str -> DataFrame -> option exn;
  open_excel : str -> option exn;
  save_excel : str -> list MatchResult -> option exn;
  session_known : str -> bool;
  rmtree : str -> option exn;
  strftime : str
}.

Definition bind {E A B} (m : E + A) (f : A -> E + B) : E + B :=
  match m with
  | inl e => inl e
  | inr a => f a
  end.

Notation "x <- m ;; k" := (bind m (fun x => k))
  (at level 61, m at next level, right associativity).

(** ** Batch orchestrator *)

Section Orchestrator.

Context {U : Unicode}.
Variable W : World.

(** [generate_feedback]: the extraction call stands before the [try]. *)
Definition generate_feedback (file_path instructions : str) : exn + str :=
  text <- extract_text W file_path ;;
  match chat W instructions text with
  | inr feedback => inr feedback
  | inl message => inr (lit "Error: " ++ message)
  end.

(** A character of the classes [[A-ZÁÉÍÓÚÑ]] and [[a-záéíóúñ]] under
    [re.IGNORECASE], where they are one class: the letter is lowered and
    looked up among [a]..[z], the six accented small letters and the two
    characters [re] adds for [i] and [s] (U+0131, U+017F); U+0130 and U+212A
    lower to [i] and [k]. *)
Definition name_letter (c : char) : bool :=
  Py.ascii_letter c
  || existsb (N.eqb c)
       [193; 201; 205; 211; 218; 209; 225; 233; 237; 243; 250; 241;
        304; 305; 383; 8490]%N.

Fixpoint skip_while (f : char -> bool) (s : str) : str :=
  match s with
  | c :: s' => if f c then skip_while f s' else s
  | [] => []
  end.

(** [re.sub] of the pattern [^[A-ZÁÉÍÓÚÑ][a-záéíóúñ]+\s*,\s*] by the empty
    string, with [re.IGNORECASE]: a leading run of two or more such letters,
    white space, a comma and white space are dropped. *)
Definition strip_salutation (comment : str) : str :=
  match comment with
  | c1 :: c2 :: rest =>
      if name_letter c1 && name_letter c2
      then match Py.lstrip (skip_while name_letter rest) with
           | 44%N :: r => Py.lstrip r
           | _ => comment
           end
      else comment
  | _ => comment
  end.

(** The block under the first [if comment:]. *)
Definition address_by_first_name (first_name comment : str) : str :=
  if is_empty comment then comment
  else
    let comment := strip_salutation comment in
    if Py.startswith (str_lower comment) (str_lower first_name) then comment
    else match comment with
         | c :: rest => first_name ++ lit ", " ++ str_lower [c] ++ rest
         | [] => []
         end.

(** What follows the first comma of [s]. *)
Fixpoint after_comma (s : str) : option str :=
  match s with
  | [] => None
  | c :: s' => if (c =? 44)%N then Some s' else after_comma s'
  end.

(** The block under [if comment:] after a match:
    [re.sub(r'^[^,]+,', f'{correct_first_name},', comment)]. *)
Definition replace_salutation (correct_first_name comment : str) : exn + str :=
  if is_empty comment then inr comment
  else
    let repl := correct_first_name ++ lit "," in
    if existsb (N.eqb 92%N) repl then sub_with_escapes W repl comment
    else match comment with
         | 44%N :: _ => inr comment
         | _ => match after_comma comment with
                | Some rest => inr (repl ++ rest)
                | None => inr comment
                end
         end.

(** [matched_name.split()[0]] *)
Definition first_word (matched_name : cell) : exn + (str * str) :=
  match matched_name with
  | CStr s => match Py.split s with
              | w :: _ => inr (s, w)
              | [] => inl IndexError_first_word
              end
  | _ => inl AttributeError_split
  end.

(** One cell of [df_normalized_names]: NFC of [str(x)] where [x] is not
    missing. *)
Definition nfc_cell (x : cell) : cell :=
  match x with
  | CStr s => CStr (normalize_NFC s)
  | CNum repr => CStr (normalize_NFC repr)
  | CNaN => CNaN
  | CNone => CNone
  end.

(** [df_normalized_names.apply(normalize_name)] *)
Fixpoint apply_normalize_name (names : list cell) : exn + list str :=
  match names with
  | [] => inr []
  | CStr s :: rest =>
      rest' <- apply_normalize_name rest ;; inr (normalize_name s :: rest')
  | _ :: _ => inl TypeError_normalize
  end.

(** [matches.index[0]] of [normalized_names == normalized_filename] *)
Fixpoint first_index (x : str) (l : list str) : option nat :=
  match l with
  | [] => None
  | y :: l' => if str_eqb y x then Some 0%nat
               else option_map S (first_index x l')
  end.

(** The fuzzy loop, [for idx, csv_name in enumerate(df["Full name"])]: its
    variables are [idx] (the loop variable of the enclosing loop over the
    files, assigned here again), [best_score] and [best_match]. *)
Definition fuzzy_state := (nat * Z * option (nat * str))%type.

Fixpoint fuzzy_loop (student_name_from_file : str) (names : list cell)
  (i : nat) (st : fuzzy_state) : exn + fuzzy_state :=
  match names with
  | [] => inr st
  | CStr csv_name :: rest =>
      let '(_, best_score, best_match) := st in
      let similarity_percentage :=
        calculate_match_percentage student_name_from_file csv_name in
      fuzzy_loop student_name_from_file rest (S i)
        (if (best_score <? similarity_percentage)%Z
         then (i, similarity_percentage, Some (i, csv_name))
         else (i, best_score, best_match))
  | _ :: _ => inl TypeError_normalize
  end.

Definition preview (comment : str) : str :=
  if (150 <? length comment)%nat then firstn 150 comment ++ lit "..."
  else comment.

(** [int((idx / total_files) * 100)] *)
Definition percentage_of (idx total_files : nat) : Z :=
  Float.to_int
    (Float.mul (Float.div (Float.of_int (Z.of_nat idx))
                          (Float.of_int (Z.of_nat total_files)))
               (Float.of_int 100)).

(** What one pass of the loop body leaves when nothing is raised. *)
Record Entry := {
  entry_result : MatchResult;
  entry_idx : nat;
  entry_df : DataFrame
}.

Definition record_match (df : DataFrame) (matched_name comment score : str)
  : DataFrame :=
  let df := assign_where_name df matched_name (lit "Feedback comments")
                              (CStr comment) in
  assign_where_name df matched_name (lit "Grade") (grade_of_score score).

(** The [result] dictionary. *)
Definition make_result (fname_clean student_name_from_file score : str)
  (matched_name : option str) (match_percentage : Z) (match_status : status)
  (comment : str) : MatchResult :=
  {| file_name := fname_clean;
     student_name := student_name_from_file;
     matched_name := matched_name;
     match_percentage := match_percentage;
     match_status := match_status;
     score := score;
     comment := comment;
     comment_preview := preview comment |}.

(** [student_name_from_file] *)
Definition student_name_of (fname : str) : str :=
  Py.strip (Path.splitext_root (clean_corrupted_name fname)).

(** The body of the [try] inside the loop over the files, up to the
    [yield]. *)
Definition process_file (instructions temp_dir : str)
  (df_normalized_names : list cell) (df : DataFrame) (idx : nat)
  (fname : str) : exn + Entry :=
  let fname_original := normalize_NFD fname in
  let path := Path.join temp_dir fname_original in
  let fname_clean := clean_corrupted_name fname in
  let student_name_from_file := student_name_of fname in
  let first_name := extract_first_name_from_filename fname in
  full_feedback <- generate_feedback path instructions ;;
  let comment := fst (split_feedback_and_score full_feedback) in
  let score := snd (split_feedback_and_score full_feedback) in
  let comment := address_by_first_name first_name comment in
  let normalized_filename := normalize_name student_name_from_file in
  normalized_names <- apply_normalize_name df_normalized_names ;;
  let result := make_result fname_clean student_name_from_file score in
  match first_index normalized_filename normalized_names with
  | Some i =>
      m <- first_word (nth i (column df (lit "Full name")) CNaN) ;;
      comment <- replace_salutation (snd m) comment ;;
      inr {| entry_result := result (Some (fst m)) 100%Z success comment;
             entry_idx := idx;
             entry_df := record_match df (fst m) comment score |}
  | None =>
      st <- fuzzy_loop student_name_from_file (column df (lit "Full name"))
                       0 (idx, 0%Z, None) ;;
      match snd st with
      | Some (_, csv_name) =>
          if (80 <=? snd (fst st))%Z
          then
            m <- first_word (CStr csv_name) ;;
            comment <- replace_salutation (snd m) comment ;;
            inr {| entry_result :=
                     result (Some (fst m)) (snd (fst st)) success comment;
                   entry_idx := fst (fst st);
                   entry_df := record_match df (fst m) comment score |}
          else
            inr {| entry_result := result None 0%Z no_match comment;
                   entry_idx := fst (fst st);
                   entry_df := df |}
      | None =>
          inr {| entry_result := result None 0%Z no_match comment;
                 entry_idx := fst (fst st);
                 entry_df := df |}
      end
  end.

(** The event of one file: the [yield] at the end of the [try], or the one
    of its [except]. *)
Definition error_event (fname : str) (e : exn) : event :=
  Error (if is_empty fname then lit "Unknown file"
         else clean_corrupted_name fname) e.

Definition progress_event (total_files : nat) (en : Entry) : event :=
  Progress (entry_idx en) total_files
           (percentage_of (entry_idx en) total_files) (entry_result en).

(** [for idx, fname in enumerate(files, 1)]: the events in order, the table
    and the results after the last file. *)
Fixpoint iterate (instructions temp_dir : str) (df_normalized_names : list cell)
  (total_files : nat) (files : list str) (idx : nat) (df : DataFrame)
  (results : list MatchResult) : list event * DataFrame * list MatchResult :=
  match files with
  | [] => ([], df, results)
  | fname :: rest =>
      match process_file instructions temp_dir df_normalized_names df idx fname
      with
      | inr en =>
          let '(evs, df', results') :=
            iterate instructions temp_dir df_normalized_names total_files rest
                    (S idx) (entry_df en) (results ++ [entry_result en]) in
          (progress_event total_files en :: evs, df', results')
      | inl e =>
          let '(evs, df', results') :=
            iterate instructions temp_dir df_normalized_names total_files rest
                    (S idx) df results in
          (error_event fname e :: evs, df', results')
      end
  end.

Definition TASK_CONFIGS : list (str * str) :=
  [ (lit "reading", lit "instructions-reading.json");
    (lit "oral", lit "instructions-oral.json");
    (lit "essay", lit "instructions-essay.json") ].

(** [TASK_CONFIGS.get(task_type)]; the task type is missing when the
    request has none. *)
Definition task_config (task_type : option str) : option str :=
  match task_type with
  | Some t => match find (fun kv => str_eqb (fst kv) t) TASK_CONFIGS with
              | Some kv => Some (snd kv)
              | None => None
              end
  | None => None
  end.

Definition UPLOAD_FOLDER : str := lit "uploads/".

(** What a run leaves: the events in the order yielded, the files written,
    and whether the session's entry was updated.  A file is listed when it
    was written in full: the table by [to_csv], the workbook with its three
    sheets.  What the workbook's writer leaves at its path when its block
    raises is not listed. *)
Record Run := {
  events : list event;
  artifacts : list artifact;
  session_updated : bool
}.

(** What is set up before the loop. *)
Record Setup := {
  instructions : str;
  roster : DataFrame;
  df : DataFrame;
  df_normalized_names : list cell;
  temp_dir : str;
  files : list str
}.

Definition ensure_column (df : DataFrame) (label : str) (v : cell)
  : DataFrame :=
  if has_column df label then df else add_column df label v.

Definition set_up (instructions_file zip_path csv_path : str) : exn + Setup :=
  instructions <- open_json W instructions_file ;;
  roster <- read_csv W csv_path ;;
  if has_column roster (lit "Full name")
  then
    let names := map nfc_cell (column roster (lit "Full name")) in
    let df := ensure_column roster (lit "Feedback comments") (CStr []) in
    let df := ensure_column df (lit "Grade") CNone in
    listing <- unpack W zip_path ;;
    let (temp_dir, entries) := listing in
    let raw_files :=
      filter (fun f => allowed_file f [lit "pdf"; lit "docx"]) entries in
    inr {| instructions := instructions;
           roster := roster;
           df := df;
           df_normalized_names := names;
           temp_dir := temp_dir;
           files := map normalize_NFC raw_files |}
  else inl KeyError_full_name.

(** After the loop: save, update the session, yield [complete], clean up. *)
Definition finalize (session_id csv_path temp_dir : str) (total_files : nat)
  (evs : list event) (df : DataFrame) (results : list MatchResult) : Run :=
  let ts := strftime W in
  let csv_filename := Path.basename csv_path in
  let output_csv :=
    Path.join UPLOAD_FOLDER
      (Path.splitext_root csv_filename ++ lit "_with_feedback_" ++ ts
       ++ lit ".csv") in
  let excel_path :=
    Path.join UPLOAD_FOLDER (lit "bulk_feedback_" ++ ts ++ lit ".xlsx") in
  let fatal e written :=
    {| events := evs ++ [FatalError e];
       artifacts := written;
       session_updated := false |} in
  match to_csv W output_csv df with
  | Some e => fatal e []
  | None =>
      match open_excel W excel_path with
      | Some e => fatal e [CsvFile output_csv df]
      | None =>
          if is_empty results
          then fatal KeyError_result_columns [CsvFile output_csv df]
          else
            match save_excel W excel_path results with
            | Some e => fatal e [CsvFile output_csv df]
            | None =>
                let written :=
                  [CsvFile output_csv df; ExcelFile excel_path results] in
                if session_known W session_id
                then
                  let complete :=
                    Complete total_files (Path.basename output_csv)
                             (Path.basename excel_path) in
                  {| events :=
                       evs ++ complete ::
                       match rmtree W temp_dir with
                       | Some e => [FatalError e]
                       | None => []
                       end;
                     artifacts := written;
                     session_updated := true |}
                else fatal KeyError_session written
            end
      end
  end.

(** [process_bulk_marking], drained to its end. *)
Definition process_bulk_marking (session_id : str) (task_type : option str)
  (zip_path csv_path : str) : Run :=
  match task_config task_type with
  | None =>
      {| events := [Untyped (lit "Invalid task type")];
         artifacts := [];
         session_updated := false |}
  | Some instructions_file =>
      match set_up instructions_file zip_path csv_path with
      | inl e =>
          {| events := [FatalError e];
             artifacts := [];
             session_updated := false |}
      | inr s =>
          let total_files := length (files s) in
          let '(evs, df', results) :=
            iterate (instructions s) (temp_dir s) (df_normalized_names s)
                    total_files (files s) 1 (df s) [] in
          finalize session_id csv_path (temp_dir s) total_files evs df' results
      end
  end.

End Orchestrator.

(** ** Notions for the statements *)

Section Notions.

Context {U : Unicode}.

(** A word: not empty, no white space in it. *)
Definition word (w : str) : Prop :=
  w <> [] /\ Forall (fun c => Py.isspace c = false) w.

(** A token of a canonical name: a non-empty run of [a]..[z]. *)
Definition token (w : str) : Prop :=
  w <> [] /\ Forall (fun c => Py.ascii_lower c = true) w.

(** A canonical name: at most two tokens, one space between them. *)
Definition canonical (s : str) : Prop :=
  exists ts, Forall token ts /\ (length ts <= 2)%nat
             /\ s = Py.join (lit " ") ts.

(** [matches] after one more pair of the given weight. *)
Definition add_weight (matches : Float.float) (tenths : Z) : Float.float :=
  if (tenths =? 10)%Z then Float.add matches (Float.of_int 1)
  else if (tenths =? 9)%Z then Float.add matches Float.lit_0_9
  else matches.

(** The confidence the code computes from the compared pairs. *)
Definition score_pairs (ps : list (str * str)) : Z :=
  Float.to_int
    (Float.mul
       (Float.div (fold_left (fun m p => compare_words m (fst p) (snd p))
                             ps (Float.of_int 0))
                  (Float.of_int 2))
       (Float.of_int 100)).

Definition weight_sum (ps : list (str * str)) : Z :=
  fold_right Z.add 0%Z (map (fun p => pair_weight_tenths (fst p) (snd p)) ps).

(** The code's test in binary64 agrees with the test on integers at every
    pair of lengths up to [bound]. *)
Definition similar_agrees_upto (bound : nat) : bool :=
  forallb (fun m =>
    forallb (fun c =>
      Bool.eqb (Float.leb Float.lit_0_8
                  (Float.div (Float.of_int (Z.of_nat c))
                             (Float.of_int (Z.of_nat m))))
               (4 * m <=? 5 * c)%nat)
      (seq 0 (S m)))
    (seq 1 bound).

(** [l] reads as the literal [p] when case is ignored. *)
Definition ci_equal (p l : str) : Prop :=
  Forall2 (fun a c => ci_letter a c = true) p l.

Definition spaces (ws : str) : Prop :=
  Forall (fun c => Py.isspace c = true) ws.

(** Group 1 in front of [rest]: a digit, with a point and a digit when they
    are there. *)
Definition number (g rest : str) : Prop :=
  (exists d, g = [d] /\ isdecimal d = true
             /\ ~ (exists d2 rest', rest = 46%N :: d2 :: rest'
                                    /\ isdecimal d2 = true))
  \/ (exists d d2, g = [d; 46%N; d2]
                   /\ isdecimal d = true /\ isdecimal d2 = true).

(** The pattern matches at the head of [s], after the character [prev],
    with group 1 = [g]: a word boundary, [score] in any case, white space,
    a colon, white space, the number. *)
Definition score_match (prev : option char) (s g : str) : Prop :=
  word_boundary prev (hd_error s) = true
  /\ exists l ws1 ws2 rest,
       s = l ++ ws1 ++ [58%N] ++ ws2 ++ g ++ rest
       /\ ci_equal (lit "score") l /\ spaces ws1 /\ spaces ws2
       /\ number g rest.

(** The last character of [pre]. *)
Definition prev_char (pre : str) : option char := hd_error (rev pre).



(** [df'] is [df] with nothing changed but cells of the two augmented
    columns: the same rows in the same order, every other cell as it was,
    the same column labels followed by the augmented ones that were added. *)
Definition augmented (l1 l2 : str) (df df' : DataFrame) : Prop :=
  length (rows df') = length (rows df)
  /\ (forall label, label <> l1 -> label <> l2 ->
                    column df' label = column df label)
  /\ exists added, columns df' = columns df ++ added
                   /\ incl added [l1; l2].

(** What C6 says of one match result, against the roster's names. *)
Definition confidence_invariant (r : MatchResult) (full_names : list cell)
  : Prop :=
  (match_percentage r = 100%Z <->
   exists m, matched_name r = Some m
             /\ normalize_name m = normalize_name (student_name r))
  /\ (match_status r = success ->
      exists m, matched_name r = Some m /\ In (CStr m) full_names
        /\ (match_percentage r = 100%Z
            \/ ((80 <= match_percentage r < 100)%Z
                /\ match_percentage r
                   = calculate_match_percentage (student_name r) m)))
  /\ (match_status r = no_match ->
      matched_name r = None /\ match_percentage r = 0%Z
      /\ forall s, In (CStr s) full_names ->
                   (calculate_match_percentage (student_name r) s < 80)%Z).

(** The event a file leaves. *)
Definition event_of_file (fname : str) (e : event) : Prop :=
  (exists current total percentage result,
      e = Progress current total percentage result
      /\ file_name result = clean_corrupted_name fname)
  \/ (exists message, e = error_event fname message).

(** How a run ends after the loop. *)
Definition ending (total : nat) (tail : list event) : Prop :=
  (exists e, tail = [FatalError e])
  \/ (exists a b, tail = [Complete total a b])
  \/ (exists a b e, tail = [Complete total a b; FatalError e]).

(** An event that ends a run before its time: [fatal_error], or the
    untyped error of an unknown task type. *)
Definition fatal (e : event) : bool :=
  match e with
  | FatalError _ | Untyped _ => true
  | _ => false
  end.

End Notions.

(** ** A sample batch

    A roster of four rows, two of them namesakes, and an archive of five
    entries: a file that matches a row exactly, one that matches after the
    fuzzy comparison, one whose text extraction raises, one that matches
    nothing, and one that is no document.  The characters are Latin-1. *)
Module Sample.

#[local] Existing Instance Latin1.db.

(** Two spellings of one name; U+00E1 and U+00FC are a-acute and
    u-diaeresis. *)
Definition Fatima_acute : str := lit "F" ++ [225%N] ++ lit "tima".
Definition Fautima_diaeresis : str := lit "Fa" ++ [252%N] ++ lit "tima".

Definition name_row (name email : string) : row :=
  [ (lit "Full name", CStr (lit name)); (lit "Email", CStr (lit email)) ].

Definition table : DataFrame :=
  {| columns := [lit "Full name"; lit "Email"];
     rows := [ name_row "Ana Diaz" "ana@example.org";
               name_row "Fatima Garcia" "fatima@example.org";
               name_row "Bo Li" "bo@example.org";
               name_row "Ana Diaz" "ana.diaz@example.org" ] |}.

Definition entries : list str :=
  [ lit "Ana Diaz Ruiz.pdf"; lit "Fautima Garcia X.pdf"; lit "bad.pdf";
    lit "Zed Q.docx"; lit "notes.txt" ].

(** The collaborators: every call succeeds, except the extraction of
    [bad.pdf]; [answer] is what the generation call does. *)
Definition world_with (answer : str + str) : World :=
  {| open_json := fun _ => inr (lit "{}");
     read_csv := fun _ => inr table;
     unpack := fun _ => inr (lit "/tmp/batch", entries);
     extract_text := fun path =>
       if str_eqb path (lit "/tmp/batch/bad.pdf")
       then inl (Raised (lit "unreadable"))
       else inr (lit "text of " ++ path);
     chat := fun _ _ => answer;
     sub_with_escapes := fun _ s => inr s;
     to_csv := fun _ _ => None;
     open_excel := fun _ => None;
     save_excel := fun _ _ => None;
     session_known := fun _ => true;
     rmtree := fun _ => None;
     strftime := lit "20250101120000" |}.

Definition world : World := world_with (inr (lit "You did well. Score: 8.5")).

Definition run : Run :=
  process_bulk_marking world (lit "session-1") (Some (lit "essay"))
                       (lit "uploads/batch.zip") (lit "uploads/roster.csv").

(** The same batch when the generation call raises. *)
Definition run_without_service : Run :=
  process_bulk_marking (world_with (inl (lit "service down")))
                       (lit "session-1") (Some (lit "essay"))
                       (lit "uploads/batch.zip") (lit "uploads/roster.csv").

(** The match result of the second file. *)
Definition fautima_result : MatchResult :=
  {| file_name := lit "Fautima Garcia Xpdf";
     student_name := lit "Fautima Garcia Xpdf";
     matched_name := Some (lit "Fatima Garcia");
     match_percentage := 95;
     match_status := success;
     score := lit "8.5";
     comment := lit "Fatima, you did well.";
     comment_preview := lit "Fatima, you did well." |}.

Definition no_setup : Setup :=
  {| instructions := []; roster := table; df := table;
     df_normalized_names := []; temp_dir := []; files := [] |}.

(** What [set_up] returns for the sample batch. *)
Definition setup : Setup :=
  match set_up world (lit "instructions-essay.json")
               (lit "uploads/batch.zip") (lit "uploads/roster.csv") with
  | inr s => s
  | inl _ => no_setup
  end.

(** What the loop body returns for the first file. *)
Definition ana_entry : Entry :=
  match process_file world (instructions setup) (temp_dir setup)
                     (df_normalized_names setup) (df setup) 1
                     (lit "Ana Diaz Ruiz.pdf") with
  | inr en => en
  | inl _ => {| entry_result := fautima_result; entry_idx := 0;
                entry_df := table |}
  end.

(** [current], [total] and [percentage] of a progress event. *)
Definition progress_numbers (e : event) : option (nat * nat * Z) :=
  match e with
  | Progress current total percentage _ => Some (current, total, percentage)
  | _ => None
  end.

Definition comment_of (e : event) : option str :=
  match e with
  | Progress _ _ _ result => Some (comment result)
  | _ => None
  end.

End Sample.

(** ** More of the program: post-processing and text extraction *)

Section PostProcessor.

Context {U : Unicode}.

(** [s.endswith(suffix)] *)
Definition endswith (s suffix : str) : bool :=
  Py.startswith (rev s) (rev suffix).

(** One lower-case ASCII letter of a pattern against a character of the
    text under [re.IGNORECASE]: the character is lowered, and [re] adds
    U+0130 and U+0131 for [i], U+017F for [s] and U+212A for [k]. *)
Definition ci_char (p c : char) : bool :=
  (Py.to_lower_ascii c =? p)%N
  || ((p =? 105)%N && ((c =? 304)%N || (c =? 305)%N))
  || ((p =? 115)%N && (c =? 383)%N)
  || ((p =? 107)%N && (c =? 8490)%N).

(** The literal [word] at the head of [s]: the last character it took
    and what follows. *)
Fixpoint match_word (word s : str) (last : option char)
  : option (option char * str) :=
  match word, s with
  | [], _ => Some (last, s)
  | p :: word', c :: s' =>
      if ci_char p c then match_word word' s' (Some c) else None
  | _ :: _, [] => None
  end.

(** [\bword\b] at the head of [s], after the character [prev]. *)
Definition word_here (word : str) (prev : option char) (s : str) : bool :=
  word_boundary prev (hd_error s)
  && match match_word word s None with
     | Some (last, rest) => word_boundary last (hd_error rest)
     | None => false
     end.

(** [re.sub(rf'\b{word}\b', repl, s, flags=re.IGNORECASE)] for a word and
    a replacement of letters and spaces: the occurrences are taken from the
    left and do not overlap.  [skip] counts the characters of an occurrence
    still to pass. *)
Fixpoint sub_scan (word repl : str) (prev : option char) (skip : nat)
  (s : str) : str :=
  match s with
  | [] => []
  | c :: s' =>
      match skip with
      | S k => sub_scan word repl (Some c) k s'
      | O =>
          if word_here word prev s
          then repl ++ sub_scan word repl (Some c) (length word - 1) s'
          else c :: sub_scan word repl (Some c) 0 s'
      end
  end.

Definition sub_word (word repl s : str) : str := sub_scan word repl None 0 s.

Definition replacements : list (str * str) :=
  [ (lit "commendable", lit "good");
    (lit "excellent", lit "very good");
    (lit "innovative", lit "new");
    (lit "unique", lit "special");
    (lit "fostering", lit "helping");
    (lit "comprehensive", lit "complete");
    (lit "ensure", lit "make sure");
    (lit "showcases", lit "shows");
    (lit "great", lit "good") ].

(** [re.match(r'^\w+,', s)] *)
Definition word_comma (s : str) : bool :=
  match s with
  | c :: _ =>
      isword c && match skip_while isword s with
                  | 44%N :: _ => true
                  | _ => false
                  end
  | [] => false
  end.

(** [enforce_instructions] *)
Definition enforce_instructions (feedback : str) : str :=
  let feedback :=
    fold_left (fun fb wr => sub_word (fst wr) (snd wr) fb)
              replacements feedback in
  let feedback :=
    if negb (Py.startswith feedback (lit "You")) && negb (word_comma feedback)
    then lit "You, " ++ feedback
    else feedback in
  let max_length := 1000%nat in
  if (max_length <? length feedback)%nat
  then firstn max_length feedback ++ lit "..."
  else feedback.

(** The [try] block of [generate_feedback] over the completion call:
    [complete instructions text] is the content of the answer to the prompt
    built from the two, or the message of what was raised. *)
Definition chat_with (complete : str -> str -> str + str)
  (instructions text : str) : str + str :=
  match complete instructions text with
  | inr content => inr (enforce_instructions content)
  | inl message => inl message
  end.

End PostProcessor.

(** [extract_text], over the two readers it calls: [read_pdf path] is what
    [page.extract_text()] gives for each page of the file (there may be none
    for a page), [read_docx path] the text of each paragraph. *)
Section Extraction.

Variable read_pdf : str -> exn + list (option str).
Variable read_docx : str -> exn + list str.

Definition extract_text_with (file_path : str) : exn + str :=
  if endswith file_path (lit ".pdf")
  then
    pages <- read_pdf file_path ;;
    inr (concat (map (fun page => match page with
                                  | Some text => text
                                  | None => []
                                  end) pages))
  else if endswith file_path (lit ".docx")
  then
    paragraphs <- read_docx file_path ;;
    inr (concat (map (fun text => text ++ [10%N]) paragraphs))
  else inr [].

End Extraction.

(** The collaborators of [W] with [extract_text] and the [try] block of
    [generate_feedback] as the program defines them, over the readers and
    the completion call. *)
Definition with_program {U : Unicode} (W : World)
  (read_pdf : str -> exn + list (option str))
  (read_docx : str -> exn + list str)
  (complete : str -> str -> str + str) : World :=
  {| open_json := open_json W;
     read_csv := read_csv W;
     unpack := unpack W;
     extract_text := extract_text_with read_pdf read_docx;
     chat := chat_with complete;
     sub_with_escapes := sub_with_escapes W;
     to_csv := to_csv W;
     open_excel := open_excel W;
     save_excel := save_excel W;
     session_known := session_known W;
     rmtree := rmtree W;
     strftime := strftime W |}.

(** ** Further notions *)

Section MoreNotions.

Context {U : Unicode}.

(** A character [clean_corrupted_name] keeps. *)
Definition name_char (c : char) : Prop :=
  is_letter c = true \/ c = 32%N \/ c = 45%N \/ c = 39%N.

(** A word of ASCII letters. *)
Definition ascii_word (w : str) : Prop :=
  w <> [] /\ Forall (fun c => Py.ascii_letter c = true) w.

(** The match results of the progress events, in their order. *)
Definition progress_results (evs : list event) : list MatchResult :=
  flat_map (fun e => match e with
                     | Progress _ _ _ result => [result]
                     | _ => []
                     end) evs.

(** A comma or a full stop: no white space, no colon, no word character,
    no letter of [score]. *)
Definition stop (x : char) : Prop := x = 44%N \/ x = 46%N.

(** The text of a score: nothing, a digit, or digit, point, digit. *)
Definition score_text (score : str) : Prop :=
  score = []
  \/ (exists d, score = [d] /\ isdecimal d = true)
  \/ (exists d d2, score = [d; 46%N; d2]
                   /\ isdecimal d = true /\ isdecimal d2 = true).

End MoreNotions.

(** ** More samples

    The sample batch over other rosters, and with the program's own
    [extract_text] and [enforce_instructions] in place. *)
Module Sample2.

#[local] Existing Instance Latin1.db.

(** The sample collaborators, reading the roster [t]. *)
Definition world_of_roster (t : DataFrame) : World :=
  {| open_json := open_json Sample.world;
     read_csv := fun _ => inr t;
     unpack := unpack Sample.world;
     extract_text := extract_text Sample.world;
     chat := chat Sample.world;
     sub_with_escapes := sub_with_escapes Sample.world;
     to_csv := to_csv Sample.world;
     open_excel := open_excel Sample.world;
     save_excel := save_excel Sample.world;
     session_known := session_known Sample.world;
     rmtree := rmtree Sample.world;
     strftime := strftime Sample.world |}.

(** A roster whose name column has another label. *)
Definition table_without_names : DataFrame :=
  {| columns := [lit "Name"; lit "Email"];
     rows := [ [ (lit "Name", CStr (lit "Ana Diaz"));
                 (lit "Email", CStr (lit "ana@example.org")) ] ] |}.

(** A roster with a row that has no name. *)
Definition table_with_gap : DataFrame :=
  {| columns := [lit "Full name"; lit "Email"];
     rows := [ Sample.name_row "Ana Diaz" "ana@example.org";
               [ (lit "Full name", CNaN);
                 (lit "Email", CStr (lit "nobody@example.org")) ] ] |}.

Definition run_of_roster (t : DataFrame) : Run :=
  process_bulk_marking (world_of_roster t) (lit "session-1")
                       (Some (lit "essay"))
                       (lit "uploads/batch.zip") (lit "uploads/roster.csv").

(** The sample collaborators, unpacking the archive entries [es]. *)
Definition world_of_entries (es : list str) : World :=
  {| open_json := open_json Sample.world;
     read_csv := read_csv Sample.world;
     unpack := fun _ => inr (lit "/tmp/batch", es);
     extract_text := extract_text Sample.world;
     chat := chat Sample.world;
     sub_with_escapes := sub_with_escapes Sample.world;
     to_csv := to_csv Sample.world;
     open_excel := open_excel Sample.world;
     save_excel := save_excel Sample.world;
     session_known := session_known Sample.world;
     rmtree := rmtree Sample.world;
     strftime := strftime Sample.world |}.

Definition run_of_entries (es : list str) : Run :=
  process_bulk_marking (world_of_entries es) (lit "session-1")
                       (Some (lit "essay"))
                       (lit "uploads/batch.zip") (lit "uploads/roster.csv").

Definition setup_of_entries (es : list str) : Setup :=
  match set_up (world_of_entries es) (lit "instructions-essay.json")
               (lit "uploads/batch.zip") (lit "uploads/roster.csv") with
  | inr s => s
  | inl _ => Sample.no_setup
  end.

(** The results in the workbook of the sample run. *)
Definition report_results : list MatchResult :=
  match artifacts Sample.run with
  | [_; ExcelFile _ results] => results
  | _ => []
  end.

(** Readers that find one page, or one paragraph, in every file, and a
    generation call that answers every prompt alike. *)
Definition read_pdf (path : str) : exn + list (option str) :=
  inr [Some (lit "An essay."); None].

Definition read_docx (path : str) : exn + list str :=
  inr [lit "An essay."].

Definition complete (instructions text : str) : str + str :=
  inr (lit "Great work, an excellent essay. Score: 8").

Definition program_world : World :=
  with_program Sample.world read_pdf read_docx complete.

(** The path of the workbook the sample run writes. *)
Definition excel_path : str :=
  lit "uploads/bulk_feedback_20250101120000.xlsx".

(** What the loop body returns for the second file of the sample batch,
    on the table as set up. *)
Definition fautima_entry : Entry :=
  match process_file Sample.world (instructions Sample.setup)
                     (temp_dir Sample.setup)
                     (map nfc_cell (column (df Sample.setup) (lit "Full name")))
                     (df Sample.setup) 2 (lit "Fautima Garcia X.pdf") with
  | inr en => en
  | inl _ => {| entry_result := Sample.fautima_result; entry_idx := 0;
                entry_df := Sample.table |}
  end.

End Sample2.

(** * Properties *)

(** ** White-space splitting and joining *)

Section SplitJoin.

Lemma split_from_word (w cur s : str) :
  Forall (fun c => Py.isspace c = false) w ->
  Py.split_from cur (w ++ s) = Py.split_from (cur ++ w) s.
Proof.
  revert cur. induction w as [|c w IH]; intros cur Hw; simpl.
  - now rewrite app_nil_r.
  - inversion Hw as [|? ? Hc Hw']; subst. rewrite Hc.
    rewrite IH by assumption. now rewrite <- app_assoc.
Qed.

Lemma is_empty_false {A} (l : list A) : l <> [] -> is_empty l = false.
Proof. destruct l; [congruence | reflexivity]. Qed.

Lemma split_join (ts : list str) :
  Forall word ts -> Py.split (Py.join (lit " ") ts) = ts.
Proof.
  unfold Py.split. induction ts as [|w ts IH]; intros H; [reflexivity|].
  inversion H as [|? ? [Hne Hw] Hts]; subst.
  destruct ts as [|w' ts].
  - simpl. rewrite <- (app_nil_r w) at 1. rewrite split_from_word by assumption.
    simpl. now rewrite is_empty_false.
  - change (Py.join (lit " ") (w :: w' :: ts))
      with (w ++ lit " " ++ Py.join (lit " ") (w' :: ts)).
    rewrite split_from_word by assumption. simpl app at 1.
    change (lit " " ++ Py.join (lit " ") (w' :: ts))
      with (32%N :: Py.join (lit " ") (w' :: ts)).
    simpl Py.split_from at 1. rewrite is_empty_false by assumption.
    f_equal. apply IH. assumption.
Qed.

(** Every part [split] returns is a word made of characters of the text. *)
Lemma split_from_words (P : char -> Prop) (s cur : str) :
  Forall P s -> Forall P cur ->
  Forall (fun c => Py.isspace c = false) cur ->
  Forall (fun w => word w /\ Forall P w) (Py.split_from cur s).
Proof.
  revert cur. induction s as [|c s IH]; intros cur Hs Hcur Hns; simpl.
  - destruct cur as [|a cur]; simpl; constructor; [|constructor].
    split; [split; [discriminate | assumption] | assumption].
  - inversion Hs as [|? ? Hc Hs']; subst.
    destruct (Py.isspace c) eqn:E.
    + destruct cur as [|a cur]; simpl.
      * apply IH; auto.
      * constructor; [|apply IH; auto].
        split; [split; [discriminate | assumption] | assumption].
    + apply IH; auto.
      * apply Forall_app; split; auto.
      * apply Forall_app; split; auto.
Qed.

Lemma split_words (P : char -> Prop) (s : str) :
  Forall P s -> Forall (fun w => word w /\ Forall P w) (Py.split s).
Proof. intros H. apply split_from_words; auto. Qed.

Lemma lstrip_head (c : char) (s : str) :
  Py.isspace c = false -> Py.lstrip (c :: s) = c :: s.
Proof. intros H. simpl. now rewrite H. Qed.

(** A joined list of words has no white space at either end. *)
Lemma join_ends (ts : list str) :
  Forall word ts ->
  Py.join (lit " ") ts = [] \/
  (exists c s, Py.join (lit " ") ts = c :: s /\ Py.isspace c = false) /\
  (exists s c, Py.join (lit " ") ts = s ++ [c] /\ Py.isspace c = false).
Proof.
  induction ts as [|w ts IH]; intros H; [now left|]. right.
  inversion H as [|? ? [Hne Hw] Hts]; subst.
  split.
  - destruct w as [|c w]; [congruence|]. inversion Hw; subst.
    destruct ts; simpl; eauto.
  - destruct ts as [|w' ts].
    + simpl. destruct (exists_last Hne) as [s [c E]]. subst w.
      exists s, c. split; [reflexivity|].
      apply Forall_app in Hw. destruct Hw as [_ Hc]. now inversion Hc.
    + destruct (IH Hts) as [E | [_ [s [c [E Hc]]]]].
      * exfalso. inversion Hts as [|? ? [Hne' _] _]; subst.
        destruct w'; [congruence|]. destruct ts; simpl in E; discriminate.
      * change (Py.join (lit " ") (w :: w' :: ts))
          with (w ++ lit " " ++ Py.join (lit " ") (w' :: ts)).
        rewrite E. exists (w ++ lit " " ++ s), c.
        split; [now rewrite <- !app_assoc | assumption].
Qed.

Lemma strip_join (ts : list str) :
  Forall word ts -> Py.strip (Py.join (lit " ") ts) = Py.join (lit " ") ts.
Proof.
  intros H. destruct (join_ends H) as [E | [[c [s [E Hc]]] [s' [c' [E' Hc']]]]].
  - rewrite E. reflexivity.
  - unfold Py.strip, Py.rstrip.
    assert (L : Py.lstrip (Py.join (lit " ") ts) = Py.join (lit " ") ts).
    { rewrite E. now apply lstrip_head. }
    rewrite L. rewrite E'. rewrite rev_app_distr.
    change (rev [c'] ++ rev s') with (c' :: rev s').
    rewrite lstrip_head by assumption.
    change (c' :: rev s') with (rev [c'] ++ rev s').
    rewrite <- rev_app_distr. apply rev_involutive.
Qed.

End SplitJoin.

(** ** Characters *)

Ltac cmp_step :=
  match goal with
  | |- context [N.leb ?a ?b] => destruct (N.leb_spec a b); try lia; simpl
  | |- context [N.ltb ?a ?b] => destruct (N.ltb_spec a b); try lia; simpl
  | |- context [N.eqb ?a ?b] => destruct (N.eqb_spec a b); try lia; simpl
  end.

Ltac char_facts :=
  unfold Py.isspace, Py.isascii, Py.to_lower_ascii, Py.ascii_letter,
    Py.ascii_digit, Py.ascii_upper, Py.ascii_lower, Py.between in *;
  repeat cmp_step; try reflexivity; try discriminate; try lia.

Lemma ascii_lower_iff (c : char) :
  Py.ascii_lower c = true <-> (97 <= c <= 122)%N.
Proof.
  unfold Py.ascii_lower, Py.between.
  rewrite andb_true_iff, !N.leb_le. reflexivity.
Qed.

Lemma ascii_upper_iff (c : char) :
  Py.ascii_upper c = true <-> (65 <= c <= 90)%N.
Proof.
  unfold Py.ascii_upper, Py.between.
  rewrite andb_true_iff, !N.leb_le. reflexivity.
Qed.

Lemma lower_is_ascii (c : char) : Py.ascii_lower c = true -> Py.isascii c = true.
Proof. rewrite ascii_lower_iff. intros H. char_facts. Qed.

Lemma lower_is_letter (c : char) :
  Py.ascii_lower c = true -> Py.ascii_letter c = true.
Proof. intros H. unfold Py.ascii_letter. rewrite H. apply orb_true_r. Qed.

Lemma lower_not_space (c : char) : Py.ascii_lower c = true -> Py.isspace c = false.
Proof. rewrite ascii_lower_iff. intros H. char_facts. Qed.

Lemma lower_fixed (c : char) : Py.ascii_lower c = true -> Py.to_lower_ascii c = c.
Proof. rewrite ascii_lower_iff. intros H. char_facts. Qed.

Lemma letter_to_lower (c : char) :
  Py.ascii_letter c = true -> Py.ascii_lower (Py.to_lower_ascii c) = true.
Proof.
  unfold Py.ascii_letter. rewrite orb_true_iff, ascii_upper_iff, !ascii_lower_iff.
  intros H. unfold Py.to_lower_ascii.
  destruct (Py.ascii_upper c) eqn:E.
  - apply ascii_upper_iff in E. lia.
  - destruct H as [H|H]; [|lia].
    apply ascii_upper_iff in H. congruence.
Qed.

Lemma ascii_space_to_lower (c : char) :
  Py.isascii c = true -> Py.isspace c = true -> Py.to_lower_ascii c = c.
Proof.
  intros Ha Hs. unfold Py.to_lower_ascii.
  destruct (Py.ascii_upper c) eqn:E; [|reflexivity].
  apply ascii_upper_iff in E. exfalso. revert Hs. char_facts.
Qed.

Lemma filter_all {A} (f : A -> bool) (l : list A) :
  Forall (fun x => f x = true) l -> filter f l = l.
Proof.
  induction 1 as [|x l Hx _ IH]; simpl; [reflexivity|].
  now rewrite Hx, IH.
Qed.

Lemma lstrip_Forall (P : char -> Prop) (s : str) :
  Forall P s -> Forall P (Py.lstrip s).
Proof.
  induction 1 as [|c s Hc Hs IH]; simpl; [constructor|].
  destruct (Py.isspace c); [assumption | now constructor].
Qed.

Lemma strip_Forall (P : char -> Prop) (s : str) :
  Forall P s -> Forall P (Py.strip s).
Proof.
  intros H. unfold Py.strip, Py.rstrip.
  apply Forall_rev, lstrip_Forall, Forall_rev, lstrip_Forall, H.
Qed.

Lemma join_Forall (P : char -> Prop) (ts : list str) :
  P 32%N -> Forall (Forall P) ts -> Forall P (Py.join (lit " ") ts).
Proof.
  intros Hsp. induction 1 as [|w ts Hw Hts IH]; simpl; [constructor|].
  destruct ts as [|w' ts]; [assumption|].
  apply Forall_app. split; [assumption|].
  change (lit " ") with [32%N]. simpl. constructor; assumption.
Qed.

Lemma Forall_firstn_of {A} (P : A -> Prop) (n : nat) (l : list A) :
  Forall P l -> Forall P (firstn n l).
Proof.
  revert n. induction l as [|x l IH]; intros [|n] H; simpl; auto.
  inversion H; subst. constructor; auto.
Qed.

(** ** The canonical form of a name *)

Section Canonical.

Context {U : Unicode}.

Lemma token_word (w : str) : token w -> word w.
Proof.
  intros [Hne Hw]. split; [assumption|].
  eapply Forall_impl; [|exact Hw]. apply lower_not_space.
Qed.

Lemma tokens_words (ts : list str) : Forall token ts -> Forall word ts.
Proof. apply Forall_impl, token_word. Qed.

(** What the two filters of [normalize_name] leave. *)
Lemma filtered_chars (name : str) :
  Forall (fun c => Py.isascii c = true
                   /\ (Py.ascii_letter c = true \/ Py.isspace c = true))
         (filter (fun c => isalnum c || Py.isspace c)
                 (remove_accents_and_corruption name)).
Proof.
  apply Forall_forall. intros c Hc.
  apply filter_In in Hc. destruct Hc as [Hc _].
  unfold remove_accents_and_corruption in Hc.
  apply filter_In in Hc. destruct Hc as [_ Hc].
  unfold isalpha in Hc. destruct (Py.isascii c); [|discriminate].
  split; [reflexivity|]. now apply orb_true_iff.
Qed.

Lemma normalize_name_tokens (name : str) :
  exists ts, Forall token ts /\ (length ts <= 2)%nat
             /\ normalize_name name = Py.join (lit " ") ts
             /\ Py.split (normalize_name name) = ts.
Proof.
  unfold normalize_name.
  set (a := filter _ (remove_accents_and_corruption name)).
  set (ts := firstn 2 (Py.split (str_lower (Py.strip a)))).
  assert (Hts : Forall token ts).
  { subst ts. apply Forall_firstn_of.
    assert (Ha : Forall (fun c => Py.isascii c = true
                 /\ (Py.ascii_letter c = true \/ Py.isspace c = true))
                 (Py.strip a)).
    { apply strip_Forall. subst a. apply filtered_chars. }
    rewrite lower_ascii.
    2:{ apply forallb_forall. intros c Hc.
        rewrite Forall_forall in Ha. now apply Ha. }
    assert (Hl : Forall (fun c => Py.ascii_lower c = true \/ Py.isspace c = true)
                        (map Py.to_lower_ascii (Py.strip a))).
    { apply Forall_map. eapply Forall_impl; [|exact Ha].
      intros c [Hasc [Hl|Hs]].
      - left. now apply letter_to_lower.
      - right. now rewrite ascii_space_to_lower. }
    eapply Forall_impl; [|apply (split_words Hl)].
    intros w [[Hne Hns] Hw]. split; [assumption|].
    rewrite Forall_forall in *. intros c Hc.
    destruct (Hw c Hc) as [H|H]; [assumption|].
    rewrite (Hns c Hc) in H. discriminate. }
  exists ts. repeat split.
  - assumption.
  - subst ts. rewrite length_firstn. lia.
  - apply split_join. now apply tokens_words.
Qed.

Lemma normalize_name_canonical (name : str) : canonical (normalize_name name).
Proof.
  destruct (normalize_name_tokens name) as [ts [H1 [H2 [H3 _]]]].
  exists ts. auto.
Qed.

Lemma canonical_chars (ts : list str) :
  Forall token ts ->
  Forall (fun c => Py.ascii_lower c = true \/ c = 32%N)
         (Py.join (lit " ") ts).
Proof.
  intros H. apply join_Forall; [now right|].
  eapply Forall_impl; [|exact H]. intros w [_ Hw].
  eapply Forall_impl; [|exact Hw]. now left.
Qed.

(** A canonical name is a fixed point of [normalize_name]. *)
Lemma normalize_name_fixed (s : str) : canonical s -> normalize_name s = s.
Proof.
  intros [ts [Hts [Hlen E]]]. subst s.
  pose proof (canonical_chars Hts) as Hc.
  assert (Hascii : forallb Py.isascii (Py.join (lit " ") ts) = true).
  { apply forallb_forall. rewrite Forall_forall in Hc. intros c Hin.
    destruct (Hc c Hin) as [H|H]; [now apply lower_is_ascii | now subst]. }
  unfold normalize_name, remove_accents_and_corruption.
  rewrite NFD_ascii by assumption.
  set (j := Py.join (lit " ") ts) in *.
  assert (F1 : filter (fun c => if Py.isascii c
                                then isalpha c || Py.isspace c else false) j
               = j).
  { apply filter_all. eapply Forall_impl; [|exact Hc]. intros c [H|H].
    - unfold isalpha.
      rewrite (lower_is_ascii _ H), (lower_is_letter _ H). reflexivity.
    - subst. reflexivity. }
  rewrite F1.
  assert (F2 : filter (fun c => isalnum c || Py.isspace c) j = j).
  { apply filter_all. eapply Forall_impl; [|exact Hc]. intros c [H|H].
    - unfold isalnum.
      rewrite (lower_is_ascii _ H), (lower_is_letter _ H). reflexivity.
    - subst. reflexivity. }
  rewrite F2. subst j.
  rewrite strip_join by now apply tokens_words.
  rewrite lower_ascii by assumption.
  assert (Hid : map Py.to_lower_ascii (Py.join (lit " ") ts)
                = Py.join (lit " ") ts).
  { rewrite <- (map_id (Py.join (lit " ") ts)) at 2.
    apply map_ext_in. intros c Hin. rewrite Forall_forall in Hc.
    destruct (Hc c Hin) as [H|H]; [now apply lower_fixed | now subst]. }
  rewrite Hid, split_join by now apply tokens_words.
  now rewrite firstn_all2.
Qed.

End Canonical.

(** ** The fuzzy matcher *)

Section MatcherFacts.

Context {U : Unicode}.

Lemma str_eqb_eq (a b : str) : str_eqb a b = true <-> a = b.
Proof.
  unfold str_eqb. destruct (list_eq_dec N.eq_dec a b); split; congruence.
Qed.

Lemma str_eqb_neq (a b : str) : str_eqb a b = false <-> a <> b.
Proof.
  unfold str_eqb. destruct (list_eq_dec N.eq_dec a b); split; congruence.
Qed.

Lemma str_eqb_refl (a : str) : str_eqb a a = true.
Proof. now apply str_eqb_eq. Qed.

Lemma pair_weight_values (w1 w2 : str) :
  (pair_weight_tenths w1 w2 = 10 /\ w1 = w2)%Z
  \/ (pair_weight_tenths w1 w2 = 9 /\ w1 <> w2)%Z
  \/ (pair_weight_tenths w1 w2 = 0 /\ w1 <> w2)%Z.
Proof.
  unfold pair_weight_tenths. destruct (str_eqb w1 w2) eqn:E.
  - left. split; [reflexivity | now apply str_eqb_eq].
  - apply str_eqb_neq in E. right.
    destruct (_ && _ && _); [left | right]; now split.
Qed.

Lemma compare_words_weight (m : Float.float) (w1 w2 : str) :
  compare_words m w1 w2 = add_weight m (pair_weight_tenths w1 w2).
Proof.
  unfold compare_words, pair_weight_tenths, add_weight.
  destruct (str_eqb w1 w2); [reflexivity|].
  destruct (3 <=? length w1)%nat, (3 <=? length w2)%nat; simpl;
    try reflexivity.
  destruct (similar w1 w2); reflexivity.
Qed.

(** Accumulating in binary64, halving, scaling and truncating gives the
    exact value: five times the weight sum in tenths. *)
Lemma score_pairs_exact (ps : list (str * str)) :
  (length ps <= 2)%nat -> score_pairs ps = (5 * weight_sum ps)%Z.
Proof.
  intros Hlen. unfold score_pairs, weight_sum.
  destruct ps as [|[a b] [|[c d] [|? ?]]]; simpl in Hlen; try lia; simpl.
  - vm_compute. reflexivity.
  - rewrite compare_words_weight.
    destruct (pair_weight_values a b) as [[E _]|[[E _]|[E _]]];
      rewrite E; vm_compute; reflexivity.
  - rewrite !compare_words_weight.
    destruct (pair_weight_values a b) as [[E _]|[[E _]|[E _]]];
    destruct (pair_weight_values c d) as [[E' _]|[[E' _]|[E' _]]];
      rewrite E, E'; vm_compute; reflexivity.
Qed.

Lemma calculate_unfold (name1 name2 : str) :
  calculate_match_percentage name1 name2 =
  if str_eqb (normalize_name name1) (normalize_name name2) then 100%Z
  else if is_empty (Py.split (normalize_name name1))
          || is_empty (Py.split (normalize_name name2)) then 0%Z
  else score_pairs (firstn 2 (combine (Py.split (normalize_name name1))
                                      (Py.split (normalize_name name2)))).
Proof. reflexivity. Qed.

Lemma calculate_equal (name1 name2 : str) :
  normalize_name name1 = normalize_name name2 ->
  calculate_match_percentage name1 name2 = 100%Z.
Proof.
  intros E. rewrite calculate_unfold.
  apply str_eqb_eq in E. now rewrite E.
Qed.

(** Two names with different canonical forms score 0, 45, 50, 90 or 95. *)
Lemma calculate_differ (name1 name2 : str) :
  normalize_name name1 <> normalize_name name2 ->
  In (calculate_match_percentage name1 name2) [0; 45; 50; 90; 95]%Z.
Proof.
  intros Hne. rewrite calculate_unfold.
  pose proof Hne as Hb. apply str_eqb_neq in Hb. rewrite Hb.
  destruct (normalize_name_tokens name1) as [t1 [_ [L1 [J1 S1]]]].
  destruct (normalize_name_tokens name2) as [t2 [_ [L2 [J2 S2]]]].
  rewrite S1, S2. rewrite J1, J2 in Hne.
  destruct t1 as [|a [|b [|? ?]]]; simpl in L1; try lia;
    [simpl; auto|..];
  (destruct t2 as [|c [|d [|? ?]]]; simpl in L2; try lia;
    [simpl; auto|..]);
  simpl is_empty; simpl orb; cbv iota;
  rewrite score_pairs_exact by (simpl; lia);
  unfold weight_sum; simpl map; simpl fold_right.
  - destruct (pair_weight_values a c) as [[E _]|[[E _]|[E _]]];
      rewrite E; simpl; auto 7.
  - destruct (pair_weight_values a c) as [[E _]|[[E _]|[E _]]];
      rewrite E; simpl; auto 7.
  - destruct (pair_weight_values a c) as [[E _]|[[E _]|[E _]]];
      rewrite E; simpl; auto 7.
  - destruct (pair_weight_values a c) as [[E H]|[[E _]|[E _]]];
    destruct (pair_weight_values b d) as [[E' H']|[[E' _]|[E' _]]];
      rewrite E, E'; simpl; auto 7.
    subst. now elim Hne.
Qed.

Lemma common_chars_le (w1 w2 : str) : (common_chars w1 w2 <= length w1)%nat.
Proof.
  unfold common_chars. induction w1 as [|c w1 IH]; simpl; [lia|].
  destruct (existsb (N.eqb c) w2); simpl; lia.
Qed.

Lemma similar_agrees_200 : similar_agrees_upto 200 = true.
Proof. vm_compute. reflexivity. Qed.

Lemma similar_agrees_spec (bound m c : nat) :
  similar_agrees_upto bound = true ->
  (1 <= m <= bound)%nat -> (c <= m)%nat ->
  Float.leb Float.lit_0_8
    (Float.div (Float.of_int (Z.of_nat c)) (Float.of_int (Z.of_nat m)))
  = (4 * m <=? 5 * c)%nat.
Proof.
  unfold similar_agrees_upto. intros H Hm Hc.
  rewrite forallb_forall in H.
  assert (Hin : In m (seq 1 bound)) by (apply in_seq; lia).
  specialize (H m Hin). rewrite forallb_forall in H.
  assert (Hin' : In c (seq 0 (S m))) by (apply in_seq; lia).
  specialize (H c Hin'). now apply Bool.eqb_prop in H.
Qed.

(** On tokens of up to 200 characters the binary64 test is the test on
    integers. *)
Lemma similar_exact (w1 w2 : str) :
  (1 <= Nat.max (length w1) (length w2) <= 200)%nat ->
  similar w1 w2 = four_fifths_of_longer w1 w2.
Proof.
  intros Hm. unfold similar, similarity, four_fifths_of_longer.
  apply (similar_agrees_spec similar_agrees_200 Hm).
  pose proof (common_chars_le w1 w2). lia.
Qed.

Lemma pair_weight_partial (w1 w2 : str) :
  w1 <> w2 ->
  pair_weight_tenths w1 w2 =
  if (3 <=? length w1)%nat && (3 <=? length w2)%nat && similar w1 w2
  then 9%Z else 0%Z.
Proof.
  intros H. apply str_eqb_neq in H. unfold pair_weight_tenths.
  now rewrite H.
Qed.

Lemma confidence_with_unfold (weight : str -> str -> Z) (name1 name2 : str) :
  confidence_with weight name1 name2 =
  if str_eqb (normalize_name name1) (normalize_name name2) then 100%Z
  else if is_empty (Py.split (normalize_name name1))
          || is_empty (Py.split (normalize_name name2)) then 0%Z
  else (fold_right Z.add 0%Z
          (map (fun p => weight (fst p) (snd p))
               (firstn 2 (combine (Py.split (normalize_name name1))
                                  (Py.split (normalize_name name2)))))
        * 100 / (2 * 10))%Z.
Proof. reflexivity. Qed.

(** C1, as amended: each compared pair adds its weight (1 on equality, 0.9
    for a partial match, nothing otherwise); a pair of different tokens is
    a partial match exactly when both have length at least 3 and the
    number of candidate-token characters found in the roster token,
    divided by the length of the LONGER token, is at least 0.8 (the
    binary64 quotient and comparison, which on tokens of up to 200
    characters are the exact ones); the confidence is the sum of the
    weights over the divisor 2, as a percentage, truncated. *)
Theorem calculate_match_percentage_formula :
  (forall matches w1 w2,
      compare_words matches w1 w2
      = add_weight matches (pair_weight_tenths w1 w2))
  /\ (forall w1 w2, w1 <> w2 ->
        (pair_weight_tenths w1 w2 = 9%Z <->
         (3 <= length w1)%nat /\ (3 <= length w2)%nat
         /\ similar w1 w2 = true)
        /\ (pair_weight_tenths w1 w2 = 9 \/ pair_weight_tenths w1 w2 = 0)%Z)
  /\ (forall w1 w2,
        (3 <= length w1 <= 200)%nat -> (3 <= length w2 <= 200)%nat ->
        (similar w1 w2 = true <->
         (4 * Nat.max (length w1) (length w2) <= 5 * common_chars w1 w2)%nat))
  /\ (forall name1 name2,
        calculate_match_percentage name1 name2
        = confidence_with pair_weight_tenths name1 name2).
Proof.
  split; [exact compare_words_weight|]. split; [|split].
  - intros w1 w2 Hne. rewrite (pair_weight_partial Hne). split.
    + split.
      * intros H.
        destruct (3 <=? length w1)%nat eqn:E1;
          destruct (3 <=? length w2)%nat eqn:E2;
          destruct (similar w1 w2) eqn:E3; simpl in H; try discriminate.
        apply Nat.leb_le in E1, E2. auto.
      * intros [H1 [H2 H3]]. apply Nat.leb_le in H1, H2.
        rewrite H1, H2, H3. reflexivity.
    + destruct (_ && _ && _); auto.
  - intros w1 w2 H1 H2. rewrite similar_exact by lia.
    unfold four_fifths_of_longer. apply Nat.leb_le.
  - intros name1 name2.
    rewrite calculate_unfold, confidence_with_unfold.
    destruct (str_eqb _ _); [reflexivity|].
    destruct (_ || _); [reflexivity|].
    rewrite score_pairs_exact by apply firstn_le_length.
    unfold weight_sum.
    set (x := fold_right Z.add 0%Z _).
    replace (x * 100)%Z with ((5 * x) * (2 * 10))%Z by lia.
    now rewrite Z.div_mul.
Qed.

End MatcherFacts.

(** ** The score splitter *)

Section ScoreFacts.

Context {U : Unicode}.

Lemma match_literal_sound (p s r : str) :
  match_literal p s = Some r -> exists l, s = l ++ r /\ ci_equal p l.
Proof.
  revert s. induction p as [|a p IH]; intros s H; simpl in H.
  - inversion H; subst. exists []. split; [reflexivity | constructor].
  - destruct s as [|c s]; [discriminate|].
    destruct (ci_letter a c) eqn:E; [|discriminate].
    destruct (IH _ H) as [l [Hs Hl]]. exists (c :: l). subst.
    split; [reflexivity | now constructor].
Qed.

Lemma match_literal_complete (p l r : str) :
  ci_equal p l -> match_literal p (l ++ r) = Some r.
Proof.
  induction 1 as [|a c p l Hac _ IH]; simpl.
  - now destruct r.
  - now rewrite Hac.
Qed.

Lemma lstrip_spaces (ws r : str) :
  spaces ws -> Py.lstrip (ws ++ r) = Py.lstrip r.
Proof.
  induction 1 as [|c ws Hc _ IH]; simpl; [reflexivity|]. now rewrite Hc.
Qed.

Lemma lstrip_decompose (s : str) :
  exists ws, s = ws ++ Py.lstrip s /\ spaces ws.
Proof.
  induction s as [|c s [ws [E Hws]]]; simpl.
  - exists []. split; [reflexivity | constructor].
  - destruct (Py.isspace c) eqn:Hc.
    + exists (c :: ws). split; [simpl; congruence | now constructor].
    + exists []. split; [reflexivity | constructor].
Qed.

Lemma isdecimal_not_space (d : char) :
  isdecimal d = true -> Py.isspace d = false.
Proof.
  unfold isdecimal, decimal. destruct (Py.isascii d) eqn:Ha.
  - destruct (Py.ascii_digit d) eqn:Hd; [|discriminate]. intros _.
    unfold Py.ascii_digit, Py.between in Hd.
    apply andb_true_iff in Hd. destruct Hd as [H1 H2].
    apply N.leb_le in H1, H2. char_facts.
  - intros H. apply decimal_not_space.
    destruct (wide_decimal d); [discriminate | discriminate].
Qed.

Lemma match_number_sound (s g : str) :
  match_number s = Some g -> exists rest, s = g ++ rest /\ number g rest.
Proof.
  unfold match_number. destruct s as [|d rest]; [discriminate|].
  destruct (isdecimal d) eqn:Hd; [|discriminate].
  destruct rest as [|dot [|d2 rest']].
  - intros H; inversion H; subst. exists []. split; [reflexivity|].
    left. exists d. repeat split; auto. intros [? [? [? _]]]. discriminate.
  - intros H; inversion H; subst. exists [dot]. split; [reflexivity|].
    left. exists d. repeat split; auto. intros [? [? [? _]]]. discriminate.
  - destruct ((dot =? 46)%N && isdecimal d2) eqn:E; intros H; inversion H; subst.
    + apply andb_true_iff in E. destruct E as [E1 E2].
      apply N.eqb_eq in E1. subst. exists rest'. split; [reflexivity|].
      right. exists d, d2. auto.
    + exists (dot :: d2 :: rest'). split; [reflexivity|].
      left. exists d. repeat split; auto.
      intros [x [r [Hx Hx']]]. inversion Hx; subst.
      rewrite N.eqb_refl, Hx' in E. discriminate.
Qed.

Lemma match_number_complete (g rest : str) :
  number g rest -> match_number (g ++ rest) = Some g.
Proof.
  intros [[d [E [Hd Hn]]] | [d [d2 [E [Hd Hd2]]]]]; subst; simpl; rewrite Hd.
  - destruct rest as [|dot [|d2 rest']]; try reflexivity.
    destruct ((dot =? 46)%N && isdecimal d2) eqn:E; [|reflexivity].
    apply andb_true_iff in E. destruct E as [E1 E2].
    apply N.eqb_eq in E1. subst. elim Hn. eauto.
  - now rewrite Hd2.
Qed.

Lemma number_head (g rest : str) :
  number g rest -> exists d g', g = d :: g' /\ Py.isspace d = false.
Proof.
  intros [[d [E [Hd _]]] | [d [d2 [E [Hd _]]]]]; subst;
    eauto using isdecimal_not_space.
Qed.

Lemma match_at_sound (prev : option char) (s g : str) :
  match_at prev s = Some g -> score_match prev s g.
Proof.
  unfold match_at, score_match.
  destruct (word_boundary prev (hd_error s)); [|discriminate].
  destruct (match_literal (lit "score") s) as [r|] eqn:Hl; [|discriminate].
  destruct (match_literal_sound _ _ Hl) as [l [Es Hci]].
  destruct (lstrip_decompose r) as [ws1 [Er H1]].
  destruct (Py.lstrip r) as [|c r'] eqn:Hr; [discriminate|].
  destruct (c =? 58)%N eqn:Hc; [|discriminate]. apply N.eqb_eq in Hc. subst c.
  intros Hn. destruct (lstrip_decompose r') as [ws2 [Er' H2]].
  destruct (match_number_sound _ Hn) as [rest [Eg Hnum]].
  split; [reflexivity|]. exists l, ws1, ws2, rest.
  repeat split; auto. rewrite Es, Er, Er', Eg. reflexivity.
Qed.

Lemma match_at_complete (prev : option char) (s g : str) :
  score_match prev s g -> match_at prev s = Some g.
Proof.
  intros [Hb [l [ws1 [ws2 [rest [Es [Hci [H1 [H2 Hnum]]]]]]]]].
  unfold match_at. rewrite Hb. subst s.
  rewrite (match_literal_complete _ Hci).
  rewrite (lstrip_spaces _ H1). simpl.
  rewrite (lstrip_spaces _ H2).
  destruct (number_head Hnum) as [d [g' [Eg Hd]]].
  assert (E : Py.lstrip (g ++ rest) = g ++ rest).
  { subst g. simpl. now rewrite Hd. }
  rewrite E. now apply match_number_complete.
Qed.

Lemma prev_char_snoc (pre : str) (c : char) : prev_char (pre ++ [c]) = Some c.
Proof. unfold prev_char. rewrite rev_app_distr. reflexivity. Qed.

(** [search] from the end of [before]: group 1 of the first match. *)
Lemma search_sound (s : str) :
  forall prev before b g,
    prev = prev_char before ->
    search prev before s = Some (b, g) ->
    exists pre s', s = pre ++ s' /\ b = before ++ pre
      /\ score_match (prev_char b) s' g
      /\ forall pre1 s1 g1,
           s = pre1 ++ s1 -> (length pre1 < length pre)%nat ->
           ~ score_match (prev_char (before ++ pre1)) s1 g1.
Proof.
  assert (Hhere : forall prev before s b g g0,
             prev = prev_char before -> match_at prev s = Some g0 ->
             Some (before, g0) = Some (b, g) ->
             exists pre s', s = pre ++ s' /\ b = before ++ pre
               /\ score_match (prev_char b) s' g
               /\ forall pre1 s1 g1,
                    s = pre1 ++ s1 -> (length pre1 < length pre)%nat ->
                    ~ score_match (prev_char (before ++ pre1)) s1 g1).
  { intros prev before s0 b g g0 Hp E H. inversion H; subst.
    exists [], s0. rewrite app_nil_r. split; [reflexivity|].
    split; [reflexivity|]. split; [now apply match_at_sound|].
    simpl. intros; lia. }
  induction s as [|c s IH]; intros prev before b g Hp H; simpl in H.
  - destruct (match_at prev []) as [g0|] eqn:E; [|discriminate].
    eapply Hhere; eauto.
  - destruct (match_at prev (c :: s)) as [g0|] eqn:E.
    + eapply Hhere; eauto.
    + destruct (IH (Some c) (before ++ [c]) b g
                  (eq_sym (prev_char_snoc before c)) H)
        as [pre [s' [Es [Eb [Hm Hmin]]]]].
      exists (c :: pre), s'. subst s b. rewrite <- app_assoc in *.
      split; [reflexivity|]. split; [reflexivity|]. split; [exact Hm|].
      intros pre1 s1 g1 E1 Hlen.
      destruct pre1 as [|c1 pre1].
      * simpl in E1. subst s1. rewrite app_nil_r. intros Hc.
        apply match_at_complete in Hc. congruence.
      * simpl in E1. inversion E1; subst c1.
        specialize (Hmin pre1 s1 g1 H2). simpl in Hlen.
        rewrite <- app_assoc in Hmin. apply Hmin. lia.
Qed.



End ScoreFacts.

(** ** The roster table *)

Section TableFacts.

Context {U : Unicode}.

Lemma get_set_same (r : row) (label : str) (v : cell) :
  get (set r label v) label = v.
Proof.
  induction r as [|[l x] r IH]; simpl.
  - now rewrite str_eqb_refl.
  - destruct (str_eqb l label) eqn:E; simpl; now rewrite E.
Qed.

Lemma get_set_other (r : row) (label label' : str) (v : cell) :
  label' <> label -> get (set r label v) label' = get r label'.
Proof.
  intros Hne. induction r as [|[l x] r IH]; simpl.
  - apply not_eq_sym in Hne. apply str_eqb_neq in Hne. now rewrite Hne.
  - destruct (str_eqb l label) eqn:E; simpl.
    + apply str_eqb_eq in E. subst l.
      apply not_eq_sym in Hne. apply str_eqb_neq in Hne. now rewrite Hne.
    + destruct (str_eqb l label'); [reflexivity | exact IH].
Qed.

Lemma augmented_refl (l1 l2 : str) (df : DataFrame) : augmented l1 l2 df df.
Proof.
  repeat split; auto. exists []. rewrite app_nil_r. split; [reflexivity|].
  intros x [].
Qed.

Lemma augmented_trans (l1 l2 : str) (a b c : DataFrame) :
  augmented l1 l2 a b -> augmented l1 l2 b c -> augmented l1 l2 a c.
Proof.
  intros [L1 [C1 [x [E1 I1]]]] [L2 [C2 [y [E2 I2]]]]. repeat split.
  - congruence.
  - intros label H1 H2. rewrite C2, C1; auto.
  - exists (x ++ y). rewrite E2, E1, app_assoc. split; [reflexivity|].
    now apply incl_app.
Qed.

Lemma column_assign_other (df : DataFrame) (name label label' : str) (v : cell) :
  label' <> label ->
  column (assign_where_name df name label v) label' = column df label'.
Proof.
  intros Hne. unfold column, assign_where_name. simpl.
  rewrite map_map. apply map_ext. intros r.
  destruct (cell_is name (get r (lit "Full name"))); [|reflexivity].
  now apply get_set_other.
Qed.

Lemma augmented_assign (l1 l2 : str) (df : DataFrame) (name label : str)
  (v : cell) :
  label = l1 \/ label = l2 ->
  augmented l1 l2 df (assign_where_name df name label v).
Proof.
  intros Hl. repeat split.
  - unfold assign_where_name. simpl. apply length_map.
  - intros label' H1 H2. apply column_assign_other.
    destruct Hl; congruence.
  - exists []. simpl. rewrite app_nil_r. split; [reflexivity | intros x []].
Qed.

Lemma augmented_record_match (df : DataFrame) (m c s : str) :
  augmented (lit "Feedback comments") (lit "Grade") df (record_match df m c s).
Proof.
  unfold record_match. eapply augmented_trans; apply augmented_assign; auto.
Qed.

Lemma augmented_ensure (l1 l2 : str) (df : DataFrame) (label : str) (v : cell) :
  label = l1 \/ label = l2 -> augmented l1 l2 df (ensure_column df label v).
Proof.
  intros Hl. unfold ensure_column.
  destruct (has_column df label); [apply augmented_refl|].
  repeat split.
  - unfold add_column. simpl. apply length_map.
  - intros label' H1 H2. unfold column, add_column. simpl.
    rewrite map_map. apply map_ext. intros r. apply get_set_other.
    destruct Hl; congruence.
  - exists [label]. split; [reflexivity|].
    intros x [Hx|[]]. subst x. destruct Hl; subst; simpl; auto.
Qed.

Lemma full_name_kept (df df' : DataFrame) :
  augmented (lit "Feedback comments") (lit "Grade") df df' ->
  column df' (lit "Full name") = column df (lit "Full name").
Proof.
  intros [_ [H _]]. apply H; apply str_eqb_neq; reflexivity.
Qed.

(** After [record_match], every row bearing the matched name holds the
    comment and the grade. *)
Lemma record_match_rows (df : DataFrame) (m c s : str) (i : nat) (r : row) :
  nth_error (rows df) i = Some r ->
  get r (lit "Full name") = CStr m ->
  exists r', nth_error (rows (record_match df m c s)) i = Some r'
             /\ get r' (lit "Feedback comments") = CStr c
             /\ get r' (lit "Grade") = grade_of_score s.
Proof.
  intros Hi Hn. unfold record_match, assign_where_name. simpl.
  rewrite map_map.
  eexists. split; [apply map_nth_error; exact Hi|].
  assert (E : cell_is m (get r (lit "Full name")) = true).
  { rewrite Hn. simpl. apply str_eqb_refl. }
  rewrite E.
  assert (E' : cell_is m (get (set r (lit "Feedback comments") (CStr c))
                              (lit "Full name")) = true).
  { rewrite get_set_other; [exact E|]. apply str_eqb_neq. reflexivity. }
  rewrite E'. split.
  - rewrite get_set_other; [apply get_set_same|].
    apply str_eqb_neq. reflexivity.
  - apply get_set_same.
Qed.

End TableFacts.

(** ** The batch *)

Section BatchFacts.

Context {U : Unicode}.
Variable W : World.

Lemma bind_inr {E A B} (m : E + A) (f : A -> E + B) (b : B) :
  bind m f = inr b -> exists a, m = inr a /\ f a = inr b.
Proof. destruct m as [e|a]; simpl; [discriminate | eauto]. Qed.

(** What [process_file] did when it returned: the exact branch, an accepted
    fuzzy match, or no match. *)
Lemma process_file_inv (instr tmp : str) (names : list cell) (df : DataFrame)
  (idx : nat) (fname : str) (en : Entry) :
  process_file W instr tmp names df idx fname = inr en ->
  exists fb nn,
    generate_feedback W (Path.join tmp (normalize_NFD fname)) instr = inr fb
    /\ apply_normalize_name names = inr nn
    /\ let score := snd (split_feedback_and_score fb) in
       let c0 := address_by_first_name
                   (extract_first_name_from_filename fname)
                   (fst (split_feedback_and_score fb)) in
       let result := make_result (clean_corrupted_name fname)
                                 (student_name_of fname) score in
       let target := normalize_name (student_name_of fname) in
       let full_names := column df (lit "Full name") in
       (exists i m c,
           first_index target nn = Some i
           /\ first_word (nth i full_names CNaN) = inr m
           /\ replace_salutation W (snd m) c0 = inr c
           /\ en = {| entry_result := result (Some (fst m)) 100%Z success c;
                      entry_idx := idx;
                      entry_df := record_match df (fst m) c score |})
       \/ (exists st j csv_name m c,
             first_index target nn = None
             /\ fuzzy_loop (student_name_of fname) full_names 0
                           (idx, 0%Z, None) = inr st
             /\ snd st = Some (j, csv_name)
             /\ (80 <= snd (fst st))%Z
             /\ first_word (CStr csv_name) = inr m
             /\ replace_salutation W (snd m) c0 = inr c
             /\ en = {| entry_result :=
                          result (Some (fst m)) (snd (fst st)) success c;
                        entry_idx := fst (fst st);
                        entry_df := record_match df (fst m) c score |})
       \/ (exists st,
             first_index target nn = None
             /\ fuzzy_loop (student_name_of fname) full_names 0
                           (idx, 0%Z, None) = inr st
             /\ (snd st = None \/ (snd (fst st) < 80)%Z)
             /\ en = {| entry_result := result None 0%Z no_match c0;
                        entry_idx := fst (fst st);
                        entry_df := df |}).
Proof.
  unfold process_file. intros H.
  apply bind_inr in H. destruct H as [fb [Hfb H]].
  apply bind_inr in H. destruct H as [nn [Hnn H]].
  exists fb, nn. split; [exact Hfb|]. split; [exact Hnn|]. cbv zeta.
  destruct (first_index _ nn) as [i|].
  - left. apply bind_inr in H. destruct H as [m [Hm H]].
    apply bind_inr in H. destruct H as [c [Hc H]].
    inversion H; subst. exists i, m, c. auto.
  - right. apply bind_inr in H. destruct H as [st [Hst H]].
    destruct (snd st) as [[j csv_name]|] eqn:Hbm.
    + destruct (80 <=? snd (fst st))%Z eqn:H80.
      * left. apply bind_inr in H. destruct H as [m [Hm H]].
        apply bind_inr in H. destruct H as [c [Hc H]].
        inversion H; subst. apply Z.leb_le in H80.
        exists st, j, csv_name, m, c. auto 10.
      * right. inversion H; subst. apply Z.leb_gt in H80.
        exists st. auto.
    + right. inversion H; subst. exists st. auto.
Qed.

(** The fuzzy loop keeps the first best score above the one it starts from,
    and leaves [idx] at the last roster position. *)
Lemma fuzzy_loop_spec (cand : str) (names : list cell) :
  forall i st st',
    fuzzy_loop cand names i st = inr st' ->
    (snd (fst st) <= snd (fst st'))%Z
    /\ (forall s, In (CStr s) names ->
                  (calculate_match_percentage cand s <= snd (fst st'))%Z)
    /\ ((snd st' = snd st /\ snd (fst st') = snd (fst st))
        \/ exists j s, snd st' = Some (j, s) /\ In (CStr s) names
                       /\ snd (fst st') = calculate_match_percentage cand s)
    /\ fst (fst st') = match names with
                       | [] => fst (fst st)
                       | _ :: _ => (i + length names - 1)%nat
                       end.
Proof.
  induction names as [|x names IH]; intros i st st' H; simpl in H.
  - inversion H; subst. repeat split; try lia; auto. intros s [].
  - destruct x as [csv_name| | |]; try discriminate.
    destruct st as [[idx0 b0] m0].
    apply IH in H. destruct H as [H1 [H2 [H3 H4]]].
    set (p := calculate_match_percentage cand csv_name) in *.
    simpl fst in *; simpl snd in *.
    destruct (b0 <? p)%Z eqn:E; simpl fst in *; simpl snd in *;
      [apply Z.ltb_lt in E | apply Z.ltb_ge in E].
    + split; [lia|]. split; [|split].
      * intros s [Hs|Hs]; [inversion Hs; subst; fold p; lia | auto].
      * right. destruct H3 as [[E1 E2] | [j [s [E1 [E2 E3]]]]].
        -- exists i, csv_name. rewrite E1, E2. simpl. auto.
        -- exists j, s. simpl. auto.
      * rewrite H4. destruct names; simpl; lia.
    + split; [lia|]. split; [|split].
      * intros s [Hs|Hs]; [inversion Hs; subst; fold p; lia | auto].
      * destruct H3 as [[E1 E2] | [j [s [E1 [E2 E3]]]]].
        -- left. auto.
        -- right. exists j, s. simpl. auto.
      * rewrite H4. destruct names; simpl; lia.
Qed.

Lemma normalize_name_NFC (s : str) :
  normalize_name (normalize_NFC s) = normalize_name s.
Proof.
  unfold normalize_name, remove_accents_and_corruption.
  now rewrite NFD_NFC.
Qed.

(** The exact lookup, read back on the roster: the row found has the
    candidate's canonical form, and when none is found no text cell has. *)
Lemma first_index_found (col : list cell) :
  forall nn x i s,
    apply_normalize_name (map nfc_cell col) = inr nn ->
    first_index x nn = Some i ->
    nth i col CNaN = CStr s ->
    normalize_name s = x.
Proof.
  induction col as [|c col IH]; intros nn x i s Hnn Hi Hs; simpl in Hnn.
  - inversion Hnn; subst. discriminate.
  - destruct (nfc_cell c) as [s0| | |] eqn:Ec; try discriminate.
    apply bind_inr in Hnn. destruct Hnn as [rest [Hrest Hnn]].
    inversion Hnn; subst nn. simpl in Hi.
    destruct (str_eqb (normalize_name s0) x) eqn:E.
    + inversion Hi; subst i. simpl in Hs. subst c. simpl in Ec.
      inversion Ec; subst s0. rewrite normalize_name_NFC in E.
      now apply str_eqb_eq.
    + destruct (first_index x rest) as [k|] eqn:Ek; [|discriminate].
      simpl in Hi. inversion Hi; subst i. simpl in Hs. eauto.
Qed.

Lemma first_index_none (col : list cell) :
  forall nn x s,
    apply_normalize_name (map nfc_cell col) = inr nn ->
    first_index x nn = None ->
    In (CStr s) col ->
    normalize_name s <> x.
Proof.
  induction col as [|c col IH]; intros nn x s Hnn Hi Hs; simpl in Hnn.
  - destruct Hs.
  - destruct (nfc_cell c) as [s0| | |] eqn:Ec; try discriminate.
    apply bind_inr in Hnn. destruct Hnn as [rest [Hrest Hnn]].
    inversion Hnn; subst nn. simpl in Hi.
    destruct (str_eqb (normalize_name s0) x) eqn:E; [discriminate|].
    destruct (first_index x rest) as [k|] eqn:Ek; [discriminate|].
    destruct Hs as [Hs|Hs].
    + subst c. simpl in Ec. inversion Ec; subst s0.
      rewrite normalize_name_NFC in E. now apply str_eqb_neq.
    + eauto.
Qed.

Lemma first_word_text (c : cell) (m : str * str) :
  first_word c = inr m -> c = CStr (fst m).
Proof.
  destruct c as [s| | |]; simpl; try discriminate.
  destruct (Py.split s); [discriminate|].
  intros H. inversion H. reflexivity.
Qed.

Lemma nth_In_text (col : list cell) (i : nat) (s : str) :
  nth i col CNaN = CStr s -> In (CStr s) col.
Proof.
  intros H. destruct (le_lt_dec (length col) i) as [Hle|Hlt].
  - rewrite nth_overflow in H by assumption. discriminate.
  - rewrite <- H. now apply nth_In.
Qed.

Lemma below_100 (z : Z) : In z [0; 45; 50; 90; 95]%Z -> (z < 100)%Z.
Proof. simpl. intuition lia. Qed.

Lemma process_file_confidence (instr tmp : str) (df : DataFrame) (idx : nat)
  (fname : str) (en : Entry) :
  process_file W instr tmp (map nfc_cell (column df (lit "Full name")))
               df idx fname = inr en ->
  confidence_invariant (entry_result en) (column df (lit "Full name")).
Proof.
  intros H. apply process_file_inv in H.
  destruct H as [fb [nn [_ [Hnn H]]]]. cbv zeta in H.
  destruct H as [[i [m [c [Hi [Hm [_ E]]]]]]
                | [[st [j [csv [m [c [Hi [Hl [Hb [H80 [Hm [_ E]]]]]]]]]]]
                  | [st [Hi [Hl [Hb E]]]]]]; subst en; simpl.
  - apply first_word_text in Hm.
    pose proof (@first_index_found _ _ _ _ _ Hnn Hi Hm) as Hc.
    unfold confidence_invariant; simpl. repeat split.
    + intros _. exists (fst m). auto.
    + intros _. exists (fst m). split; [reflexivity|].
      split; [now apply nth_In_text with i | now left].
    + discriminate.
    + discriminate.
    + discriminate.
  - apply first_word_text in Hm. inversion Hm as [Ecsv].
    destruct (@fuzzy_loop_spec _ _ _ _ _ Hl) as [_ [_ [Hbest _]]].
    simpl in Hbest. rewrite Hb in Hbest.
    destruct Hbest as [[Hx _] | [j' [s [Es [Hin Hbest]]]]]; [discriminate|].
    inversion Es; subst j' s. rewrite Ecsv in *.
    pose proof (@first_index_none _ _ _ _ Hnn Hi Hin) as Hne.
    assert (Hd : normalize_name (student_name_of fname)
                 <> normalize_name (fst m)) by congruence.
    pose proof (@below_100 _ (@calculate_differ _ _ _ Hd)) as Hlt.
    unfold confidence_invariant; simpl. repeat split.
    + intros E. lia.
    + intros [m' [Em Hc]]. inversion Em; subst m'. congruence.
    + intros _. exists (fst m). split; [reflexivity|].
      split; [assumption|]. right. split; [lia | assumption].
    + discriminate.
    + discriminate.
    + discriminate.
  - destruct (@fuzzy_loop_spec _ _ _ _ _ Hl) as [_ [Hall [Hbest _]]].
    simpl in Hbest.
    unfold confidence_invariant; simpl. repeat split.
    + discriminate.
    + intros [m' [Em _]]. discriminate.
    + discriminate.
    + intros s Hs. specialize (Hall s Hs).
      destruct Hb as [Hb|Hb]; [|lia].
      destruct Hbest as [[_ Hx] | [j' [s' [Es _]]]]; [lia | congruence].
Qed.

Lemma process_file_file_name (instr tmp : str) (names : list cell)
  (df : DataFrame) (idx : nat) (fname : str) (en : Entry) :
  process_file W instr tmp names df idx fname = inr en ->
  file_name (entry_result en) = clean_corrupted_name fname
  /\ augmented (lit "Feedback comments") (lit "Grade") df (entry_df en).
Proof.
  intros H. apply process_file_inv in H.
  destruct H as [fb [nn [_ [_ H]]]]. cbv zeta in H.
  destruct H as [[i [m [c [_ [_ [_ E]]]]]]
                | [[st [j [csv [m [c [_ [_ [_ [_ [_ [_ E]]]]]]]]]]]
                  | [st [_ [_ [_ E]]]]]]; subst en; simpl;
    split; auto using augmented_record_match, augmented_refl.
Qed.

(** The loop over the files: one event a file, in order, whatever is
    raised; the table only augmented; each progress event the result of
    [process_file] on a table with the roster's names. *)
Lemma iterate_spec (instr tmp : str) (names : list cell) (total : nat)
  (files : list str) :
  forall idx df results evs df' results',
    iterate W instr tmp names total files idx df results
    = (evs, df', results') ->
    Forall2 event_of_file files evs
    /\ augmented (lit "Feedback comments") (lit "Grade") df df'
    /\ (forall e, In e evs ->
          (exists fname message, In fname files /\ e = error_event fname message)
          \/ exists dfi i fname en,
               In fname files
               /\ column dfi (lit "Full name") = column df (lit "Full name")
               /\ process_file W instr tmp names dfi i fname = inr en
               /\ e = progress_event total en).
Proof.
  induction files as [|fname files IH];
    intros idx df results evs df' results' H; simpl in H.
  - inversion H; subst. split; [constructor|].
    split; [apply augmented_refl|]. intros e [].
  - destruct (process_file W instr tmp names df idx fname) as [e|en] eqn:Hp.
    + destruct (iterate W instr tmp names total files (S idx) df results)
        as [[evs0 df0] res0] eqn:Hi.
      inversion H; subst. apply IH in Hi.
      destruct Hi as [H1 [H2 H3]].
      split; [constructor; [right; eauto | assumption]|].
      split; [assumption|].
      intros e0 [He|He].
      * left. exists fname, e. simpl. auto.
      * destruct (H3 e0 He) as [[f [m [Hf Hm]]]
                               | [dfi [i [f [en [Hf Hx]]]]]].
        -- left. exists f, m. simpl. auto.
        -- right. exists dfi, i, f, en. simpl. tauto.
    + destruct (iterate W instr tmp names total files (S idx) (entry_df en)
                        (results ++ [entry_result en]))
        as [[evs0 df0] res0] eqn:Hi.
      inversion H; subst. apply IH in Hi.
      destruct Hi as [H1 [H2 H3]].
      destruct (@process_file_file_name _ _ _ _ _ _ _ Hp) as [Hn Ha].
      split; [constructor; [|assumption]; left; unfold progress_event;
              do 4 eexists; split; [reflexivity | exact Hn]|].
      split; [exact (augmented_trans Ha H2)|].
      intros e0 [He|He].
      * right. exists df, idx, fname, en. simpl. auto.
      * destruct (H3 e0 He) as [[f [m [Hf Hm]]]
                               | [dfi [i [f [en' [Hf [Hc Hx]]]]]]].
        -- left. exists f, m. simpl. auto.
        -- right. exists dfi, i, f, en'. simpl.
           rewrite Hc, (full_name_kept Ha). tauto.
Qed.

(** The value of [idx] when the progress event is built: the file's
    position after an exact match, the last roster index after the fuzzy
    loop has run over a roster with rows. *)
Lemma process_file_idx (instr tmp : str) (names : list cell) (df : DataFrame)
  (idx : nat) (fname : str) (en : Entry) (nn : list str) :
  process_file W instr tmp names df idx fname = inr en ->
  apply_normalize_name names = inr nn ->
  (first_index (normalize_name (student_name_of fname)) nn <> None ->
   entry_idx en = idx)
  /\ (first_index (normalize_name (student_name_of fname)) nn = None ->
      rows df <> [] ->
      entry_idx en = (length (rows df) - 1)%nat).
Proof.
  intros H Hnn. apply process_file_inv in H.
  destruct H as [fb [nn' [_ [Hnn' H]]]]. cbv zeta in H.
  assert (nn' = nn) by congruence. subst nn'.
  assert (Hlen : length (column df (lit "Full name")) = length (rows df))
    by apply length_map.
  destruct H as [[i [m [c [Hi [_ [_ E]]]]]]
                | [[st [j [csv [m [c [Hi [Hl [_ [_ [_ [_ E]]]]]]]]]]]
                  | [st [Hi [Hl [_ E]]]]]]; subst en; simpl.
  - split; [reflexivity | congruence].
  - split; [congruence|]. intros _ Hne.
    destruct (@fuzzy_loop_spec _ _ _ _ _ Hl) as [_ [_ [_ Hidx]]].
    rewrite Hidx. destruct (column df (lit "Full name")) eqn:Ec.
    + destruct (rows df); [congruence | discriminate].
    + rewrite <- Hlen. reflexivity.
  - split; [congruence|]. intros _ Hne.
    destruct (@fuzzy_loop_spec _ _ _ _ _ Hl) as [_ [_ [_ Hidx]]].
    rewrite Hidx. destruct (column df (lit "Full name")) eqn:Ec.
    + destruct (rows df); [congruence | discriminate].
    + rewrite <- Hlen. reflexivity.
Qed.

Lemma process_file_extract_raises (instr tmp : str) (names : list cell)
  (df : DataFrame) (idx : nat) (fname : str) (e : exn) :
  extract_text W (Path.join tmp (normalize_NFD fname)) = inl e ->
  process_file W instr tmp names df idx fname = inl e.
Proof.
  intros H. unfold process_file, generate_feedback. now rewrite H.
Qed.

Lemma iterate_length (instr tmp : str) (names : list cell) (total : nat)
  (files : list str) :
  forall idx df results evs df' results',
    iterate W instr tmp names total files idx df results
    = (evs, df', results') ->
    length evs = length files.
Proof.
  intros idx df results evs df' results' H.
  apply iterate_spec in H. destruct H as [H _].
  symmetry. eapply Forall2_length; eauto.
Qed.

(** A file whose extraction raises leaves its [error] event at its own
    place among the events. *)
Lemma iterate_error_at (instr tmp : str) (names : list cell) (total : nat)
  (fname : str) (e : exn) (post : list str) :
  extract_text W (Path.join tmp (normalize_NFD fname)) = inl e ->
  forall pre idx df results evs df' results',
    iterate W instr tmp names total (pre ++ fname :: post) idx df results
    = (evs, df', results') ->
    nth_error evs (length pre) = Some (error_event fname e).
Proof.
  intros He. induction pre as [|f pre IH];
    intros idx df results evs df' results' H; simpl in H.
  - rewrite (process_file_extract_raises _ _ _ _ _ _ He) in H.
    destruct (iterate W instr tmp names total post (S idx) df results)
      as [[a b] c]. inversion H; subst. reflexivity.
  - destruct (process_file W instr tmp names df idx f) as [e0|en].
    + destruct (iterate W instr tmp names total (pre ++ fname :: post)
                        (S idx) df results) as [[a b] c] eqn:E.
      inversion H; subst. simpl. eauto.
    + destruct (iterate W instr tmp names total (pre ++ fname :: post)
                        (S idx) (entry_df en) (results ++ [entry_result en]))
        as [[a b] c] eqn:E.
      inversion H; subst. simpl. eauto.
Qed.

Lemma finalize_spec (session_id csv_path tmp : str) (total : nat)
  (evs : list event) (df : DataFrame) (results : list MatchResult) :
  let run := finalize W session_id csv_path tmp total evs df results in
  (exists tail, events run = evs ++ tail /\ ending total tail
                /\ ((exists a b, In (Complete total a b) tail) ->
                    exists path, In (CsvFile path df) (artifacts run)))
  /\ (forall path table, In (CsvFile path table) (artifacts run) -> table = df).
Proof.
  unfold finalize.
  destruct (to_csv W _ df) as [e|].
  { simpl. split.
    - exists [FatalError e]. split; [reflexivity|]. split; [left; eauto|].
      intros [a [b [H|[]]]]. discriminate.
    - intros path table []. }
  destruct (open_excel W _) as [e|].
  { simpl. split.
    - exists [FatalError e]. split; [reflexivity|]. split; [left; eauto|].
      intros [a [b [H|[]]]]. discriminate.
    - intros path table [H|[]]. now inversion H. }
  destruct (is_empty results).
  { simpl. split.
    - eexists [FatalError _]. split; [reflexivity|]. split; [left; eauto|].
      intros [a [b [H|[]]]]. discriminate.
    - intros path table [H|[]]. now inversion H. }
  destruct (save_excel W _ results) as [e|].
  { simpl. split.
    - exists [FatalError e]. split; [reflexivity|]. split; [left; eauto|].
      intros [a [b [H|[]]]]. discriminate.
    - intros path table [H|[]]. now inversion H. }
  destruct (session_known W session_id).
  - simpl. split.
    + destruct (rmtree W tmp) as [e|].
      * eexists [Complete total _ _; FatalError e].
        split; [reflexivity|]. split; [right; right; eauto|].
        intros _. eexists. left. reflexivity.
      * eexists [Complete total _ _].
        split; [reflexivity|]. split; [right; left; eauto|].
        intros _. eexists. left. reflexivity.
    + intros path table [H|[H|[]]]; [now inversion H | discriminate].
  - simpl. split.
    + eexists [FatalError _]. split; [reflexivity|]. split; [left; eauto|].
      intros [a [b [H|[]]]]. discriminate.
    + intros path table [H|[H|[]]]; [now inversion H | discriminate].
Qed.

Lemma set_up_spec (instructions_file zip_path csv_path : str) (s : Setup) :
  set_up W instructions_file zip_path csv_path = inr s ->
  read_csv W csv_path = inr (roster s)
  /\ augmented (lit "Feedback comments") (lit "Grade") (roster s) (df s)
  /\ df_normalized_names s
     = map nfc_cell (column (df s) (lit "Full name")).
Proof.
  unfold set_up. intros H.
  apply bind_inr in H. destruct H as [instr [_ H]].
  apply bind_inr in H. destruct H as [r [Hr H]].
  destruct (has_column r (lit "Full name")); [|discriminate].
  apply bind_inr in H. destruct H as [[tmp entries] [_ H]].
  inversion H; subst; simpl.
  assert (Ha : augmented (lit "Feedback comments") (lit "Grade") r
                 (ensure_column (ensure_column r (lit "Feedback comments")
                                               (CStr [])) (lit "Grade") CNone)).
  { eapply augmented_trans; apply augmented_ensure; auto. }
  split; [assumption|]. split; [assumption|].
  now rewrite (full_name_kept Ha).
Qed.

(** A run, taken apart: the task type is not configured, or setting up
    raised, or the loop ran over every file and [finalize] ended the run. *)
Lemma run_cases (session_id : str) (task_type : option str)
  (zip_path csv_path : str) :
  let run := process_bulk_marking W session_id task_type zip_path csv_path in
  (task_config task_type = None
   /\ run = {| events := [Untyped (lit "Invalid task type")];
               artifacts := []; session_updated := false |})
  \/ (exists f e, task_config task_type = Some f
                  /\ set_up W f zip_path csv_path = inl e
                  /\ run = {| events := [FatalError e]; artifacts := [];
                              session_updated := false |})
  \/ (exists f s evs df' results,
         task_config task_type = Some f
         /\ set_up W f zip_path csv_path = inr s
         /\ iterate W (instructions s) (temp_dir s) (df_normalized_names s)
                    (length (files s)) (files s) 1 (df s) []
            = (evs, df', results)
         /\ run = finalize W session_id csv_path (temp_dir s)
                           (length (files s)) evs df' results).
Proof.
  unfold process_bulk_marking.
  destruct (task_config task_type) as [f|]; [|now left].
  right. destruct (set_up W f zip_path csv_path) as [e|s] eqn:Hs.
  - left. exists f, e. auto.
  - right.
    destruct (iterate W (instructions s) (temp_dir s) (df_normalized_names s)
                      (length (files s)) (files s) 1 (df s) [])
      as [[evs df'] results] eqn:Hi.
    exists f, s, evs, df', results. auto.
Qed.

Lemma event_of_file_shape (fname : str) (e : event) :
  event_of_file fname e ->
  fatal e = false /\ (forall t a b, e <> Complete t a b).
Proof.
  intros [[c [t [p [r [E _]]]]] | [m E]]; subst; split;
    try reflexivity; intros; discriminate.
Qed.

Lemma Forall2_In_r {A B} (P : A -> B -> Prop) (l : list A) (l' : list B)
  (y : B) :
  Forall2 P l l' -> In y l' -> exists x, In x l /\ P x y.
Proof.
  induction 1 as [|a b l l' Hab _ IH]; intros Hin; [destruct Hin|].
  destruct Hin as [Hy|Hy].
  - subst. exists a. simpl. auto.
  - destruct (IH Hy) as [x [Hx Hp]]. exists x. simpl. auto.
Qed.

(** The shape of a run: once setting up is done, every file leaves exactly
    one event, a progress or an error event, in the order of the files,
    whatever was raised on the way, and the run then ends; a run with no
    fatal event is those events followed by exactly one [complete] event.
    Whether a run has a fatal event is not settled here: the failures of
    its entries can bring one about. *)
Theorem event_sequence (session_id : str) (task_type : option str)
  (zip_path csv_path : str) :
  let run := process_bulk_marking W session_id task_type zip_path csv_path in
  (forall f s,
      task_config task_type = Some f ->
      set_up W f zip_path csv_path = inr s ->
      exists evs tail,
        events run = evs ++ tail
        /\ Forall2 event_of_file (files s) evs
        /\ ending (length (files s)) tail)
  /\ (Forall (fun e => fatal e = false) (events run) ->
      exists f s evs a b,
        task_config task_type = Some f
        /\ set_up W f zip_path csv_path = inr s
        /\ events run = evs ++ [Complete (length (files s)) a b]
        /\ Forall2 event_of_file (files s) evs).
Proof.
  intros run.
  destruct (run_cases session_id task_type zip_path csv_path)
    as [[Ht Hr] | [[f [e [Ht [Hs Hr]]]] | [f [s [evs [df' [res [Ht [Hs [Hi Hr]]]]]]]]]];
    fold run in Hr.
  - split.
    + intros f s Hf. congruence.
    + rewrite Hr. simpl. intros H. inversion H; subst. discriminate.
  - split.
    + intros f0 s Hf Hs0. congruence.
    + rewrite Hr. simpl. intros H. inversion H; subst. discriminate.
  - destruct (finalize_spec session_id csv_path (temp_dir s)
                (length (files s)) evs df' res) as [[tail [He [Hend _]]] _].
    rewrite <- Hr in He.
    apply iterate_spec in Hi. destruct Hi as [Hev _].
    split.
    + intros f0 s0 Hf Hs0.
      assert (s0 = s) by congruence. subst s0.
      exists evs, tail. auto.
    + intros Hnf. rewrite He in Hnf. apply Forall_app in Hnf.
      destruct Hnf as [_ Hnf].
      destruct Hend as [[e E] | [[a [b E]] | [a [b [e E]]]]]; subst tail.
      * inversion Hnf; subst. discriminate.
      * exists f, s, evs, a, b. auto.
      * inversion Hnf as [|? ? _ Hnf']; subst.
        inversion Hnf'; subst. discriminate.
Qed.

(** C9: the roster a complete run has written is the roster that was read
    with nothing changed but cells of [Feedback comments] and [Grade]: the
    same number of rows, every cell of every other column as it was and
    where it was, the columns that were there in their order. *)
Theorem roster_preserved (session_id : str) (task_type : option str)
  (zip_path csv_path : str) (total : nat) (a b : str) :
  let run := process_bulk_marking W session_id task_type zip_path csv_path in
  In (Complete total a b) (events run) ->
  exists roster0 path df',
    read_csv W csv_path = inr roster0
    /\ In (CsvFile path df') (artifacts run)
    /\ augmented (lit "Feedback comments") (lit "Grade") roster0 df'.
Proof.
  intros run Hc.
  destruct (run_cases session_id task_type zip_path csv_path)
    as [[Ht Hr] | [[f [e [Ht [Hs Hr]]]] | [f [s [evs [df' [res [Ht [Hs [Hi Hr]]]]]]]]]];
    fold run in Hr.
  - rewrite Hr in Hc. destruct Hc as [Hc|[]]. discriminate.
  - rewrite Hr in Hc. destruct Hc as [Hc|[]]. discriminate.
  - destruct (finalize_spec session_id csv_path (temp_dir s)
                (length (files s)) evs df' res) as [[tail [He [Hend Hcsv]]] _].
    rewrite <- Hr in He, Hcsv.
    apply iterate_spec in Hi. destruct Hi as [Hev [Haug _]].
    destruct (set_up_spec _ _ _ Hs) as [Hread [Haug0 _]].
    rewrite He in Hc. apply in_app_or in Hc. destruct Hc as [Hc|Hc].
    { destruct (@Forall2_In_r _ _ _ _ _ _ Hev Hc) as [x [_ Hx]].
      apply event_of_file_shape in Hx. destruct Hx as [_ Hx].
      now elim (Hx total a b). }
    assert (Hex : exists a0 b0, In (Complete (length (files s)) a0 b0) tail).
    { destruct Hend as [[e E] | [[a0 [b0 E]] | [a0 [b0 [e E]]]]]; subst tail.
      - destruct Hc as [Hc|[]]. discriminate.
      - exists a0, b0. now left.
      - exists a0, b0. now left. }
    destruct (Hcsv Hex) as [path Hp].
    exists (roster s), path, df'. split; [assumption|]. split; [assumption|].
    exact (augmented_trans Haug0 Haug).
Qed.

(** C6: for every match result of a run, the confidence is 100 exactly when
    the matched roster name and the candidate have the same canonical form;
    a match that was accepted otherwise has the fuzzy score of that name,
    which is at least 80 and below 100; no match is reported with
    confidence 0, and then every roster name scores below 80. *)
Theorem confidence_of_every_result (session_id : str)
  (task_type : option str) (zip_path csv_path : str)
  (current total : nat) (percentage : Z) (result : MatchResult) :
  let run := process_bulk_marking W session_id task_type zip_path csv_path in
  In (Progress current total percentage result) (events run) ->
  exists roster0,
    read_csv W csv_path = inr roster0
    /\ confidence_invariant result (column roster0 (lit "Full name")).
Proof.
  intros run Hc.
  destruct (run_cases session_id task_type zip_path csv_path)
    as [[Ht Hr] | [[f [e [Ht [Hs Hr]]]] | [f [s [evs [df' [res [Ht [Hs [Hi Hr]]]]]]]]]];
    fold run in Hr.
  - rewrite Hr in Hc. destruct Hc as [Hc|[]]. discriminate.
  - rewrite Hr in Hc. destruct Hc as [Hc|[]]. discriminate.
  - destruct (finalize_spec session_id csv_path (temp_dir s)
                (length (files s)) evs df' res) as [[tail [He [Hend _]]] _].
    rewrite <- Hr in He.
    apply iterate_spec in Hi. destruct Hi as [_ [_ Hin]].
    destruct (set_up_spec _ _ _ Hs) as [Hread [Haug0 Hnames]].
    exists (roster s). split; [assumption|].
    rewrite He in Hc. apply in_app_or in Hc. destruct Hc as [Hc|Hc].
    + destruct (Hin _ Hc) as [[fn [m [_ E]]]
                             | [dfi [i [fn [en [_ [Hcol [Hp E]]]]]]]].
      * discriminate.
      * unfold progress_event in E. inversion E; subst result.
        rewrite Hnames, <- Hcol in Hp.
        apply process_file_confidence in Hp.
        now rewrite Hcol, (full_name_kept Haug0) in Hp.
    + exfalso.
      destruct Hend as [[e E] | [[a0 [b0 E]] | [a0 [b0 [e E]]]]]; subst tail;
        simpl in Hc; intuition discriminate.
Qed.

(** C10: when one submission is matched, every roster row whose
    [Full name] is the matched name, the row found first and its
    namesakes alike, holds that submission's comment and grade. *)
Theorem namesakes_all_written (instr tmp : str) (names : list cell)
  (df : DataFrame) (idx : nat) (fname : str) (en : Entry)
  (m : str) (i : nat) (r : row) :
  process_file W instr tmp names df idx fname = inr en ->
  matched_name (entry_result en) = Some m ->
  nth_error (rows df) i = Some r ->
  get r (lit "Full name") = CStr m ->
  exists r',
    nth_error (rows (entry_df en)) i = Some r'
    /\ get r' (lit "Feedback comments") = CStr (comment (entry_result en))
    /\ get r' (lit "Grade") = grade_of_score (score (entry_result en)).
Proof.
  intros H Hm Hi Hn. apply process_file_inv in H.
  destruct H as [fb [nn [_ [_ H]]]]. cbv zeta in H.
  destruct H as [[j [w [c [_ [_ [_ E]]]]]]
                | [[st [j [csv [w [c [_ [_ [_ [_ [_ [_ E]]]]]]]]]]]
                  | [st [_ [_ [_ E]]]]]]; subst en; simpl in *.
  - inversion Hm; subst m. eapply record_match_rows; eassumption.
  - inversion Hm; subst m. eapply record_match_rows; eassumption.
  - discriminate.
Qed.

(** C2, as amended: a file whose extraction call raises leaves an [error]
    event, with the cleaned file name and what was raised, at its place
    among the events of the files, all of which are still there; it is a
    raising generation call that turns into the feedback text
    [Error: <message>], from which a progress event is made as from any
    other feedback. *)
Theorem extraction_failure_is_an_error_event (session_id : str)
  (task_type : option str) (zip_path csv_path f : str) (s : Setup)
  (pre : list str) (fname : str) (post : list str) (e : exn) :
  let run := process_bulk_marking W session_id task_type zip_path csv_path in
  task_config task_type = Some f ->
  set_up W f zip_path csv_path = inr s ->
  files s = pre ++ fname :: post ->
  extract_text W (Path.join (temp_dir s) (normalize_NFD fname)) = inl e ->
  (exists evs tail,
      events run = evs ++ tail
      /\ length evs = length (files s)
      /\ ending (length (files s)) tail
      /\ nth_error evs (length pre) = Some (error_event fname e))
  /\ (forall path instr text message,
        extract_text W path = inr text ->
        chat W instr text = inl message ->
        generate_feedback W path instr = inr (lit "Error: " ++ message)).
Proof.
  intros run Ht Hs Hf He. split.
  - destruct (run_cases session_id task_type zip_path csv_path)
      as [[Ht' Hr] | [[f' [e' [Ht' [Hs' Hr]]]]
                     | [f' [s' [evs [df' [res [Ht' [Hs' [Hi Hr]]]]]]]]]];
      fold run in Hr; try congruence.
    assert (f' = f) by congruence. subst f'.
    assert (s' = s) by congruence. subst s'.
    destruct (finalize_spec session_id csv_path (temp_dir s)
                (length (files s)) evs df' res) as [[tail [Hev [Hend _]]] _].
    rewrite <- Hr in Hev. exists evs, tail.
    split; [assumption|]. split; [exact (iterate_length _ _ _ _ _ _ _ _ Hi)|].
    split; [assumption|].
    rewrite Hf in Hi. exact (@iterate_error_at _ _ _ _ _ _ _ He _ _ _ _ _ _ _ Hi).
  - intros path instr text message Hx Hc.
    unfold generate_feedback. rewrite Hx. simpl. now rewrite Hc.
Qed.

End BatchFacts.

(** ** The claims on concrete names and on the sample batch *)

Section Concrete.

#[local] Existing Instance Latin1.db.

(** C5, as amended: [normalize_name] is idempotent; it takes the name with
    a-acute to [fatima], and the name with a stray u-diaeresis to
    [fautima], the letter [u] staying. *)
Theorem normalize_name_idempotent_on_names :
  (forall (U : Unicode) (x : str),
      normalize_name (normalize_name x) = normalize_name x)
  /\ normalize_name Sample.Fatima_acute = lit "fatima"
  /\ normalize_name Sample.Fautima_diaeresis = lit "fautima".
Proof.
  split.
  - intros U0 x. apply normalize_name_fixed, normalize_name_canonical.
  - split; vm_compute; reflexivity.
Qed.

(** C5 as stated fails: the canonical form of the name with u-diaeresis is
    not [fatima]. *)
Lemma normalize_name_keeps_u :
  normalize_name Sample.Fautima_diaeresis <> lit "fatima".
Proof. vm_compute. discriminate. Qed.

(** The literals are the correctly rounded quotients 9/10 and 8/10. *)
Example float_literals :
  Float.div (Float.of_int 9) (Float.of_int 10) = Float.lit_0_9
  /\ Float.div (Float.of_int 8) (Float.of_int 10) = Float.lit_0_8.
Proof. split; vm_compute; reflexivity. Qed.

(** C1 as stated fails: all of [abc] is found in [abcdefgh], which would be
    a partial match and a confidence of 95; the code counts against the
    longer token and gives 50. *)
Lemma candidate_fraction_is_not_the_test :
  calculate_match_percentage (lit "abc x") (lit "abcdefgh x")
  <> confidence_with claimed_pair_weight_tenths
                     (lit "abc x") (lit "abcdefgh x").
Proof. vm_compute. discriminate. Qed.

Example confidence_abc :
  calculate_match_percentage (lit "abc x") (lit "abcdefgh x") = 50%Z
  /\ confidence_with claimed_pair_weight_tenths
                     (lit "abc x") (lit "abcdefgh x") = 95%Z.
Proof. split; vm_compute; reflexivity. Qed.

(** The formula at work: one partial match and one equal token. *)
Lemma calculate_match_percentage_formula_witness :
  calculate_match_percentage (lit "Fautima Garcia") (lit "Fatima Garcia")
  = confidence_with pair_weight_tenths
                    (lit "Fautima Garcia") (lit "Fatima Garcia")
  /\ (similar (lit "fautima") (lit "fatima") = true <->
      (4 * Nat.max (length (lit "fautima")) (length (lit "fatima"))
       <= 5 * common_chars (lit "fautima") (lit "fatima"))%nat).
Proof.
  destruct (@calculate_match_percentage_formula Latin1.db)
    as [_ [_ [Hs Hc]]].
  split.
  - apply Hc.
  - apply (Hs (lit "fautima") (lit "fatima")); vm_compute; lia.
Defined.


Example split_samples :
  split_feedback_and_score (lit "underscore:5") = (lit "underscore:5", [])
  /\ spec_split_feedback_and_score (lit "underscore:5") = (lit "under", lit "5")
  /\ split_feedback_and_score (lit "Good. Score: 8.5") = (lit "Good.", lit "8.5")
  /\ spec_split_feedback_and_score (lit "Good. Score: 8.5")
     = (lit "Good. Score: 8.5", []).
Proof. repeat split; vm_compute; reflexivity. Qed.

(** C2 as stated fails: the extraction of the third file raises, and the
    third event is an [error] event, not a progress event. *)
Lemma extraction_failure_is_no_progress_event :
  extract_text Sample.world (lit "/tmp/batch/bad.pdf")
  = inl (Raised (lit "unreadable"))
  /\ nth_error (events Sample.run) 2
     = Some (Error (lit "badpdf") (Raised (lit "unreadable")))
  /\ map event_type (events Sample.run)
     = [Some (lit "progress"); Some (lit "progress"); Some (lit "error");
        Some (lit "progress"); Some (lit "complete")].
Proof. repeat split; vm_compute; reflexivity. Qed.

Lemma extraction_failure_witness :
  exists evs tail,
    events Sample.run = evs ++ tail
    /\ length evs = length (files Sample.setup)
    /\ ending (length (files Sample.setup)) tail
    /\ nth_error evs 2
       = Some (error_event (lit "bad.pdf") (Raised (lit "unreadable"))).
Proof.
  refine (proj1 (@extraction_failure_is_an_error_event Latin1.db Sample.world
            (lit "session-1") (Some (lit "essay")) (lit "uploads/batch.zip")
            (lit "uploads/roster.csv") (lit "instructions-essay.json")
            Sample.setup [lit "Ana Diaz Ruiz.pdf"; lit "Fautima Garcia X.pdf"]
            (lit "bad.pdf") [lit "Zed Q.docx"] (Raised (lit "unreadable"))
            _ _ _ _)); vm_compute; reflexivity.
Defined.

(** When it is the generation call that raises, the comment of a progress
    event is the error text addressed like any feedback, and the score is
    empty. *)
Example generation_failure_comment :
  map Sample.comment_of (events Sample.run_without_service)
  = [Some (lit "Ana, error: service down");
     Some (lit "Fatima, error: service down");
     None;
     Some (lit "Zed, error: service down");
     None].
Proof. vm_compute. reflexivity. Qed.

(** C3 fails on the code: the second and the fourth file of four are
    reported as [current = 3] with 75 percent, the roster's last index,
    where they are files 2 and 4 (50 and 100 percent); only the exact
    match keeps its position. *)
Theorem progress_reports_roster_index :
  map Sample.progress_numbers (events Sample.run)
  = [Some (1, 4, 25%Z); Some (3, 4, 75%Z); None; Some (3, 4, 75%Z); None]%nat.
Proof. vm_compute. reflexivity. Qed.

(** C4 fails on the code: for a task type that is not configured the one
    event yielded has no type, where the claim has [fatal_error]; nothing
    is written. *)
Theorem unknown_task_event_is_untyped (U : Unicode) (W : World)
  (session_id zip_path csv_path : str) :
  let run := process_bulk_marking W session_id (Some (lit "poem"))
                                  zip_path csv_path in
  events run = [Untyped (lit "Invalid task type")]
  /\ map event_type (events run) = [None]
  /\ artifacts run = [].
Proof. repeat split. Qed.

Lemma confidence_of_every_result_witness :
  exists roster0,
    read_csv Sample.world (lit "uploads/roster.csv") = inr roster0
    /\ confidence_invariant Sample.fautima_result
                            (column roster0 (lit "Full name")).
Proof.
  apply (@confidence_of_every_result Latin1.db Sample.world
           (lit "session-1") (Some (lit "essay")) (lit "uploads/batch.zip")
           (lit "uploads/roster.csv") 3 4 75%Z Sample.fautima_result).
  vm_compute. right. left. reflexivity.
Defined.

Lemma event_sequence_witness :
  exists f s evs a b,
    task_config (Some (lit "essay")) = Some f
    /\ set_up Sample.world f (lit "uploads/batch.zip")
              (lit "uploads/roster.csv") = inr s
    /\ events Sample.run = evs ++ [Complete (length (files s)) a b]
    /\ Forall2 event_of_file (files s) evs.
Proof.
  apply (proj2 (@event_sequence Latin1.db Sample.world
                  (lit "session-1") (Some (lit "essay"))
                  (lit "uploads/batch.zip") (lit "uploads/roster.csv"))).
  vm_compute. repeat constructor.
Defined.

Lemma roster_preserved_witness :
  exists roster0 path df',
    read_csv Sample.world (lit "uploads/roster.csv") = inr roster0
    /\ In (CsvFile path df') (artifacts Sample.run)
    /\ augmented (lit "Feedback comments") (lit "Grade") roster0 df'.
Proof.
  apply (@roster_preserved Latin1.db Sample.world
           (lit "session-1") (Some (lit "essay")) (lit "uploads/batch.zip")
           (lit "uploads/roster.csv") 4
           (lit "roster_with_feedback_20250101120000.csv")
           (lit "bulk_feedback_20250101120000.xlsx")).
  vm_compute. do 4 right. left. reflexivity.
Defined.

(** The fourth row is the namesake of the first, which is the row the
    exact lookup finds. *)
Lemma namesakes_all_written_witness :
  exists r',
    nth_error (rows (entry_df Sample.ana_entry)) 3 = Some r'
    /\ get r' (lit "Feedback comments")
       = CStr (comment (entry_result Sample.ana_entry))
    /\ get r' (lit "Grade")
       = grade_of_score (score (entry_result Sample.ana_entry)).
Proof.
  apply (@namesakes_all_written Latin1.db Sample.world
           (instructions Sample.setup) (temp_dir Sample.setup)
           (df_normalized_names Sample.setup) (df Sample.setup) 1
           (lit "Ana Diaz Ruiz.pdf") Sample.ana_entry (lit "Ana Diaz") 3
           (nth 3 (rows (df Sample.setup)) []));
    vm_compute; reflexivity.
Defined.

Example namesake_row :
  map (fun r => (get r (lit "Email"), get r (lit "Feedback comments"),
                 get r (lit "Grade")))
      (rows (entry_df Sample.ana_entry))
  = [ (CStr (lit "ana@example.org"), CStr (lit "Ana, you did well."),
       CNum (lit "8.5"));
      (CStr (lit "fatima@example.org"), CStr [], CNone);
      (CStr (lit "bo@example.org"), CStr [], CNone);
      (CStr (lit "ana.diaz@example.org"), CStr (lit "Ana, you did well."),
       CNum (lit "8.5")) ].
Proof. vm_compute. reflexivity. Qed.

End Concrete.

(** * Further properties *)

(** ** File names *)

Section FileNameFacts.

Context {U : Unicode}.

Lemma rfind_from_absent (c : char) (s : str) :
  forall i found, ~ In c s -> Path.rfind_from c s i found = found.
Proof.
  induction s as [|x s IH]; intros i found H; simpl; [reflexivity|].
  rewrite IH by (intros Hc; apply H; now right).
  destruct (N.eqb_spec x c) as [E|E]; [|reflexivity].
  elim H. now left.
Qed.

Lemma rfind_from_last (c : char) (a b : str) :
  forall i found,
    ~ In c b ->
    Path.rfind_from c (a ++ c :: b) i found = Some (i + length a)%nat.
Proof.
  induction a as [|x a IH]; intros i found H; simpl.
  - rewrite N.eqb_refl, rfind_from_absent by assumption.
    f_equal. lia.
  - rewrite IH by assumption. f_equal. lia.
Qed.

Lemma rfind_from_some (c : char) (s : str) :
  forall i found k,
    Path.rfind_from c s i found = Some k ->
    (found = Some k /\ ~ In c s)
    \/ exists a b, s = a ++ c :: b /\ ~ In c b /\ k = (i + length a)%nat.
Proof.
  induction s as [|x s IH]; intros i found k H; simpl in H.
  - left. split; [assumption | intros []].
  - apply IH in H. destruct H as [[H1 H2] | [a [b [E [Hb Hk]]]]].
    + destruct (N.eqb_spec x c) as [Ex|Ex].
      * right. exists [], s. subst x. inversion H1; subst.
        repeat split; auto; simpl; lia.
      * left. split; [assumption|]. intros [Hx|Hx]; auto.
    + right. exists (x :: a), b. subst s. repeat split; auto; simpl; lia.
Qed.

Lemma in_split_last (c : char) (s : str) :
  In c s -> exists a b, s = a ++ c :: b /\ ~ In c b.
Proof.
  induction s as [|x s IH]; intros H; [destruct H|].
  destruct (in_dec N.eq_dec c s) as [Hi|Hi].
  - destruct (IH Hi) as [a [b [E Hb]]]. exists (x :: a), b.
    subst s. auto.
  - destruct H as [H|H]; [|contradiction]. subst x. exists [], s. auto.
Qed.

Lemma rfind_none (c : char) (s : str) :
  Path.rfind c s = None <-> ~ In c s.
Proof.
  unfold Path.rfind. split.
  - intros H Hin. apply in_split_last in Hin.
    destruct Hin as [a [b [E Hb]]]. subst s.
    rewrite (@rfind_from_last c a b 0 None Hb) in H. discriminate.
  - intros H. now apply rfind_from_absent.
Qed.

Lemma existsb_str_eqb (x : str) (l : list str) :
  existsb (str_eqb x) l = true <-> In x l.
Proof.
  rewrite existsb_exists. split.
  - intros [y [Hy E]]. apply str_eqb_eq in E. now subst.
  - intros H. exists x. split; [assumption | apply str_eqb_refl].
Qed.

Lemma skipn_past (a b : str) (c : char) :
  skipn (S (length a)) (a ++ c :: b) = b.
Proof. induction a as [|x a IH]; simpl; [reflexivity | exact IH]. Qed.

(** X1.
    [allowed_file] accepts a name exactly when the text after its last dot,
    lower-cased, is one of the types; a name without a dot is refused. *)
Theorem allowed_file_iff (filename : str) (file_types : list str) :
  allowed_file filename file_types = true <->
  exists base ext,
    filename = base ++ [46%N] ++ ext
    /\ ~ In 46%N ext
    /\ In (str_lower ext) file_types.
Proof.
  unfold allowed_file, Path.extension. split.
  - destruct (Path.rfind 46%N filename) as [dot|] eqn:E; [|discriminate].
    intros H. apply existsb_str_eqb in H.
    unfold Path.rfind in E. apply rfind_from_some in E.
    destruct E as [[E _] | [a [b [Es [Hb Hk]]]]]; [discriminate|].
    exists a, b. simpl in Hk. subst dot filename.
    rewrite skipn_past in H. auto.
  - intros [base [ext [E [Hd Hin]]]]. subst filename.
    unfold Path.rfind.
    pose proof (@rfind_from_last 46%N base ext 0 None Hd) as R.
    match goal with
    | |- context [Path.rfind_from ?c ?s 0 None] =>
        replace (Path.rfind_from c s 0 None) with (Some (length base))
          by (symmetry; exact R)
    end.
    match goal with
    | |- context [str_lower ?e] =>
        replace e with ext by (symmetry; exact (skipn_past base ext 46%N))
    end.
    now apply existsb_str_eqb.
Qed.


Lemma clean_chars (name : str) (c : char) :
  In c (clean_corrupted_name name) -> name_char c.
Proof.
  unfold clean_corrupted_name, name_char. intros H.
  apply filter_In in H. destruct H as [_ H].
  apply orb_true_iff in H. destruct H as [H|H]; [now left|].
  right. simpl in H.
  destruct (N.eqb_spec c 32); [auto|].
  destruct (N.eqb_spec c 45); [auto|].
  destruct (N.eqb_spec c 39); [auto|]. discriminate.
Qed.

Lemma clean_no_dot (name : str) : ~ In 46%N (clean_corrupted_name name).
Proof.
  intros H. apply clean_chars in H.
  destruct H as [H|[H|[H|H]]]; discriminate.
Qed.


Lemma student_name_is_clean (fname : str) :
  student_name_of fname = Py.strip (clean_corrupted_name fname).
Proof.
  unfold student_name_of, Path.splitext_root.
  assert (E : Path.rfind 46%N (clean_corrupted_name fname) = None)
    by apply rfind_none, clean_no_dot.
  now rewrite E.
Qed.

(** X3.
    The name taken from a file name keeps the letters of the extension:
    the dot is cleaned away before the extension is split off, so nothing
    is split off. *)
Theorem student_name_keeps_extension (base ext : str) :
  student_name_of (base ++ [46%N] ++ ext)
  = Py.strip (clean_corrupted_name base ++ clean_corrupted_name ext).
Proof.
  rewrite student_name_is_clean. unfold clean_corrupted_name.
  rewrite !filter_app. reflexivity.
Qed.

Lemma lstrip_all_spaces (s : str) :
  Forall (fun c => Py.isspace c = true) s -> Py.lstrip s = [].
Proof.
  induction 1 as [|c s Hc _ IH]; simpl; [reflexivity|]. now rewrite Hc.
Qed.

(** X4.
    A file name whose stem holds no letter, hyphen or apostrophe gives the
    placeholder first name [Student]. *)
Theorem first_name_placeholder (filename : str) :
  Forall (fun c => is_letter c = false /\ c <> 45%N /\ c <> 39%N)
         (normalize_NFC (Path.splitext_root filename)) ->
  extract_first_name_from_filename filename = lit "Student".
Proof.
  intros H. unfold extract_first_name_from_filename.
  set (stem := normalize_NFC (Path.splitext_root filename)) in *.
  assert (Hs : Forall (fun c => Py.isspace c = true)
                      (clean_corrupted_name stem)).
  { apply Forall_forall. intros c Hc.
    pose proof (clean_chars _ _ Hc) as Hn.
    unfold clean_corrupted_name in Hc. apply filter_In in Hc.
    destruct Hc as [Hin _]. rewrite Forall_forall in H.
    destruct (H c Hin) as [H1 [H2 H3]].
    destruct Hn as [Hn|[Hn|[Hn|Hn]]]; try congruence.
    subst. reflexivity. }
  assert (E : Py.strip (clean_corrupted_name stem) = []).
  { unfold Py.strip. now rewrite (lstrip_all_spaces Hs). }
  now rewrite E.
Qed.

End FileNameFacts.

(** ** Text extraction and the post-processing of the feedback *)

Section FeedbackFacts.

Context {U : Unicode}.

Lemma startswith_to_dot (a b r : str) :
  ~ In 46%N a -> ~ In 46%N b ->
  (Py.startswith (a ++ 46%N :: r) (b ++ [46%N]) = true <-> a = b).
Proof.
  revert b. induction a as [|x a IH]; intros [|y b] Ha Hb;
    cbn [Py.startswith app].
  - rewrite N.eqb_refl. destruct r; split; reflexivity.
  - assert (E : (y =? 46)%N = false)
      by (apply N.eqb_neq; intros E; apply Hb; now left).
    rewrite E. split; discriminate.
  - assert (E : (46 =? x)%N = false)
      by (apply N.eqb_neq; intros E; apply Ha; now left).
    rewrite E. split; discriminate.
  - destruct (N.eqb_spec y x) as [E|E]; cbn [andb].
    + subst y. rewrite IH.
      * split; [intros -> | intros H; inversion H]; reflexivity.
      * intros H; apply Ha; now right.
      * intros H; apply Hb; now right.
    + split; [discriminate | intros H; inversion H; congruence].
Qed.

Lemma endswith_extension (prefix ext x : str) :
  ~ In 46%N ext -> ~ In 46%N x ->
  (endswith (prefix ++ [46%N] ++ ext) ([46%N] ++ x) = true <-> ext = x).
Proof.
  intros He Hx. unfold endswith.
  rewrite !rev_app_distr. simpl rev at 2 4. simpl app.
  rewrite <- app_assoc. simpl app.
  rewrite startswith_to_dot.
  - split; [intros H | intros ->; reflexivity].
    rewrite <- (rev_involutive ext), <- (rev_involutive x). now f_equal.
  - intros H. apply He. now apply in_rev.
  - intros H. apply Hx. now apply in_rev.
Qed.

(** X5.
    A file whose extension reads [pdf] or [docx] only after lower-casing
    (as [PDF] does) passes the batch's filter, and [extract_text] gives the
    empty text for it without opening it. *)
Theorem capital_extension_reads_empty (prefix base ext : str)
  (read_pdf : str -> exn + list (option str))
  (read_docx : str -> exn + list str) :
  ~ In 46%N ext ->
  In (str_lower ext) [lit "pdf"; lit "docx"] ->
  ~ In ext [lit "pdf"; lit "docx"] ->
  allowed_file (base ++ [46%N] ++ ext) [lit "pdf"; lit "docx"] = true
  /\ extract_text_with read_pdf read_docx (prefix ++ [46%N] ++ ext) = inr [].
Proof.
  intros Hd Hl Hn. split.
  - unfold allowed_file, Path.extension, Path.rfind.
    pose proof (@rfind_from_last 46%N base ext 0 None Hd) as R.
    match goal with
    | |- context [Path.rfind_from ?c ?s 0 None] =>
        replace (Path.rfind_from c s 0 None) with (Some (length base))
          by (symmetry; exact R)
    end.
    match goal with
    | |- context [str_lower ?e] =>
        replace e with ext by (symmetry; exact (skipn_past base ext 46%N))
    end.
    now apply existsb_str_eqb.
  - assert (P1 : ~ In 46%N (lit "pdf")) by (simpl; intuition discriminate).
    assert (P2 : ~ In 46%N (lit "docx")) by (simpl; intuition discriminate).
    pose proof (@endswith_extension prefix ext (lit "pdf") Hd P1) as E1.
    pose proof (@endswith_extension prefix ext (lit "docx") Hd P2) as E2.
    unfold extract_text_with.
    change (lit ".pdf") with ([46%N] ++ lit "pdf").
    change (lit ".docx") with ([46%N] ++ lit "docx").
    destruct (endswith (prefix ++ [46%N] ++ ext) ([46%N] ++ lit "pdf")).
    + elim Hn. left. symmetry. now apply E1.
    + destruct (endswith (prefix ++ [46%N] ++ ext) ([46%N] ++ lit "docx"));
        [|reflexivity].
      elim Hn. right. left. symmetry. now apply E2.
Qed.

Lemma word_comma_nonempty (s : str) : word_comma s = true -> s <> [].
Proof. destruct s; [discriminate | discriminate]. Qed.

Lemma startswith_nonempty (s p : str) :
  p <> [] -> Py.startswith s p = true -> s <> [].
Proof. destruct p, s; simpl; congruence. Qed.

(** X6.
    What [enforce_instructions] returns is never empty and never longer
    than 1003 characters; unless it was cut to that length, it opens with
    [You] or with a word and a comma. *)
Theorem enforce_instructions_result (feedback : str) :
  let r := enforce_instructions feedback in
  (length r <= 1003)%nat
  /\ r <> []
  /\ (Py.startswith r (lit "You") = true \/ word_comma r = true
      \/ length r = 1003%nat).
Proof.
  unfold enforce_instructions.
  set (fb1 := fold_left _ replacements feedback).
  set (fb2 := if negb (Py.startswith fb1 (lit "You"))
                 && negb (word_comma fb1)
              then lit "You, " ++ fb1 else fb1).
  assert (O : Py.startswith fb2 (lit "You") = true \/ word_comma fb2 = true).
  { subst fb2.
    destruct (Py.startswith fb1 (lit "You")) eqn:E1; simpl; [now left|].
    destruct (word_comma fb1) eqn:E2; simpl; [now right | now left]. }
  assert (N : fb2 <> []).
  { destruct O as [O|O].
    - apply (@startswith_nonempty fb2 (lit "You")); [discriminate | exact O].
    - now apply word_comma_nonempty. }
  cbv zeta.
  destruct (1000 <? length fb2)%nat eqn:L.
  - apply Nat.ltb_lt in L.
    assert (E : length (firstn 1000 fb2 ++ lit "...") = 1003%nat).
    { rewrite length_app, firstn_length_le by lia. reflexivity. }
    rewrite E. split; [lia|]. split; [|tauto].
    intros H. rewrite H in E. discriminate.
  - apply Nat.ltb_ge in L. split; [lia|]. split; [exact N | tauto].
Qed.

End FeedbackFacts.

(** ** Names of ASCII letters *)

Section AsciiNames.

Context {U : Unicode}.

Lemma map_join (f : char -> char) (sep : str) (ws : list str) :
  map f (Py.join sep ws) = Py.join (map f sep) (map (map f) ws).
Proof.
  induction ws as [|w [|v ws] IH]; [reflexivity | reflexivity |].
  change (Py.join sep (w :: v :: ws)) with (w ++ sep ++ Py.join sep (v :: ws)).
  rewrite !map_app, IH. reflexivity.
Qed.

Lemma letter_is_ascii (c : char) :
  Py.ascii_letter c = true -> Py.isascii c = true.
Proof. char_facts. Qed.

Lemma letter_not_space (c : char) :
  Py.ascii_letter c = true -> Py.isspace c = false.
Proof. char_facts. Qed.

Lemma ascii_word_word (w : str) : ascii_word w -> word w.
Proof.
  intros [Hne Hw]. split; [assumption|].
  eapply Forall_impl; [|exact Hw]. apply letter_not_space.
Qed.

Lemma ascii_word_token (w : str) :
  ascii_word w -> token (map Py.to_lower_ascii w).
Proof.
  intros [Hne Hw]. split.
  - destruct w; [congruence | discriminate].
  - apply Forall_map. eapply Forall_impl; [|exact Hw].
    apply letter_to_lower.
Qed.

Lemma ascii_words_chars (ws : list str) :
  Forall ascii_word ws ->
  Forall (fun c => Py.ascii_letter c = true \/ c = 32%N)
         (Py.join (lit " ") ws).
Proof.
  intros H. apply join_Forall; [now right|].
  eapply Forall_impl; [|exact H]. intros w [_ Hw].
  eapply Forall_impl; [|exact Hw]. now left.
Qed.

Lemma normalize_name_ascii_words (ws : list str) :
  Forall ascii_word ws ->
  normalize_name (Py.join (lit " ") ws)
  = Py.join (lit " ") (firstn 2 (map (map Py.to_lower_ascii) ws)).
Proof.
  intros Hws.
  pose proof (ascii_words_chars Hws) as Hc.
  assert (Hascii : forallb Py.isascii (Py.join (lit " ") ws) = true).
  { apply forallb_forall. rewrite Forall_forall in Hc. intros c Hin.
    destruct (Hc c Hin) as [H|H]; [now apply letter_is_ascii | now subst]. }
  assert (Hwords : Forall word ws)
    by (eapply Forall_impl; [|exact Hws]; apply ascii_word_word).
  unfold normalize_name, remove_accents_and_corruption.
  rewrite NFD_ascii by assumption.
  set (j := Py.join (lit " ") ws) in *.
  assert (F1 : filter (fun c => if Py.isascii c
                                then isalpha c || Py.isspace c else false) j
               = j).
  { apply filter_all. eapply Forall_impl; [|exact Hc]. intros c [H|H].
    - unfold isalpha. rewrite (letter_is_ascii _ H), H. reflexivity.
    - subst. reflexivity. }
  rewrite F1.
  assert (F2 : filter (fun c => isalnum c || Py.isspace c) j = j).
  { apply filter_all. eapply Forall_impl; [|exact Hc]. intros c [H|H].
    - unfold isalnum. rewrite (letter_is_ascii _ H), H. reflexivity.
    - subst. reflexivity. }
  rewrite F2. subst j.
  rewrite strip_join by assumption.
  rewrite lower_ascii by assumption.
  rewrite map_join. change (map Py.to_lower_ascii (lit " ")) with (lit " ").
  rewrite split_join; [reflexivity|].
  apply Forall_map. eapply Forall_impl; [|exact Hws].
  intros w Hw. now apply token_word, ascii_word_token.
Qed.

(** X7.
    Whatever the name, [normalize_name] gives at most two words of the
    letters [a] to [z] with one space between them, and splitting the
    result gives these words back. *)
Theorem normalize_name_gives_two_tokens (name : str) :
  exists ts, Forall token ts /\ (length ts <= 2)%nat
             /\ normalize_name name = Py.join (lit " ") ts
             /\ Py.split (normalize_name name) = ts.
Proof. apply normalize_name_tokens. Qed.

(** X8.
    For a name made of words of ASCII letters with one space between
    them, [normalize_name] gives the first two words in lower case: case
    and every word after the second are ignored. *)
Theorem normalize_name_of_ascii_words (ws : list str) :
  Forall ascii_word ws ->
  normalize_name (Py.join (lit " ") ws)
  = Py.join (lit " ") (firstn 2 (map (map Py.to_lower_ascii) ws)).
Proof. apply normalize_name_ascii_words. Qed.

Lemma clean_ascii_word (w : str) :
  ascii_word w -> clean_corrupted_name w = w.
Proof.
  intros [_ Hw]. unfold clean_corrupted_name. apply filter_all.
  eapply Forall_impl; [|exact Hw]. intros c H.
  unfold is_letter. now rewrite (letter_is_ascii _ H), H.
Qed.

Lemma clean_app (a b : str) :
  clean_corrupted_name (a ++ b)
  = clean_corrupted_name a ++ clean_corrupted_name b.
Proof. apply filter_app. Qed.

Lemma ascii_word_app (a b : str) :
  ascii_word a -> ascii_word b -> ascii_word (a ++ b).
Proof.
  intros [Ha Fa] [_ Fb]. split.
  - destruct a; [congruence | discriminate].
  - now apply Forall_app.
Qed.

Lemma student_name_two_words (a b ext : str) :
  ascii_word a -> ascii_word b -> ascii_word ext ->
  student_name_of (a ++ lit " " ++ b ++ [46%N] ++ ext)
  = Py.join (lit " ") [a; b ++ ext].
Proof.
  intros Ha Hb He. rewrite student_name_is_clean.
  assert (E : clean_corrupted_name (a ++ lit " " ++ b ++ [46%N] ++ ext)
              = Py.join (lit " ") [a; b ++ ext]).
  { rewrite !clean_app.
    rewrite (clean_ascii_word Ha), (clean_ascii_word Hb),
            (clean_ascii_word He).
    reflexivity. }
  rewrite E. apply strip_join.
  apply Forall_cons; [now apply ascii_word_word|].
  apply Forall_cons; [|constructor].
  now apply ascii_word_word, ascii_word_app.
Qed.

(** X9.
    A file named by two words of ASCII letters and an extension never
    matches the roster name of the same two words exactly: the letters of
    the extension stay on the second word, and the confidence is 50 or
    95. *)
Theorem file_named_by_two_words (a b ext : str) :
  ascii_word a -> ascii_word b -> ascii_word ext ->
  let fname := a ++ lit " " ++ b ++ [46%N] ++ ext in
  student_name_of fname = a ++ lit " " ++ b ++ ext
  /\ In (calculate_match_percentage (student_name_of fname)
                                    (a ++ lit " " ++ b))
        [50; 95]%Z.
Proof.
  intros Ha Hb He fname. subst fname.
  rewrite student_name_two_words by assumption.
  split; [reflexivity|].
  pose proof (ascii_word_app Hb He) as Hbe.
  change (a ++ lit " " ++ b) with (Py.join (lit " ") [a; b]).
  rewrite calculate_unfold.
  assert (W1 : Forall ascii_word [a; b ++ ext])
    by (apply Forall_cons; [|apply Forall_cons; [|apply Forall_nil]];
        assumption).
  assert (W2 : Forall ascii_word [a; b])
    by (apply Forall_cons; [|apply Forall_cons; [|apply Forall_nil]];
        assumption).
  rewrite (normalize_name_ascii_words W1), (normalize_name_ascii_words W2).
  cbn [map firstn].
  set (la := map Py.to_lower_ascii a).
  set (lb := map Py.to_lower_ascii b).
  set (lbe := map Py.to_lower_ascii (b ++ ext)).
  assert (Hne : lbe <> lb).
  { subst lbe lb. intros E. apply (f_equal (@length _)) in E.
    rewrite !length_map, length_app in E.
    destruct He as [He _]. destruct ext; [congruence | simpl in E; lia]. }
  assert (Hj : Py.join (lit " ") [la; lbe] <> Py.join (lit " ") [la; lb]).
  { cbn [Py.join]. intros E. apply app_inv_head in E.
    apply app_inv_head in E. contradiction. }
  apply str_eqb_neq in Hj. rewrite Hj.
  assert (Wa : word la) by now apply token_word, ascii_word_token.
  assert (Wb : word lb) by now apply token_word, ascii_word_token.
  assert (Wbe : word lbe) by now apply token_word, ascii_word_token.
  rewrite !split_join
    by (apply Forall_cons; [|apply Forall_cons; [|apply Forall_nil]];
        assumption).
  cbn [is_empty orb combine firstn].
  rewrite score_pairs_exact by (simpl; lia).
  unfold weight_sum. cbn [map fold_right fst snd].
  assert (E1 : pair_weight_tenths la la = 10%Z).
  { unfold pair_weight_tenths. now rewrite str_eqb_refl. }
  rewrite E1.
  destruct (pair_weight_values lbe lb) as [[_ E]|[[E _]|[E _]]];
    [contradiction | rewrite E; simpl; auto | rewrite E; simpl; auto].
Qed.

(** X10.
    The confidence is 100 exactly when the two names have the same
    canonical form, and 0, 45, 50, 90 or 95 otherwise. *)
Theorem calculate_match_percentage_values (name1 name2 : str) :
  (calculate_match_percentage name1 name2 = 100%Z
   <-> normalize_name name1 = normalize_name name2)
  /\ In (calculate_match_percentage name1 name2)
        [0; 45; 50; 90; 95; 100]%Z.
Proof.
  destruct (list_eq_dec N.eq_dec (normalize_name name1)
                        (normalize_name name2)) as [E|E].
  - rewrite (calculate_equal _ _ E). split; [tauto | simpl; auto 7].
  - pose proof (@calculate_differ _ name1 name2 E) as H.
    split.
    + split; [|contradiction].
      intros H100. apply below_100 in H. lia.
    + simpl in *. intuition.
Qed.

Lemma one_pair_weight (a c : str) :
  In (5 * (pair_weight_tenths a c + 0))%Z [0; 45; 50]%Z.
Proof.
  destruct (pair_weight_values a c) as [[E _]|[[E _]|[E _]]];
    rewrite E; simpl; auto.
Qed.

(** X11.
    When either name has fewer than two words in its canonical form, the
    confidence is 100 or at most 50: such a name is matched exactly or not
    at all. *)
Theorem single_word_is_no_fuzzy_match (name1 name2 : str) :
  (length (Py.split (normalize_name name1)) <= 1)%nat
  \/ (length (Py.split (normalize_name name2)) <= 1)%nat ->
  calculate_match_percentage name1 name2 = 100%Z
  \/ In (calculate_match_percentage name1 name2) [0; 45; 50]%Z.
Proof.
  intros Hlen. rewrite calculate_unfold.
  destruct (str_eqb (normalize_name name1) (normalize_name name2));
    [now left | right].
  destruct (normalize_name_tokens name1) as [t1 [_ [L1 [_ S1]]]].
  destruct (normalize_name_tokens name2) as [t2 [_ [L2 [_ S2]]]].
  rewrite S1, S2 in *.
  destruct t1 as [|a [|b [|? ?]]]; simpl in L1; try lia;
    [simpl; auto|..];
  (destruct t2 as [|c [|d [|? ?]]]; simpl in L2; try lia;
    [simpl; auto|..]);
  simpl in Hlen; try lia;
  simpl is_empty; simpl orb; cbv iota;
  rewrite score_pairs_exact by (simpl; lia);
  unfold weight_sum; simpl map; simpl fold_right; apply one_pair_weight.
Qed.

End AsciiNames.

(** ** The score and the grade *)

Section ScoreShape.

Context {U : Unicode}.

Lemma number_text (g rest : str) : number g rest -> score_text g.
Proof.
  intros [[d [E [Hd _]]] | [d [d2 [E [Hd Hd2]]]]]; subst g.
  - right. left. now exists d.
  - right. right. now exists d, d2.
Qed.

Lemma split_score_text (text : str) :
  score_text (snd (split_feedback_and_score text)).
Proof.
  unfold split_feedback_and_score.
  destruct (search None [] text) as [[before g]|] eqn:E; [|now left].
  apply (@search_sound _ text None [] before g eq_refl) in E.
  destruct E as [pre [s' [_ [_ [[_ [l [w1 [w2 [rest [_ [_ [_ [_ Hn]]]]]]]]] _]]]]].
  simpl. exact (number_text Hn).
Qed.

(** X12.
    The score [split_feedback_and_score] returns is empty, one digit, or
    digit, point, digit; the grade written for it is [None] for the empty
    score and otherwise a number with one decimal place. *)
Theorem score_and_grade_shape (text : str) :
  let score := snd (split_feedback_and_score text) in
  score_text score
  /\ (score = [] -> grade_of_score score = CNone)
  /\ (score <> [] ->
      exists d d2, grade_of_score score = CNum [d; 46%N; d2]).
Proof.
  intros score. pose proof (split_score_text text) as H.
  fold score in H. split; [exact H|]. split.
  - intros ->. reflexivity.
  - intros Hne.
    destruct H as [H | [[d [H _]] | [d [d2 [H _]]]]]; [contradiction|..];
      rewrite H; simpl; eauto.
Qed.

End ScoreShape.

(** ** More on the batch *)

Section BatchMore.

Context {U : Unicode}.
Variable W : World.

Lemma cell_is_other (name : str) (c : cell) :
  c <> CStr name -> cell_is name c = false.
Proof.
  destruct c as [s| | |]; simpl; try reflexivity.
  intros H. apply str_eqb_neq. congruence.
Qed.

Lemma assign_keeps_row (df : DataFrame) (name label : str) (v : cell)
  (i : nat) (r : row) :
  nth_error (rows df) i = Some r ->
  get r (lit "Full name") <> CStr name ->
  nth_error (rows (assign_where_name df name label v)) i = Some r.
Proof.
  intros Hi Hr. unfold assign_where_name. cbn [rows].
  rewrite nth_error_map, Hi. cbn [option_map].
  now rewrite (cell_is_other Hr).
Qed.

Lemma record_match_keeps_row (df : DataFrame) (m c s : str) (i : nat)
  (r : row) :
  nth_error (rows df) i = Some r ->
  get r (lit "Full name") <> CStr m ->
  nth_error (rows (record_match df m c s)) i = Some r.
Proof.
  intros Hi Hr. unfold record_match.
  apply assign_keeps_row; [|exact Hr]. now apply assign_keeps_row.
Qed.

(** X13.
    One file changes no row but those of the matched name: a row whose
    [Full name] is another is as it was, and so are the column labels;
    without a match the table is untouched. *)
Theorem other_rows_are_kept (instr tmp : str) (names : list cell)
  (df : DataFrame) (idx : nat) (fname : str) (en : Entry)
  (i : nat) (r : row) :
  process_file W instr tmp names df idx fname = inr en ->
  nth_error (rows df) i = Some r ->
  (forall m, matched_name (entry_result en) = Some m ->
             get r (lit "Full name") <> CStr m) ->
  nth_error (rows (entry_df en)) i = Some r
  /\ columns (entry_df en) = columns df
  /\ (matched_name (entry_result en) = None -> entry_df en = df).
Proof.
  intros H Hi Hr. apply process_file_inv in H.
  destruct H as [fb [nn [_ [_ H]]]]. cbv zeta in H.
  destruct H as [[j [m [c [_ [_ [_ E]]]]]]
                | [[st [j [csv [m [c [_ [_ [_ [_ [_ [_ E]]]]]]]]]]]
                  | [st [_ [_ [_ E]]]]]];
    subst en; cbn [entry_df entry_result matched_name make_result] in *.
  - split; [|split; [reflexivity | discriminate]].
    apply record_match_keeps_row; [exact Hi | now apply Hr].
  - split; [|split; [reflexivity | discriminate]].
    apply record_match_keeps_row; [exact Hi | now apply Hr].
  - auto.
Qed.

Lemma progress_results_app (a b : list event) :
  progress_results (a ++ b) = progress_results a ++ progress_results b.
Proof. apply flat_map_app. Qed.

Lemma iterate_results (instr tmp : str) (names : list cell) (total : nat)
  (files : list str) :
  forall idx df results evs df' results',
    iterate W instr tmp names total files idx df results
    = (evs, df', results') ->
    results' = results ++ progress_results evs.
Proof.
  induction files as [|fname rest IH]; intros idx df results evs df' results' H;
    simpl in H.
  - inversion H; subst. simpl. now rewrite app_nil_r.
  - destruct (process_file W instr tmp names df idx fname) as [e|en].
    + destruct (iterate W instr tmp names total rest (S idx) df results)
        as [[evs1 df1] res1] eqn:E.
      inversion H; subst. apply IH in E. subst. reflexivity.
    + destruct (iterate W instr tmp names total rest (S idx) (entry_df en)
                        (results ++ [entry_result en]))
        as [[evs1 df1] res1] eqn:E.
      inversion H; subst. apply IH in E. subst.
      unfold progress_event. simpl. now rewrite <- app_assoc.
Qed.

Lemma iterate_events (instr tmp : str) (names : list cell) (total : nat)
  (files : list str) :
  forall idx df results evs df' results',
    iterate W instr tmp names total files idx df results
    = (evs, df', results') ->
    Forall (fun e => (exists c t p r, e = Progress c t p r)
                     \/ exists f m, e = Error f m) evs.
Proof.
  induction files as [|fname rest IH]; intros idx df results evs df' results' H;
    simpl in H.
  - inversion H; subst. constructor.
  - destruct (process_file W instr tmp names df idx fname) as [e|en].
    + destruct (iterate W instr tmp names total rest (S idx) df results)
        as [[evs1 df1] res1] eqn:E.
      inversion H; subst. apply IH in E. constructor; [|exact E].
      right. unfold error_event. eauto.
    + destruct (iterate W instr tmp names total rest (S idx) (entry_df en)
                        (results ++ [entry_result en]))
        as [[evs1 df1] res1] eqn:E.
      inversion H; subst. apply IH in E. constructor; [|exact E].
      left. unfold progress_event. eauto.
Qed.

(** What [finalize] leaves, case by case. *)
Lemma finalize_cases (session_id csv_path tmp : str) (total : nat)
  (evs : list event) (df : DataFrame) (results : list MatchResult) :
  let run := finalize W session_id csv_path tmp total evs df results in
  (forall path rs, In (ExcelFile path rs) (artifacts run) ->
                   rs = results /\ results <> [])
  /\ ((exists e, events run = evs ++ [FatalError e])
      \/ (results <> []
          /\ exists a b tail,
               events run = evs ++ Complete total a b :: tail
               /\ (tail = [] \/ exists e, tail = [FatalError e]))).
Proof.
  unfold finalize.
  destruct (to_csv W _ df) as [e|].
  { split; [intros path rs []|]. left. eexists. reflexivity. }
  destruct (open_excel W _) as [e|].
  { split; [intros path rs [H|[]]; discriminate|]. left. eexists. reflexivity. }
  destruct results as [|r0 results]; cbn [is_empty].
  { split; [intros path rs [H|[]]; discriminate|]. left. eexists. reflexivity. }
  assert (A : forall path rs csv_out xl,
             In (ExcelFile path rs)
                [CsvFile csv_out df; ExcelFile xl (r0 :: results)] ->
             rs = r0 :: results /\ r0 :: results <> []).
  { intros path rs csv_out xl [H|[H|[]]]; [discriminate|].
    inversion H. split; [reflexivity | discriminate]. }
  destruct (save_excel W _ (r0 :: results)) as [e|].
  { split; [intros path rs [H|[]]; discriminate|]. left. eexists. reflexivity. }
  destruct (session_known W session_id); cbn [events artifacts].
  - split; [intros path rs; apply A|]. right. split; [discriminate|].
    do 3 eexists. split; [reflexivity|].
    destruct (rmtree W tmp) as [e|]; [right; eexists|left]; reflexivity.
  - split; [intros path rs; apply A|]. left. eexists. reflexivity.
Qed.

Lemma progress_results_In (evs : list event) (r : MatchResult) :
  In r (progress_results evs) <->
  exists c t p, In (Progress c t p r) evs.
Proof.
  unfold progress_results. rewrite in_flat_map. split.
  - intros [e [He Hr]]. destruct e; simpl in Hr; try contradiction.
    destruct Hr as [Hr|[]]. subst. eauto.
  - intros [c [t [p H]]]. exists (Progress c t p r). split; [exact H|].
    now left.
Qed.

Lemma progress_results_tail (total : nat) (a b : str) (tail : list event) :
  tail = [] \/ (exists e, tail = [FatalError e]) ->
  progress_results (Complete total a b :: tail) = [].
Proof. intros [->|[e ->]]; reflexivity. Qed.

Lemma no_complete_in_loop (evs : list event) (total : nat) (a b : str) :
  Forall (fun e => (exists c t p r, e = Progress c t p r)
                   \/ exists f m, e = Error f m) evs ->
  ~ In (Complete total a b) evs.
Proof.
  intros H Hin. rewrite Forall_forall in H.
  destruct (H _ Hin) as [[c [t [p [r E]]]] | [f [m E]]]; discriminate.
Qed.

(** X14.
    The workbook holds the match results of the progress events, in their
    order. *)
Theorem report_lists_the_progress_results (session_id : str)
  (task_type : option str) (zip_path csv_path : str)
  (path : str) (results : list MatchResult) :
  let run := process_bulk_marking W session_id task_type zip_path csv_path in
  In (ExcelFile path results) (artifacts run) ->
  results = progress_results (events run).
Proof.
  intros run Hin. subst run.
  destruct (run_cases W session_id task_type zip_path csv_path)
    as [[_ E] | [[f [e [_ [_ E]]]] | [f [s [evs [df' [res [_ [_ [Hit E]]]]]]]]]];
    rewrite E in *; try (destruct Hin; fail).
  apply iterate_results in Hit. simpl in Hit. subst res.
  destruct (finalize_cases session_id csv_path (temp_dir s)
              (length (files s)) evs df' (progress_results evs))
    as [A B].
  destruct (A _ _ Hin) as [-> _].
  destruct B as [[e B] | [_ [a [b [tail [B Ht]]]]]]; rewrite B,
    progress_results_app.
  - simpl. now rewrite app_nil_r.
  - now rewrite (progress_results_tail _ _ _ Ht), app_nil_r.
Qed.

(** X15.
    A run that yields [complete] has yielded a progress event before: a
    batch in which no file got through ends in [fatal_error]. *)
Theorem complete_follows_a_progress (session_id : str)
  (task_type : option str) (zip_path csv_path : str)
  (total : nat) (a b : str) :
  let run := process_bulk_marking W session_id task_type zip_path csv_path in
  In (Complete total a b) (events run) ->
  exists current total' percentage result,
    In (Progress current total' percentage result) (events run).
Proof.
  intros run Hin. subst run.
  destruct (run_cases W session_id task_type zip_path csv_path)
    as [[_ E] | [[f [e [_ [_ E]]]] | [f [s [evs [df' [res [_ [_ [Hit E]]]]]]]]]];
    rewrite E in *;
    try (destruct Hin as [Hin|[]]; discriminate).
  pose proof (@iterate_events _ _ _ _ _ _ _ _ _ _ _ Hit) as Hev.
  apply iterate_results in Hit. simpl in Hit. subst res.
  destruct (finalize_cases session_id csv_path (temp_dir s)
              (length (files s)) evs df' (progress_results evs))
    as [_ [[e B] | [Hne [a' [b' [tail [B Ht]]]]]]]; rewrite B in *.
  - apply in_app_or in Hin. destruct Hin as [Hin|[Hin|[]]];
      [|discriminate].
    now apply no_complete_in_loop in Hin.
  - destruct (progress_results evs) as [|r rs] eqn:P; [congruence|].
    assert (Hr : In r (progress_results evs)) by (rewrite P; now left).
    apply progress_results_In in Hr. destruct Hr as [c [t [p Hr]]].
    exists c, t, p, r. apply in_or_app. now left.
Qed.

(** X16.
    A roster without the column [Full name] ends the run at once: one
    event, which is [fatal_error] (or the untyped error of an unknown task
    type), and nothing is written. *)
Theorem roster_without_name_column (session_id : str)
  (task_type : option str) (zip_path csv_path : str) (roster : DataFrame) :
  read_csv W csv_path = inr roster ->
  has_column roster (lit "Full name") = false ->
  let run := process_bulk_marking W session_id task_type zip_path csv_path in
  artifacts run = []
  /\ session_updated run = false
  /\ (exists e, events run = [e] /\ fatal e = true)
  /\ (forall f instructions,
        task_config task_type = Some f ->
        open_json W f = inr instructions ->
        events run = [FatalError KeyError_full_name]).
Proof.
  intros Hr Hc run. subst run. unfold process_bulk_marking.
  destruct (task_config task_type) as [f|].
  - unfold set_up. destruct (open_json W f) as [e|i] eqn:Ej; cbn [bind].
    + split; [reflexivity|]. split; [reflexivity|].
      split; [eexists; split; reflexivity|].
      intros f0 i0 E. inversion E; subst. congruence.
    + rewrite Hr. cbn [bind]. rewrite Hc.
      split; [reflexivity|]. split; [reflexivity|].
      split; [eexists; split; reflexivity|]. reflexivity.
  - split; [reflexivity|]. split; [reflexivity|].
    split; [eexists; split; reflexivity|]. discriminate.
Qed.

Lemma apply_normalize_name_fails (names : list cell) :
  In CNaN names -> apply_normalize_name names = inl TypeError_normalize.
Proof.
  induction names as [|c names IH]; intros H; [destruct H|].
  destruct c; try reflexivity.
  destruct H as [H|H]; [discriminate|].
  simpl. now rewrite (IH H).
Qed.

Lemma process_file_fails (instr tmp : str) (names : list cell)
  (df : DataFrame) (idx : nat) (fname : str) :
  In CNaN names ->
  exists e, process_file W instr tmp names df idx fname = inl e.
Proof.
  intros H. unfold process_file.
  destruct (generate_feedback W _ instr) as [e|fb]; simpl; [eauto|].
  rewrite (@apply_normalize_name_fails names H). simpl. eauto.
Qed.

Lemma iterate_all_fail (instr tmp : str) (names : list cell) (total : nat)
  (files : list str) :
  In CNaN names ->
  forall idx df results evs df' results',
    iterate W instr tmp names total files idx df results
    = (evs, df', results') ->
    progress_results evs = [].
Proof.
  intros Hn.
  induction files as [|fname rest IH]; intros idx df results evs df' results' H;
    simpl in H.
  - inversion H; subst. reflexivity.
  - destruct (@process_file_fails instr tmp names df idx fname Hn) as [e E].
    rewrite E in H.
    destruct (iterate W instr tmp names total rest (S idx) df results)
      as [[evs1 df1] res1] eqn:Ei.
    inversion H; subst. simpl. exact (IH _ _ _ _ _ _ Ei).
Qed.

(** X17.
    A roster with a missing name makes every file fail: the comparison
    with the normalised names raises for each, so the run has no progress
    event and no [complete]. *)
Theorem missing_name_fails_every_file (session_id : str)
  (task_type : option str) (zip_path csv_path : str) (roster : DataFrame) :
  read_csv W csv_path = inr roster ->
  In CNaN (column roster (lit "Full name")) ->
  let run := process_bulk_marking W session_id task_type zip_path csv_path in
  progress_results (events run) = []
  /\ forall total a b, ~ In (Complete total a b) (events run).
Proof.
  intros Hr Hn run. subst run.
  destruct (run_cases W session_id task_type zip_path csv_path)
    as [[_ E] | [[f [e [_ [_ E]]]] | [f [s [evs [df' [res [_ [Hs [Hit E]]]]]]]]]];
    rewrite E; cbn [events].
  - split; [reflexivity|]. intros t a b [H|[]]. discriminate.
  - split; [reflexivity|]. intros t a b [H|[]]. discriminate.
  - apply set_up_spec in Hs. destruct Hs as [Hr' [Ha Hnames]].
    rewrite Hr in Hr'. inversion Hr'; subst roster.
    rewrite (full_name_kept Ha) in Hnames.
    assert (Hin : In CNaN (df_normalized_names s)).
    { rewrite Hnames. change CNaN with (nfc_cell CNaN). now apply in_map. }
    pose proof (@iterate_events _ _ _ _ _ _ _ _ _ _ _ Hit) as Hev.
    pose proof (@iterate_all_fail _ _ _ _ _ Hin _ _ _ _ _ _ Hit) as Hp.
    apply iterate_results in Hit. simpl in Hit. rewrite Hp in Hit. subst res.
    destruct (finalize_cases session_id csv_path (temp_dir s)
                (length (files s)) evs df' [])
      as [_ [[e B] | [Hne _]]]; [|congruence].
    rewrite B. split.
    + now rewrite progress_results_app, Hp.
    + intros t a b Hc. apply in_app_or in Hc.
      destruct Hc as [Hc|[Hc|[]]]; [|discriminate].
      now apply no_complete_in_loop in Hc.
Qed.

Lemma iterate_all_raise (instr tmp : str) (names : list cell) (total : nat)
  (files : list str) :
  (forall fname, In fname files ->
     exists e, extract_text W (Path.join tmp (normalize_NFD fname)) = inl e) ->
  forall idx df results evs df' results',
    iterate W instr tmp names total files idx df results
    = (evs, df', results') ->
    results' = results
    /\ Forall2 (fun fname ev => exists e, ev = error_event fname e) files evs.
Proof.
  induction files as [|fname rest IH];
    intros Hx idx df results evs df' results' H; simpl in H.
  - inversion H; subst. split; [reflexivity | constructor].
  - destruct (Hx fname (or_introl eq_refl)) as [e He].
    rewrite (process_file_extract_raises W instr tmp names df idx fname He) in H.
    destruct (iterate W instr tmp names total rest (S idx) df results)
      as [[evs1 df1] res1] eqn:Ei.
    inversion H; subst.
    destruct (IH (fun f Hf => Hx f (or_intror Hf)) _ _ _ _ _ _ Ei)
      as [-> Hev].
    split; [reflexivity|]. constructor; [eauto | exact Hev].
Qed.

Lemma finalize_nothing (session_id csv_path tmp : str) (total : nat)
  (evs : list event) (df : DataFrame) :
  exists e,
    events (finalize W session_id csv_path tmp total evs df [])
    = evs ++ [FatalError e]
    /\ ((forall path table, to_csv W path table = None) ->
        (forall path, open_excel W path = None) ->
        e = KeyError_result_columns).
Proof.
  unfold finalize.
  destruct (to_csv W _ df) as [e|] eqn:Ec.
  { exists e. split; [reflexivity|]. intros Hc _. rewrite Hc in Ec.
    discriminate. }
  destruct (open_excel W _) as [e|] eqn:Eo.
  { exists e. split; [reflexivity|]. intros _ Ho. rewrite Ho in Eo.
    discriminate. }
  exists KeyError_result_columns. split; reflexivity.
Qed.

(** C8 fails on the code: the exceptions of the entries can end the batch.
    When the extraction raises for every entry of the archive (a batch of
    one unreadable document is enough), each entry leaves its error event,
    in order, and then the run yields [fatal_error] where the claim has
    [complete]: the report's columns are asked of an empty list of results,
    which raises. *)
Theorem failed_entries_end_in_fatal_error (session_id : str)
  (task_type : option str) (zip_path csv_path f : str) (s : Setup) :
  task_config task_type = Some f ->
  set_up W f zip_path csv_path = inr s ->
  (forall fname, In fname (files s) ->
     exists e, extract_text W (Path.join (temp_dir s) (normalize_NFD fname))
               = inl e) ->
  let run := process_bulk_marking W session_id task_type zip_path csv_path in
  exists evs e,
    events run = evs ++ [FatalError e]
    /\ Forall2 (fun fname ev => exists m, ev = error_event fname m)
               (files s) evs
    /\ (forall total a b, ~ In (Complete total a b) (events run))
    /\ ((forall path table, to_csv W path table = None) ->
        (forall path, open_excel W path = None) ->
        e = KeyError_result_columns).
Proof.
  intros Ht Hs Hx run. subst run.
  destruct (run_cases W session_id task_type zip_path csv_path)
    as [[Ht' _] | [[f' [e [Ht' [Hs' _]]]]
                  | [f' [s' [evs [df' [res [Ht' [Hs' [Hit E]]]]]]]]]];
    try congruence.
  assert (f' = f) by congruence. subst f'.
  assert (s' = s) by congruence. subst s'.
  destruct (@iterate_all_raise _ _ _ _ _ Hx _ _ _ _ _ _ Hit) as [-> Hev].
  destruct (finalize_nothing session_id csv_path (temp_dir s)
              (length (files s)) evs df') as [e [He Hk]].
  rewrite E, He. exists evs, e.
  split; [reflexivity|]. split; [exact Hev|]. split; [|exact Hk].
  intros total a b Hin. apply in_app_or in Hin.
  destruct Hin as [Hin|[Hin|[]]]; [|discriminate].
  destruct (@Forall2_In_r _ _ _ _ _ _ Hev Hin) as [fname [_ [m Em]]].
  discriminate.
Qed.

Lemma finalize_complete (session_id csv_path tmp : str) (total : nat)
  (evs : list event) (df : DataFrame) (results : list MatchResult)
  (t : nat) (a b : str) :
  let run := finalize W session_id csv_path tmp total evs df results in
  ~ In (Complete t a b) evs ->
  In (Complete t a b) (events run) ->
  session_updated run = true
  /\ exists p q,
       artifacts run = [CsvFile p df; ExcelFile q results]
       /\ a = Path.basename p /\ b = Path.basename q.
Proof.
  unfold finalize. intros Hn.
  assert (F : forall e, ~ In (Complete t a b) (evs ++ [FatalError e])).
  { intros e H. apply in_app_or in H.
    destruct H as [H|[H|[]]]; [contradiction | discriminate]. }
  destruct (to_csv W _ df); [intros H; now apply F in H|].
  destruct (open_excel W _); [intros H; now apply F in H|].
  destruct (is_empty results); [intros H; now apply F in H|].
  destruct (save_excel W _ results); [intros H; now apply F in H|].
  destruct (session_known W session_id); [|intros H; now apply F in H].
  cbn [events artifacts session_updated]. intros H.
  split; [reflexivity|]. do 2 eexists. split; [reflexivity|].
  apply in_app_or in H. destruct H as [H|[H|H]]; [contradiction| |].
  - inversion H. split; reflexivity.
  - destruct (rmtree W tmp); [destruct H as [H|[]]; discriminate | destruct H].
Qed.

(** X18.
    The [complete] event names what was written: the run has saved the
    table and the workbook, in this order and nothing else, the event
    carries the base names of the two paths, and the session's entry was
    updated. *)
Theorem complete_names_the_files_written (session_id : str)
  (task_type : option str) (zip_path csv_path : str)
  (total : nat) (a b : str) :
  let run := process_bulk_marking W session_id task_type zip_path csv_path in
  In (Complete total a b) (events run) ->
  session_updated run = true
  /\ exists p q table results,
       artifacts run = [CsvFile p table; ExcelFile q results]
       /\ a = Path.basename p /\ b = Path.basename q.
Proof.
  intros run Hin. subst run.
  destruct (run_cases W session_id task_type zip_path csv_path)
    as [[_ E] | [[f [e [_ [_ E]]]] | [f [s [evs [df' [res [_ [_ [Hit E]]]]]]]]]];
    rewrite E in *;
    try (destruct Hin as [Hin|[]]; discriminate).
  pose proof (@iterate_events _ _ _ _ _ _ _ _ _ _ _ Hit) as Hev.
  destruct (@finalize_complete session_id csv_path (temp_dir s)
              (length (files s)) evs df' res total a b
              (no_complete_in_loop _ _ _ Hev) Hin)
    as [Hs [p [q [Ha [Ea Eb]]]]].
  split; [exact Hs|]. exists p, q, df', res. auto.
Qed.

(** X19.
    The salutation [You, ] that [enforce_instructions] puts in front of a
    feedback does not reach the student: the batch takes it off again and,
    unless the text goes on with the first name, puts the first name and a
    comma there, lowering the letter that follows. *)
Theorem added_salutation_is_replaced (first_name rest : str) (c : char) :
  Py.isspace c = false ->
  address_by_first_name first_name (lit "You, " ++ c :: rest)
  = if Py.startswith (str_lower (c :: rest)) (str_lower first_name)
    then c :: rest
    else first_name ++ lit ", " ++ str_lower [c] ++ rest.
Proof.
  intros Hc. unfold address_by_first_name.
  assert (E : strip_salutation (lit "You, " ++ c :: rest) = c :: rest).
  { change (strip_salutation (lit "You, " ++ c :: rest))
      with (Py.lstrip (c :: rest)).
    now apply lstrip_head. }
  change (is_empty (lit "You, " ++ c :: rest)) with false. cbv iota.
  rewrite E. reflexivity.
Qed.

End BatchMore.

(** ** The comment split off a generated feedback *)

Section FeedbackComment.

Context {U : Unicode}.

Lemma stop_facts (x : char) :
  stop x ->
  Py.isspace x = false /\ x <> 58%N /\ isword x = false
  /\ forall a, In a (lit "score") -> ci_letter a x = false.
Proof.
  intros [->| ->]; (split; [reflexivity|]); (split; [discriminate|]);
    (split; [reflexivity|]); intros a Ha; simpl in Ha;
    repeat (destruct Ha as [<-|Ha]; [reflexivity|]); destruct Ha.
Qed.

Lemma literal_before_stop (x : char) (rest : str) :
  forall p s r,
    (forall a, In a p -> ci_letter a x = false) ->
    match_literal p s = Some r ->
    skip_while isword s = x :: rest ->
    skip_while isword r = x :: rest.
Proof.
  induction p as [|a p IH]; intros s r Hx Hm Hs.
  - destruct s; simpl in Hm; inversion Hm; subst; exact Hs.
  - destruct s as [|c s]; [discriminate|]. simpl in Hm.
    destruct (ci_letter a c) eqn:Ec; [|discriminate].
    simpl in Hs. destruct (isword c).
    + apply (IH s r); auto. intros b Hb. apply Hx. now right.
    + inversion Hs; subst. rewrite Hx in Ec by now left. discriminate.
Qed.

Lemma no_colon_before_stop (x : char) (rest : str) :
  Py.isspace x = false -> x <> 58%N ->
  forall r r', skip_while isword r = x :: rest -> Py.lstrip r <> 58%N :: r'.
Proof.
  intros Hsp Hc. induction r as [|c r IH]; intros r' Hs; [discriminate|].
  simpl in *. destruct (Py.isspace c) eqn:Es.
  - destruct (isword c).
    + now apply IH.
    + inversion Hs; subst. congruence.
  - intros E. inversion E; subst.
    change (isword 58%N) with false in Hs. inversion Hs. congruence.
Qed.

Lemma no_match_before_stop (x : char) (rest s : str) (prev : option char) :
  stop x -> skip_while isword s = x :: rest -> match_at prev s = None.
Proof.
  intros Hx Hs. destruct (stop_facts Hx) as [Hsp [Hc [_ Hl]]].
  unfold match_at. destruct (word_boundary prev (hd_error s)); [|reflexivity].
  destruct (match_literal (lit "score") s) as [r|] eqn:Em; [|reflexivity].
  pose proof (literal_before_stop _ _ Hl Em Hs) as Hr.
  destruct (Py.lstrip r) as [|c r'] eqn:El; [reflexivity|].
  destruct (N.eqb_spec c 58) as [E|E]; [|reflexivity].
  subst c. exfalso. exact (no_colon_before_stop Hsp Hc _ Hr El).
Qed.

Lemma search_extends (s : str) :
  forall prev before b g,
    search prev before s = Some (b, g) -> exists pre, b = before ++ pre.
Proof.
  induction s as [|c s IH]; intros prev before b g H; simpl in H.
  - destruct (match_at prev []); [|discriminate].
    inversion H; subst. exists []. now rewrite app_nil_r.
  - destruct (match_at prev (c :: s)).
    + inversion H; subst. exists []. now rewrite app_nil_r.
    + apply IH in H. destruct H as [pre ->].
      exists (c :: pre). now rewrite <- app_assoc.
Qed.

Lemma search_passes_stop (x : char) (rest : str) :
  stop x ->
  forall s prev before b g,
    skip_while isword s = x :: rest ->
    search prev before s = Some (b, g) -> In x b.
Proof.
  intros Hx. induction s as [|c s IH]; intros prev before b g Hs H;
    [discriminate|].
  simpl in H. rewrite (@no_match_before_stop x rest (c :: s) prev Hx Hs) in H.
  simpl in Hs. destruct (isword c).
  - now apply (IH _ _ _ _ Hs H).
  - inversion Hs; subst. apply search_extends in H. destruct H as [pre ->].
    apply in_or_app. left. apply in_or_app. right. now left.
Qed.

Lemma lstrip_In (x : char) (s : str) :
  Py.isspace x = false -> In x s -> In x (Py.lstrip s).
Proof.
  intros Hx. induction s as [|c s IH]; intros H; [destruct H|].
  simpl. destruct (Py.isspace c) eqn:E; [|exact H].
  destruct H as [H|H]; [congruence | now apply IH].
Qed.

Lemma strip_In (x : char) (s : str) :
  Py.isspace x = false -> In x s -> Py.strip s <> [].
Proof.
  intros Hx H. unfold Py.strip, Py.rstrip.
  assert (I : In x (rev (Py.lstrip (rev (Py.lstrip s))))).
  { apply -> in_rev. apply lstrip_In; [exact Hx|].
    apply -> in_rev. now apply lstrip_In. }
  intros E. rewrite E in I. destruct I.
Qed.

Lemma comment_after_stop (x : char) (rest s : str) :
  stop x -> skip_while isword s = x :: rest ->
  fst (split_feedback_and_score s) <> [].
Proof.
  intros Hx Hs. unfold split_feedback_and_score.
  destruct (search None [] s) as [[b g]|] eqn:E; simpl.
  - apply (@strip_In x); [apply (stop_facts Hx)|].
    exact (search_passes_stop Hx _ _ _ Hs E).
  - destruct s; [discriminate | discriminate].
Qed.

Lemma comment_after_capital (c : char) (t : str) :
  c = 89%N \/ c = 69%N ->
  fst (split_feedback_and_score (c :: t)) <> [].
Proof.
  intros Hc. unfold split_feedback_and_score.
  assert (M : match_at None (c :: t) = None)
    by (destruct Hc as [->| ->]; reflexivity).
  assert (Hsp : Py.isspace c = false)
    by (destruct Hc as [->| ->]; reflexivity).
  assert (S : search None [] (c :: t) = search (Some c) [c] t)
    by (simpl; now rewrite M).
  rewrite S.
  destruct (search (Some c) [c] t) as [[b g]|] eqn:E; simpl;
    [|discriminate].
  apply search_extends in E. destruct E as [pre ->].
  apply (@strip_In c); [exact Hsp | now left].
Qed.

Lemma startswith_You (s : str) :
  Py.startswith s (lit "You") = true -> exists t, s = 89%N :: t.
Proof.
  intros H. change (lit "You") with [89; 111; 117]%N in H.
  destruct s as [|c t]; cbn [Py.startswith] in H; [discriminate|].
  destruct (N.eqb_spec 89 c) as [E|E]; [|discriminate].
  subst. eauto.
Qed.

Lemma word_comma_stop (s : str) :
  word_comma s = true -> exists rest, skip_while isword s = 44%N :: rest.
Proof.
  unfold word_comma. intros H. destruct s as [|c s]; [discriminate|].
  apply andb_true_iff in H. destruct H as [_ H].
  destruct (skip_while isword (c :: s)) as [|x rest]; [discriminate|].
  destruct (N.eq_dec x 44) as [E|E]; [subst; eauto|].
  exfalso. destruct x as [|p]; [discriminate|].
  repeat (destruct p as [p|p|]; try discriminate). now elim E.
Qed.

Lemma cut_before_stop (s rest : str) :
  skip_while isword s = 44%N :: rest ->
  forall n, exists x rest',
    skip_while isword (firstn n s ++ lit "...") = x :: rest' /\ stop x.
Proof.
  induction s as [|c s IH]; intros Hs n; [discriminate|].
  destruct n as [|n].
  - exists 46%N, (lit ".."). split; [reflexivity | now right].
  - simpl in *. destruct (isword c).
    + now apply IH.
    + inversion Hs; subst. eexists _, _. split; [reflexivity | now left].
Qed.

Lemma enforce_instructions_opening (feedback : str) :
  (exists t, enforce_instructions feedback = 89%N :: t)
  \/ exists x rest,
       skip_while isword (enforce_instructions feedback) = x :: rest
       /\ stop x.
Proof.
  unfold enforce_instructions.
  set (fb1 := fold_left _ replacements feedback).
  set (fb2 := if negb (Py.startswith fb1 (lit "You"))
                 && negb (word_comma fb1)
              then lit "You, " ++ fb1 else fb1).
  assert (O : Py.startswith fb2 (lit "You") = true \/ word_comma fb2 = true).
  { subst fb2.
    destruct (Py.startswith fb1 (lit "You")) eqn:E1; simpl; [now left|].
    destruct (word_comma fb1) eqn:E2; simpl; [now right | now left]. }
  cbv zeta. destruct O as [O|O].
  - left. apply startswith_You in O. destruct O as [t ->].
    match goal with
    | |- context [if ?b then _ else _] => destruct b
    end; [exists (firstn 999 t ++ lit "...") | exists t]; reflexivity.
  - right. apply word_comma_stop in O. destruct O as [rest O].
    destruct (1000 <? length fb2)%nat.
    + exact (@cut_before_stop fb2 rest O 1000%nat).
    + exists 44%N, rest. split; [exact O | now left].
Qed.

(** X20.
    The comment split off a feedback that [generate_feedback] returns is
    never empty, whether the feedback is an answer passed through
    [enforce_instructions] or the text of an error: the test [if comment]
    of the batch always holds. *)
Theorem feedback_comment_is_never_empty (W : World)
  (read_pdf : str -> exn + list (option str))
  (read_docx : str -> exn + list str)
  (complete : str -> str -> str + str)
  (file_path instructions feedback : str) :
  generate_feedback (with_program W read_pdf read_docx complete)
                    file_path instructions = inr feedback ->
  fst (split_feedback_and_score feedback) <> [].
Proof.
  unfold generate_feedback, with_program, chat_with. cbn [extract_text chat].
  intros H. apply bind_inr in H. destruct H as [text [_ H]].
  destruct (complete instructions text) as [message|content];
    inversion H; subst.
  - apply comment_after_capital. now right.
  - destruct (enforce_instructions_opening content)
      as [[t E] | [x [rest [E Hx]]]].
    + rewrite E. apply comment_after_capital. now left.
    + exact (@comment_after_stop x rest _ Hx E).
Qed.

End FeedbackComment.

(** ** Which row is matched *)

Section FirstBest.

Context {U : Unicode}.
Variable W : World.

Lemma fuzzy_loop_first (cand : str) (names : list cell) :
  forall i idx0 best bm st',
    fuzzy_loop cand names i (idx0, best, bm) = inr st' ->
    (snd st' = bm /\ snd (fst st') = best
     /\ forall s, In (CStr s) names ->
                  (calculate_match_percentage cand s <= best)%Z)
    \/ exists k s,
         snd st' = Some ((i + k)%nat, s)
         /\ nth_error names k = Some (CStr s)
         /\ snd (fst st') = calculate_match_percentage cand s
         /\ (best < calculate_match_percentage cand s)%Z
         /\ (forall k' s', (k' < k)%nat ->
                nth_error names k' = Some (CStr s') ->
                (calculate_match_percentage cand s'
                 < calculate_match_percentage cand s)%Z)
         /\ (forall s', In (CStr s') names ->
                (calculate_match_percentage cand s'
                 <= calculate_match_percentage cand s)%Z).
Proof.
  induction names as [|x names IH]; intros i idx0 best bm st' H; simpl in H.
  - inversion H; subst. left. simpl. repeat split. intros s [].
  - destruct x as [n| | |]; try discriminate.
    set (p := calculate_match_percentage cand n) in *.
    destruct (best <? p)%Z eqn:E;
      [apply Z.ltb_lt in E | apply Z.ltb_ge in E];
      apply IH in H;
      destruct H as [[H1 [H2 H3]] | [k [s [H1 [H2 [H3 [H4 [H5 H6]]]]]]]].
    + right. exists 0%nat, n. rewrite Nat.add_0_r. fold p.
      repeat split; auto; try lia.
      intros s' [Hs|Hs]; [inversion Hs; subst; fold p; lia | auto].
    + right. exists (S k), s.
      replace (i + S k)%nat with (S i + k)%nat by lia.
      repeat split; auto; try lia.
      * intros [|k'] s' Hk Hn; simpl in Hn.
        -- inversion Hn; subst. fold p. lia.
        -- apply (H5 k'); [lia | exact Hn].
      * intros s' [Hs|Hs]; [inversion Hs; subst; fold p; lia | auto].
    + left. repeat split; auto.
      intros s [Hs|Hs]; [inversion Hs; subst; fold p; lia | auto].
    + right. exists (S k), s.
      replace (i + S k)%nat with (S i + k)%nat by lia.
      repeat split; auto; try lia.
      * intros [|k'] s' Hk Hn; simpl in Hn.
        -- inversion Hn; subst. fold p. lia.
        -- apply (H5 k'); [lia | exact Hn].
      * intros s' [Hs|Hs]; [inversion Hs; subst; fold p; lia | auto].
Qed.

Lemma first_index_first (col : list cell) :
  forall nn x i k s,
    apply_normalize_name (map nfc_cell col) = inr nn ->
    first_index x nn = Some i ->
    (k < i)%nat ->
    nth_error col k = Some (CStr s) ->
    normalize_name s <> x.
Proof.
  induction col as [|c col IH]; intros nn x i k s Hnn Hi Hk Hs; simpl in Hnn.
  - destruct k; discriminate.
  - destruct (nfc_cell c) as [s0| | |] eqn:Ec; try discriminate.
    apply bind_inr in Hnn. destruct Hnn as [rest [Hrest Hnn]].
    inversion Hnn; subst nn. simpl in Hi.
    destruct (str_eqb (normalize_name s0) x) eqn:E.
    + inversion Hi; subst i. lia.
    + destruct (first_index x rest) as [i'|] eqn:Ei; [|discriminate].
      simpl in Hi. inversion Hi; subst i.
      destruct k as [|k]; simpl in Hs.
      * inversion Hs; subst c. simpl in Ec. inversion Ec; subst s0.
        rewrite normalize_name_NFC in E. now apply str_eqb_neq.
      * apply (IH rest x i' k s); auto. lia.
Qed.

Lemma nth_text (col : list cell) (i : nat) (s : str) :
  nth i col CNaN = CStr s -> nth_error col i = Some (CStr s).
Proof.
  revert i. induction col as [|c col IH]; intros [|i] H; simpl in *;
    try discriminate; [now subst | now apply IH].
Qed.

Lemma at_most_100 (name1 name2 : str) :
  (calculate_match_percentage name1 name2 <= 100)%Z.
Proof.
  destruct (list_eq_dec N.eq_dec (normalize_name name1)
                        (normalize_name name2)) as [E|E].
  - rewrite (calculate_equal _ _ E). lia.
  - pose proof (below_100 (@calculate_differ _ name1 name2 E)). lia.
Qed.

(** X21.
    The row a file is matched to is the first row of the roster with the
    highest confidence: no name scores more than the matched one, and
    every name above it scores less.  On an exact match that confidence
    is 100. *)
Theorem match_is_the_first_best_row (instr tmp : str) (df : DataFrame)
  (idx : nat) (fname : str) (en : Entry) (m : str) :
  process_file W instr tmp (map nfc_cell (column df (lit "Full name")))
               df idx fname = inr en ->
  matched_name (entry_result en) = Some m ->
  let full_names := column df (lit "Full name") in
  let confidence := calculate_match_percentage (student_name_of fname) in
  exists j,
    nth_error full_names j = Some (CStr m)
    /\ confidence m = match_percentage (entry_result en)
    /\ (forall s, In (CStr s) full_names -> (confidence s <= confidence m)%Z)
    /\ (forall k s, (k < j)%nat -> nth_error full_names k = Some (CStr s) ->
                    (confidence s < confidence m)%Z).
Proof.
  intros H Hm full_names confidence. apply process_file_inv in H.
  destruct H as [fb [nn [_ [Hnn H]]]]. cbv zeta in H.
  destruct H as [[i [w [c [Hi [Hw [_ E]]]]]]
                | [[st [j [csv [w [c [Hi [Hl [Hb [H80 [Hw [_ E]]]]]]]]]]]
                  | [st [_ [_ [_ E]]]]]]; subst en;
    cbn [entry_result matched_name match_percentage make_result] in *;
    [| |discriminate]; inversion Hm; subst m; clear Hm.
  - apply first_word_text in Hw.
    pose proof (@first_index_found _ _ _ _ _ _ Hnn Hi Hw) as Hc.
    assert (E100 : confidence (fst w) = 100%Z)
      by (apply calculate_equal; now symmetry).
    exists i. split; [now apply nth_text|]. split; [exact E100|].
    rewrite E100. split.
    + intros s _. apply at_most_100.
    + intros k s Hk Hs.
      pose proof (@first_index_first _ _ _ _ _ _ Hnn Hi Hk Hs) as Hne.
      assert (Hd : normalize_name (student_name_of fname)
                   <> normalize_name s) by congruence.
      exact (below_100 (@calculate_differ _ _ _ Hd)).
  - apply first_word_text in Hw. inversion Hw as [Ecsv].
    destruct st as [[idx' best] bm]. simpl in Hb, H80. subst bm.
    apply fuzzy_loop_first in Hl.
    destruct Hl as [[H1 _] | [k [s [H1 [H2 [H3 [_ [H5 H6]]]]]]]];
      [discriminate|].
    simpl in H1, H3. inversion H1; subst j s. rewrite Ecsv in *.
    exists k. fold confidence in H3, H5, H6. subst best full_names.
    split; [exact H2|]. split; [reflexivity|]. split; assumption.
Qed.

End FirstBest.

(** ** The further properties at work *)

Section ConcreteMore.

#[local] Existing Instance Latin1.db.

Lemma first_name_placeholder_witness :
  extract_first_name_from_filename (lit "12345.pdf") = lit "Student".
Proof.
  apply (@first_name_placeholder Latin1.db (lit "12345.pdf")).
  vm_compute. repeat (constructor; [repeat split; discriminate|]).
  constructor.
Defined.

Lemma capital_extension_reads_empty_witness :
  allowed_file (lit "essay.PDF") [lit "pdf"; lit "docx"] = true
  /\ extract_text_with Sample2.read_pdf Sample2.read_docx
                       (lit "/tmp/batch/essay.PDF") = inr [].
Proof.
  apply (@capital_extension_reads_empty Latin1.db (lit "/tmp/batch/essay")
           (lit "essay") (lit "PDF") Sample2.read_pdf Sample2.read_docx).
  - vm_compute. intuition discriminate.
  - vm_compute. left. reflexivity.
  - vm_compute. intuition discriminate.
Defined.

Lemma normalize_name_of_ascii_words_witness :
  normalize_name (lit "Ana DIAZ Ruiz") = lit "ana diaz".
Proof.
  apply (@normalize_name_of_ascii_words Latin1.db
           [lit "Ana"; lit "DIAZ"; lit "Ruiz"]).
  repeat (apply Forall_cons;
          [split; [discriminate | vm_compute; repeat constructor]|]).
  apply Forall_nil.
Defined.

Lemma file_named_by_two_words_witness :
  student_name_of (lit "Ana Garcia.pdf") = lit "Ana Garciapdf"
  /\ In (calculate_match_percentage (student_name_of (lit "Ana Garcia.pdf"))
                                    (lit "Ana Garcia"))
        [50; 95]%Z.
Proof.
  apply (@file_named_by_two_words Latin1.db (lit "Ana") (lit "Garcia")
           (lit "pdf"));
    (split; [discriminate | vm_compute; repeat constructor]).
Defined.

Lemma single_word_is_no_fuzzy_match_witness :
  calculate_match_percentage (lit "Anapdf") (lit "Ana Diaz") = 100%Z
  \/ In (calculate_match_percentage (lit "Anapdf") (lit "Ana Diaz"))
        [0; 45; 50]%Z.
Proof.
  apply (@single_word_is_no_fuzzy_match Latin1.db (lit "Anapdf")
           (lit "Ana Diaz")).
  left. vm_compute. apply le_n.
Defined.

(** The row of Fatima Garcia after the file of Ana Diaz. *)
Lemma other_rows_are_kept_witness :
  nth_error (rows (entry_df Sample.ana_entry)) 1
  = Some (Sample.name_row "Fatima Garcia" "fatima@example.org"
          ++ [(lit "Feedback comments", CStr []); (lit "Grade", CNone)])
  /\ columns (entry_df Sample.ana_entry) = columns (df Sample.setup)
  /\ (matched_name (entry_result Sample.ana_entry) = None ->
      entry_df Sample.ana_entry = df Sample.setup).
Proof.
  apply (@other_rows_are_kept Latin1.db Sample.world
           (instructions Sample.setup) (temp_dir Sample.setup)
           (df_normalized_names Sample.setup) (df Sample.setup) 1
           (lit "Ana Diaz Ruiz.pdf") Sample.ana_entry 1).
  - vm_compute. reflexivity.
  - vm_compute. reflexivity.
  - vm_compute. intros m H. inversion H. discriminate.
Defined.

(** The file of Fautima Garcia against the roster: the second row, at 95. *)
Lemma match_is_the_first_best_row_witness :
  let full_names := column (df Sample.setup) (lit "Full name") in
  let confidence :=
    calculate_match_percentage (student_name_of (lit "Fautima Garcia X.pdf")) in
  exists j,
    nth_error full_names j = Some (CStr (lit "Fatima Garcia"))
    /\ confidence (lit "Fatima Garcia")
       = match_percentage (entry_result Sample2.fautima_entry)
    /\ (forall s, In (CStr s) full_names ->
                  (confidence s <= confidence (lit "Fatima Garcia"))%Z)
    /\ (forall k s, (k < j)%nat -> nth_error full_names k = Some (CStr s) ->
                    (confidence s < confidence (lit "Fatima Garcia"))%Z).
Proof.
  apply (@match_is_the_first_best_row Latin1.db Sample.world
           (instructions Sample.setup) (temp_dir Sample.setup)
           (df Sample.setup) 2 (lit "Fautima Garcia X.pdf")
           Sample2.fautima_entry (lit "Fatima Garcia"));
    vm_compute; reflexivity.
Defined.

Example fautima_confidence :
  match_percentage (entry_result Sample2.fautima_entry) = 95%Z
  /\ entry_idx Sample2.fautima_entry = 3%nat.
Proof. split; vm_compute; reflexivity. Qed.

Lemma complete_names_the_files_written_witness :
  session_updated Sample.run = true
  /\ exists p q table results,
       artifacts Sample.run = [CsvFile p table; ExcelFile q results]
       /\ lit "roster_with_feedback_20250101120000.csv" = Path.basename p
       /\ lit "bulk_feedback_20250101120000.xlsx" = Path.basename q.
Proof.
  apply (@complete_names_the_files_written Latin1.db Sample.world
           (lit "session-1") (Some (lit "essay")) (lit "uploads/batch.zip")
           (lit "uploads/roster.csv") 4
           (lit "roster_with_feedback_20250101120000.csv")
           (lit "bulk_feedback_20250101120000.xlsx")).
  vm_compute. do 4 right. left. reflexivity.
Defined.

(** The three rows of the sample workbook. *)
Lemma report_lists_the_progress_results_witness :
  Sample2.report_results = progress_results (events Sample.run)
  /\ map file_name Sample2.report_results
     = [lit "Ana Diaz Ruizpdf"; lit "Fautima Garcia Xpdf"; lit "Zed Qdocx"].
Proof.
  split; [|vm_compute; reflexivity].
  apply (@report_lists_the_progress_results Latin1.db Sample.world
           (lit "session-1") (Some (lit "essay")) (lit "uploads/batch.zip")
           (lit "uploads/roster.csv") Sample2.excel_path
           Sample2.report_results).
  vm_compute. right. left. reflexivity.
Defined.

(** One unreadable document. *)
Lemma failed_entries_end_in_fatal_error_witness :
  exists evs e,
    events (Sample2.run_of_entries [lit "bad.pdf"]) = evs ++ [FatalError e]
    /\ Forall2 (fun fname ev => exists m, ev = error_event fname m)
               (files (Sample2.setup_of_entries [lit "bad.pdf"])) evs
    /\ (forall total a b,
          ~ In (Complete total a b)
               (events (Sample2.run_of_entries [lit "bad.pdf"])))
    /\ ((forall path table,
           to_csv (Sample2.world_of_entries [lit "bad.pdf"]) path table
           = None) ->
        (forall path,
           open_excel (Sample2.world_of_entries [lit "bad.pdf"]) path
           = None) ->
        e = KeyError_result_columns).
Proof.
  apply (@failed_entries_end_in_fatal_error Latin1.db
           (Sample2.world_of_entries [lit "bad.pdf"])
           (lit "session-1") (Some (lit "essay")) (lit "uploads/batch.zip")
           (lit "uploads/roster.csv") (lit "instructions-essay.json")
           (Sample2.setup_of_entries [lit "bad.pdf"])).
  - vm_compute. reflexivity.
  - vm_compute. reflexivity.
  - intros fname H. vm_compute in H. destruct H as [<-|[]].
    eexists. vm_compute. reflexivity.
Defined.

(** The run of that batch, and the one of an archive without a document:
    the table is written, the workbook and the session are not. *)
Example events_of_failed_batch :
  events (Sample2.run_of_entries [lit "bad.pdf"])
  = [Error (lit "badpdf") (Raised (lit "unreadable"));
     FatalError KeyError_result_columns]
  /\ map event_type (events (Sample2.run_of_entries [lit "bad.pdf"]))
     = [Some (lit "error"); Some (lit "fatal_error")]
  /\ events (Sample2.run_of_entries [lit "notes.txt"])
     = [FatalError KeyError_result_columns]
  /\ session_updated (Sample2.run_of_entries [lit "bad.pdf"]) = false.
Proof. repeat split; vm_compute; reflexivity. Qed.

Lemma complete_follows_a_progress_witness :
  exists current total percentage result,
    In (Progress current total percentage result) (events Sample.run).
Proof.
  apply (@complete_follows_a_progress Latin1.db Sample.world
           (lit "session-1") (Some (lit "essay")) (lit "uploads/batch.zip")
           (lit "uploads/roster.csv") 4
           (lit "roster_with_feedback_20250101120000.csv")
           (lit "bulk_feedback_20250101120000.xlsx")).
  vm_compute. do 4 right. left. reflexivity.
Defined.

Lemma roster_without_name_column_witness :
  events (Sample2.run_of_roster Sample2.table_without_names)
  = [FatalError KeyError_full_name].
Proof.
  refine (proj2 (proj2 (proj2
    (@roster_without_name_column Latin1.db
       (Sample2.world_of_roster Sample2.table_without_names)
       (lit "session-1") (Some (lit "essay")) (lit "uploads/batch.zip")
       (lit "uploads/roster.csv") Sample2.table_without_names _ _)))
    (lit "instructions-essay.json") (lit "{}") _ _);
    vm_compute; reflexivity.
Defined.

Lemma missing_name_fails_every_file_witness :
  progress_results (events (Sample2.run_of_roster Sample2.table_with_gap))
  = [].
Proof.
  refine (proj1
    (@missing_name_fails_every_file Latin1.db
       (Sample2.world_of_roster Sample2.table_with_gap)
       (lit "session-1") (Some (lit "essay")) (lit "uploads/batch.zip")
       (lit "uploads/roster.csv") Sample2.table_with_gap _ _)).
  - vm_compute. reflexivity.
  - vm_compute. right. left. reflexivity.
Defined.

(** With a name missing in the roster the sample batch yields an error for
    each of its four files and ends in [fatal_error]. *)
Example events_of_roster_with_gap :
  map event_type (events (Sample2.run_of_roster Sample2.table_with_gap))
  = [Some (lit "error"); Some (lit "error"); Some (lit "error");
     Some (lit "error"); Some (lit "fatal_error")].
Proof. vm_compute. reflexivity. Qed.

Lemma added_salutation_is_replaced_witness :
  address_by_first_name (lit "Ana") (lit "You, Good work.")
  = lit "Ana, good work.".
Proof.
  apply (@added_salutation_is_replaced Latin1.db (lit "Ana")
           (lit "ood work.") 71%N).
  reflexivity.
Defined.

Lemma feedback_comment_is_never_empty_witness :
  fst (split_feedback_and_score
         (lit "You, good work, an very good essay. Score: 8")) <> [].
Proof.
  apply (@feedback_comment_is_never_empty Latin1.db Sample.world
           Sample2.read_pdf Sample2.read_docx Sample2.complete
           (lit "/tmp/batch/essay.pdf") (lit "{}")).
  vm_compute. reflexivity.
Defined.

(** The program's own post-processing on the sample answer, and what the
    batch makes of it. *)
Example sample_feedback :
  generate_feedback Sample2.program_world (lit "/tmp/batch/essay.pdf")
                    (lit "{}")
  = inr (lit "You, good work, an very good essay. Score: 8")
  /\ split_feedback_and_score
       (lit "You, good work, an very good essay. Score: 8")
     = (lit "You, good work, an very good essay.", lit "8").
Proof. split; vm_compute; reflexivity. Qed.

End ConcreteMore.
